(** * ATLAS Framework: entity, validation and taxonomy-analysis core

    A shallow embedding of the Python sources under [src/atlas]:
    - [enums/node_label.py], [core/relationship.py], [enums/validation.py]
      (the three closed type systems and their rule tables),
    - [descriptors/cached_property.py] (the caching descriptor),
    - [decorators/atlas_operation.py] (the operation envelope),
    - [core/node.py], [core/client.py], [core/taxonomy.py].

    Conventions.  A Python exception is a value of [exn]; a call that may
    raise returns a [result].  Mutable objects are threaded explicitly: a
    method that mutates [self] returns the new [self].  The wall clock
    ([time.time()], [datetime.now()]) is an input [now] of each operation.
    Log output is not modelled.  Only exceptions derived from [Exception]
    are represented. *)

From Stdlib Require Import ZArith QArith Ascii String.
From stdpp Require Import base option list strings gmap fin_maps fin_sets.

Local Open Scope string_scope.
Local Open Scope list_scope.
Local Open Scope nat_scope.

(** ** Exceptions and fallible results *)

Inductive exn : Type :=
  | AttributeError (attr : string)
  | ValueError (msg : string)
  | KeyError (key : string)
  | AssertionError
  | RuntimeError (msg : string)
  | ValidationError (msg : string)
  | PropertyValidationError (msg : string).

Inductive result (A : Type) : Type :=
  | Return (a : A)
  | Raise (e : exn).
Arguments Return {A} a.
Arguments Raise {A} e.

#[global] Instance result_ret : MRet result := λ A a, Return a.
#[global] Instance result_bind : MBind result := λ A B k r,
  match r with
  | Return a => k a
  | Raise e => Raise e
  end.

#[global] Instance exn_eq_dec : EqDecision exn.
Proof. solve_decision. Defined.

(** Property values stored in a node's property map ([Dict[str, Any]]). *)
Inductive pyvalue : Type :=
  | PyNone
  | PyBool (b : bool)
  | PyInt (z : Z)
  | PyStr (s : string).

(** ** Python string methods

    The enum values and every keyword of the [from_string] heuristics are
    ASCII; strings are taken to be ASCII text, on which [str.lower],
    [str.upper] and [str.strip] act as below. *)

Module PyString.

Definition lower_char (c : ascii) : ascii :=
  let n := nat_of_ascii c in
  if (65 <=? n) && (n <=? 90) then ascii_of_nat (n + 32) else c.

Definition upper_char (c : ascii) : ascii :=
  let n := nat_of_ascii c in
  if (97 <=? n) && (n <=? 122) then ascii_of_nat (n - 32) else c.

Fixpoint map (f : ascii → ascii) (s : string) : string :=
  match s with
  | EmptyString => EmptyString
  | String c s' => String (f c) (map f s')
  end.

Definition lower : string → string := map lower_char.
Definition upper : string → string := map upper_char.

(** The ASCII characters for which [str.isspace] holds. *)
Definition is_space (c : ascii) : bool :=
  let n := nat_of_ascii c in
  ((9 <=? n) && (n <=? 13)) || ((28 <=? n) && (n <=? 32)).

Fixpoint lstrip (s : string) : string :=
  match s with
  | EmptyString => EmptyString
  | String c s' => if is_space c then lstrip s' else s
  end.

Fixpoint rev_onto (s acc : string) : string :=
  match s with
  | EmptyString => acc
  | String c s' => rev_onto s' (String c acc)
  end.

Definition rev (s : string) : string := rev_onto s EmptyString.

Definition strip (s : string) : string := rev (lstrip (rev (lstrip s))).

(** [s.replace(" ", "_")] *)
Definition spaces_to_underscores : string → string :=
  map (λ c, if decide (c = " "%char) then "_"%char else c).

(** [sub in s] *)
Fixpoint contains (sub s : string) : bool :=
  String.prefix sub s
  || match s with
     | EmptyString => false
     | String _ s' => contains sub s'
     end.

End PyString.

(** ** core/relationship.py: [RelationshipType] *)

Module RelationshipType.

Inductive t : Type :=
  | IS_A | PART_OF | CONTAINS | SUBCLASS_OF
  | RELATED_TO | SIMILAR_TO | OPPOSITE_OF
  | PRODUCES | CONSUMES | USES | REGULATES | REGULATED_BY
  | EXTRACTED_FROM | LOCATED_IN
  | DEPENDS_ON | IMPROVES | REPLACES | CONNECTS | DEFINED_BY
  | REFERENCES | SUPERSEDES | ENFORCED_BY.

#[global] Instance eq_dec : EqDecision t.
Proof. solve_decision. Defined.

(** The class body: every member with its name.  For this enum the
    value of a member is its name. *)
Definition members : list (string * t) :=
  [ ("IS_A", IS_A); ("PART_OF", PART_OF); ("CONTAINS", CONTAINS);
    ("SUBCLASS_OF", SUBCLASS_OF);
    ("RELATED_TO", RELATED_TO); ("SIMILAR_TO", SIMILAR_TO);
    ("OPPOSITE_OF", OPPOSITE_OF);
    ("PRODUCES", PRODUCES); ("CONSUMES", CONSUMES); ("USES", USES);
    ("REGULATES", REGULATES); ("REGULATED_BY", REGULATED_BY);
    ("EXTRACTED_FROM", EXTRACTED_FROM); ("LOCATED_IN", LOCATED_IN);
    ("DEPENDS_ON", DEPENDS_ON); ("IMPROVES", IMPROVES);
    ("REPLACES", REPLACES); ("CONNECTS", CONNECTS);
    ("DEFINED_BY", DEFINED_BY); ("REFERENCES", REFERENCES);
    ("SUPERSEDES", SUPERSEDES); ("ENFORCED_BY", ENFORCED_BY) ].

Definition value (self : t) : string :=
  match self with
  | IS_A => "IS_A" | PART_OF => "PART_OF" | CONTAINS => "CONTAINS"
  | SUBCLASS_OF => "SUBCLASS_OF"
  | RELATED_TO => "RELATED_TO" | SIMILAR_TO => "SIMILAR_TO"
  | OPPOSITE_OF => "OPPOSITE_OF"
  | PRODUCES => "PRODUCES" | CONSUMES => "CONSUMES" | USES => "USES"
  | REGULATES => "REGULATES" | REGULATED_BY => "REGULATED_BY"
  | EXTRACTED_FROM => "EXTRACTED_FROM" | LOCATED_IN => "LOCATED_IN"
  | DEPENDS_ON => "DEPENDS_ON" | IMPROVES => "IMPROVES"
  | REPLACES => "REPLACES" | CONNECTS => "CONNECTS"
  | DEFINED_BY => "DEFINED_BY" | REFERENCES => "REFERENCES"
  | SUPERSEDES => "SUPERSEDES" | ENFORCED_BY => "ENFORCED_BY"
  end.

Fixpoint assoc {A} (k : string) (l : list (string * A)) : option A :=
  match l with
  | [] => None
  | (k', a) :: l' => if decide (k = k') then Some a else assoc k l'
  end.

(** [self.NAME]: attribute access on a member resolves the names of the
    class body; any other name raises [AttributeError]. *)
Definition getattr (name : string) : result t :=
  match assoc name members with
  | Some m => Return m
  | None => Raise (AttributeError name)
  end.

(** [RelationshipType(v)]: lookup by value, [ValueError] when no member
    has that value. *)
Definition of_value (v : string) : result t :=
  match List.find (λ m, bool_decide (value m.2 = v)) members with
  | Some m => Return m.2
  | None => Raise (ValueError v)
  end.

Definition is_hierarchical (self : t) : bool :=
  bool_decide (value self ∈
    [value IS_A; value PART_OF; value CONTAINS; value SUBCLASS_OF]).

Definition is_directional (self : t) : bool :=
  negb (bool_decide (value self ∈
    [value RELATED_TO; value SIMILAR_TO; value CONNECTS])).

Definition is_transitive (self : t) : bool :=
  bool_decide (value self ∈
    [value IS_A; value SUBCLASS_OF; value PART_OF; value CONTAINS]).

(** The dict display of [inverse_relationship], as written: each entry
    is [self.KEY.value : self.NAME] or [self.KEY.value : None]. *)
Definition inverse_map_display : list (string * option string) :=
  [ ("IS_A", None);
    ("PART_OF", Some "CONTAINS");
    ("CONTAINS", Some "PART_OF");
    ("SUBCLASS_OF", None);
    ("RELATED_TO", Some "RELATED_TO");
    ("SIMILAR_TO", Some "SIMILAR_TO");
    ("OPPOSITE_OF", Some "OPPOSITE_OF");
    ("PRODUCES", Some "PRODUCED_BY");
    ("CONSUMES", Some "CONSUMED_BY");
    ("USES", Some "USED_BY");
    ("REGULATES", Some "REGULATED_BY");
    ("REGULATED_BY", Some "REGULATES");
    ("EXTRACTED_FROM", Some "EXTRACTION_SOURCE_FOR");
    ("LOCATED_IN", Some "LOCATION_OF");
    ("DEPENDS_ON", Some "DEPENDENCY_FOR");
    ("IMPROVES", Some "IMPROVED_BY");
    ("REPLACES", Some "REPLACED_BY");
    ("CONNECTS", Some "CONNECTS");
    ("DEFINED_BY", Some "DEFINES");
    ("REFERENCES", Some "REFERENCED_BY");
    ("SUPERSEDES", Some "SUPERSEDED_BY");
    ("ENFORCED_BY", Some "ENFORCES") ].

(** Evaluation of a dict display: entries left to right, key before
    value; the first failing attribute access aborts the display. *)
Fixpoint eval_display (entries : list (string * option string))
    (acc : gmap string (option t)) : result (gmap string (option t)) :=
  match entries with
  | [] => Return acc
  | (key, val) :: rest =>
      k ← getattr key;
      v ← match val with
          | None => Return None
          | Some name => m ← getattr name; Return (Some m)
          end;
      eval_display rest (<[value k := v]> acc)
  end.

Definition inverse_relationship (self : t) : result (option t) :=
  inverse_map ← eval_display inverse_map_display ∅;
  match inverse_map !! value self with
  | None | Some None => Return None
  | Some (Some inverse) =>
      match of_value (value inverse) with
      | Return r => Return (Some r)
      | Raise (ValueError _) => Return None
      | Raise e => Raise e
      end
  end.

Definition base_properties : gset string := {[ "created_at"; "updated_at" ]}.

Definition type_properties : gmap string (gset string) :=
  list_to_map
    [ (value IS_A, {[ "confidence" ]});
      (value PART_OF, {[ "confidence" ]});
      (value CONTAINS, {[ "confidence" ]});
      (value SUBCLASS_OF, {[ "confidence" ]});
      (value RELATED_TO, {[ "strength"; "description" ]});
      (value SIMILAR_TO, {[ "similarity_score" ]});
      (value OPPOSITE_OF, {[ "confidence" ]});
      (value PRODUCES, {[ "quantity"; "unit" ]});
      (value CONSUMES, {[ "quantity"; "unit" ]});
      (value USES, {[ "purpose" ]});
      (value REGULATES, {[ "regulation_type"; "effective_date" ]});
      (value REGULATED_BY, {[ "regulation_type"; "effective_date" ]});
      (value EXTRACTED_FROM, {[ "extraction_method" ]});
      (value LOCATED_IN, {[ "location_type" ]});
      (value DEPENDS_ON, {[ "dependency_type"; "criticality" ]});
      (value IMPROVES, {[ "improvement_metric"; "improvement_value" ]});
      (value REPLACES, {[ "replacement_date"; "replacement_reason" ]});
      (value CONNECTS, {[ "connection_type" ]});
      (value DEFINED_BY, {[ "definition_source" ]});
      (value REFERENCES, {[ "reference_type"; "reference_date" ]});
      (value SUPERSEDES, {[ "supersession_date" ]});
      (value ENFORCED_BY, {[ "enforcement_mechanism" ]}) ].

Definition required_properties (self : t) : gset string :=
  base_properties ∪ default ∅ (type_properties !! value self).

(** [get_relationship_groups], in the order of the dict display. *)
Definition get_relationship_groups : list (string * list t) :=
  [ ("Hierarchical", [IS_A; PART_OF; CONTAINS; SUBCLASS_OF]);
    ("Semantic", [RELATED_TO; SIMILAR_TO; OPPOSITE_OF]);
    ("Energy", [PRODUCES; CONSUMES; USES; REGULATES; REGULATED_BY;
                EXTRACTED_FROM; LOCATED_IN]);
    ("Technical", [DEPENDS_ON; IMPROVES; REPLACES; CONNECTS; DEFINED_BY;
                   REFERENCES; SUPERSEDES; ENFORCED_BY]) ].

(** Lines 304-359: [from_string].  The direct match is
    [RelationshipType(value)]; its [ValueError] is swallowed and the
    heuristics follow in order. *)
Definition from_string (value : string) : t :=
  let value :=
    PyString.spaces_to_underscores (PyString.strip (PyString.upper value)) in
  let has (sub : string) : bool := PyString.contains sub value in
  match of_value value with
  | Return r => r
  | Raise _ =>
      if has "IS" && has "A" then IS_A
      else if has "PART" then PART_OF
      else if has "CONTAIN" then CONTAINS
      else if has "CLASS" || has "SUBCLASS" then SUBCLASS_OF
      else if has "RELAT" then RELATED_TO
      else if has "SIMILAR" then SIMILAR_TO
      else if has "OPPOSITE" || has "CONTRARY" then OPPOSITE_OF
      else if has "PRODUC" then PRODUCES
      else if has "CONSUM" then CONSUMES
      else if has "USE" || has "USES" || has "USING" then USES
      else if has "REGULAT" && has "BY" then REGULATED_BY
      else if has "REGULAT" then REGULATES
      else if has "EXTRACT" then EXTRACTED_FROM
      else if has "LOCAT" then LOCATED_IN
      else if has "DEPEND" then DEPENDS_ON
      else if has "IMPROV" then IMPROVES
      else if has "REPLAC" then REPLACES
      else if has "CONNECT" then CONNECTS
      else if has "DEFIN" then DEFINED_BY
      else if has "REFER" then REFERENCES
      else if has "SUPER" then SUPERSEDES
      else if has "ENFORC" then ENFORCED_BY
      else RELATED_TO
  end.

End RelationshipType.

(** ** enums/node_label.py: [NodeLabelType] *)

Module NodeLabelType.

Inductive t : Type :=
  | ENERGY_TERM | RENEWABLE_SOURCE | FOSSIL_FUEL | TECHNICAL_CONCEPT
  | REGULATORY_FRAMEWORK
  | TAXONOMY_NODE | CONCEPT | CATEGORY | RELATIONSHIP_NODE.

#[global] Instance eq_dec : EqDecision t.
Proof. solve_decision. Defined.

Definition value (self : t) : string :=
  match self with
  | ENERGY_TERM => "EnergyTerm"
  | RENEWABLE_SOURCE => "RenewableSource"
  | FOSSIL_FUEL => "FossilFuel"
  | TECHNICAL_CONCEPT => "TechnicalConcept"
  | REGULATORY_FRAMEWORK => "RegulatoryFramework"
  | TAXONOMY_NODE => "TaxonomyNode"
  | CONCEPT => "Concept"
  | CATEGORY => "Category"
  | RELATIONSHIP_NODE => "RelationshipNode"
  end.

Definition is_hierarchical (self : t) : bool :=
  bool_decide (value self ∈
    [value ENERGY_TERM; value CATEGORY; value TECHNICAL_CONCEPT;
     value TAXONOMY_NODE]).

Definition requires_validation (self : t) : bool :=
  bool_decide (value self ∈
    [value REGULATORY_FRAMEWORK; value TECHNICAL_CONCEPT]).

Definition base_properties : gset string :=
  {[ "name"; "created_at"; "updated_at" ]}.

(** The per-label extension table, keyed by the label's value. *)
Definition label_properties : gmap string (gset string) :=
  list_to_map
    [ (value ENERGY_TERM, {[ "definition"; "fuel_group" ]});
      (value RENEWABLE_SOURCE, {[ "capacity"; "technology_type" ]});
      (value FOSSIL_FUEL, {[ "carbon_intensity"; "extraction_method" ]});
      (value TECHNICAL_CONCEPT, {[ "description"; "maturity_level" ]});
      (value REGULATORY_FRAMEWORK,
         {[ "jurisdiction"; "effective_date"; "regulatory_body" ]});
      (value TAXONOMY_NODE, {[ "definition" ]});
      (value CONCEPT, {[ "definition" ]});
      (value CATEGORY, {[ "description" ]});
      (value RELATIONSHIP_NODE, {[ "relationship_type" ]}) ].

Definition required_properties (self : t) : gset string :=
  base_properties ∪ default ∅ (label_properties !! value self).

(** The members in definition order, as iterated by [for label in cls]. *)
Definition members : list t :=
  [ ENERGY_TERM; RENEWABLE_SOURCE; FOSSIL_FUEL; TECHNICAL_CONCEPT;
    REGULATORY_FRAMEWORK; TAXONOMY_NODE; CONCEPT; CATEGORY;
    RELATIONSHIP_NODE ].

(** [NodeLabelType(v)] *)
Definition of_value (v : string) : result t :=
  match List.find (λ m, bool_decide (value m = v)) members with
  | Some m => Return m
  | None => Raise (ValueError v)
  end.

Definition compatibility : gmap string (list string) :=
  list_to_map
    [ (value ENERGY_TERM,
         ["IS_A"; "PART_OF"; "USES"; "PRODUCES"; "RELATED_TO"]);
      (value RENEWABLE_SOURCE,
         ["IS_A"; "PRODUCES"; "LOCATED_IN"; "REGULATED_BY"]);
      (value FOSSIL_FUEL,
         ["IS_A"; "EXTRACTED_FROM"; "PRODUCES"; "REGULATED_BY"]);
      (value TECHNICAL_CONCEPT,
         ["USES"; "PRODUCES"; "DEPENDS_ON"; "IMPROVES"; "REPLACES"]);
      (value REGULATORY_FRAMEWORK,
         ["REGULATES"; "SUPERSEDES"; "REFERENCES"; "ENFORCED_BY"]);
      (value TAXONOMY_NODE, ["IS_A"; "PART_OF"; "RELATED_TO"]);
      (value CONCEPT, ["IS_A"; "RELATED_TO"; "DEFINED_BY"]);
      (value CATEGORY, ["CONTAINS"; "RELATED_TO"]);
      (value RELATIONSHIP_NODE, ["CONNECTS"]) ].

Definition compatible_relationships (self : t) : list string :=
  default [] (compatibility !! value self).

(** [get_label_hierarchy]: parent value to child values. *)
Definition get_label_hierarchy : list (string * list string) :=
  [ (value TAXONOMY_NODE, [value ENERGY_TERM; value CONCEPT; value CATEGORY]);
    (value ENERGY_TERM, [value RENEWABLE_SOURCE; value FOSSIL_FUEL]);
    (value CONCEPT, [value TECHNICAL_CONCEPT; value REGULATORY_FRAMEWORK]) ].

(** Lines 247-275: [from_string]. *)
Definition from_string (value : string) : t :=
  let value := PyString.strip (PyString.lower value) in
  let has (sub : string) : bool := PyString.contains sub value in
  match List.find
          (λ label, bool_decide (PyString.lower (NodeLabelType.value label)
                                 = value)) members with
  | Some label => label
  | None =>
      if has "energy" || has "term" then ENERGY_TERM
      else if has "renew" then RENEWABLE_SOURCE
      else if has "fossil" then FOSSIL_FUEL
      else if has "tech" || has "concept" then TECHNICAL_CONCEPT
      else if has "regul" || has "framework" || has "law"
        then REGULATORY_FRAMEWORK
      else if has "taxonomy" then TAXONOMY_NODE
      else if has "concept" then CONCEPT
      else if has "category" then CATEGORY
      else if has "relation" then RELATIONSHIP_NODE
      else TAXONOMY_NODE
  end.

End NodeLabelType.

(** [RelationshipType.compatible_node_pairs] (core/relationship.py, lines
    228-247), which reads the label values. *)
Definition compatible_node_pairs (self : RelationshipType.t)
    : list (string * string) :=
  default []
    ((list_to_map
        [ (RelationshipType.value RelationshipType.IS_A,
             [ (NodeLabelType.value NodeLabelType.RENEWABLE_SOURCE,
                NodeLabelType.value NodeLabelType.ENERGY_TERM);
               (NodeLabelType.value NodeLabelType.FOSSIL_FUEL,
                NodeLabelType.value NodeLabelType.ENERGY_TERM);
               (NodeLabelType.value NodeLabelType.TECHNICAL_CONCEPT,
                NodeLabelType.value NodeLabelType.CONCEPT);
               (NodeLabelType.value NodeLabelType.ENERGY_TERM,
                NodeLabelType.value NodeLabelType.TAXONOMY_NODE) ]);
          (RelationshipType.value RelationshipType.PART_OF,
             [ (NodeLabelType.value NodeLabelType.TECHNICAL_CONCEPT,
                NodeLabelType.value NodeLabelType.TECHNICAL_CONCEPT);
               (NodeLabelType.value NodeLabelType.ENERGY_TERM,
                NodeLabelType.value NodeLabelType.ENERGY_TERM) ]);
          (RelationshipType.value RelationshipType.CONTAINS,
             [ (NodeLabelType.value NodeLabelType.CATEGORY,
                NodeLabelType.value NodeLabelType.ENERGY_TERM);
               (NodeLabelType.value NodeLabelType.CATEGORY,
                NodeLabelType.value NodeLabelType.CONCEPT);
               (NodeLabelType.value NodeLabelType.TECHNICAL_CONCEPT,
                NodeLabelType.value NodeLabelType.TECHNICAL_CONCEPT) ]) ]
      : gmap string (list (string * string)))
     !! RelationshipType.value self).

(** ** enums/fuel_group.py: [FuelGroupType] *)

Module FuelGroupType.

Inductive t : Type :=
  | ALTERNATIVE | COAL | ELECTRICITY | NATURAL_GAS | NUCLEAR | PETROLEUM
  | RENEWABLE.

#[global] Instance eq_dec : EqDecision t.
Proof. solve_decision. Defined.

Definition members : list (string * t) :=
  [ ("ALTERNATIVE", ALTERNATIVE); ("COAL", COAL);
    ("ELECTRICITY", ELECTRICITY); ("NATURAL_GAS", NATURAL_GAS);
    ("NUCLEAR", NUCLEAR); ("PETROLEUM", PETROLEUM);
    ("RENEWABLE", RENEWABLE) ].

Definition value (self : t) : string :=
  match self with
  | ALTERNATIVE => "alternative" | COAL => "coal"
  | ELECTRICITY => "electricity" | NATURAL_GAS => "natural_gas"
  | NUCLEAR => "nuclear" | PETROLEUM => "petroleum"
  | RENEWABLE => "renewable"
  end.

Definition getattr (name : string) : result t :=
  match RelationshipType.assoc name members with
  | Some m => Return m
  | None => Raise (AttributeError name)
  end.

Definition of_value (v : string) : result t :=
  match List.find (λ m, bool_decide (value m.2 = v)) members with
  | Some m => Return m.2
  | None => Raise (ValueError v)
  end.

Definition is_renewable (self : t) : bool :=
  bool_decide (value self ∈ [value RENEWABLE; value ALTERNATIVE]).

Definition is_fossil_fuel (self : t) : bool :=
  bool_decide (value self ∈ [value COAL; value NATURAL_GAS; value PETROLEUM]).

(** The dict display of [related_fuel_groups], as written: each entry
    is [self.KEY.value : [self.NAME, ...]]. *)
Definition relations_display : list (string * list string) :=
  [ ("RENEWABLE", ["ALTERNATIVE"; "ELECTRICITY"]);
    ("ALTERNATIVE", ["RENEWABLE"; "ELECTRICITY"]);
    ("NUCLEAR", ["ELECTRICITY"]);
    ("NATURAL_GAS", ["FOSSIL_FUEL"; "ELECTRICITY"]);
    ("PETROLEUM", ["FOSSIL_FUEL"]);
    ("COAL", ["FOSSIL_FUEL"; "ELECTRICITY"]);
    ("ELECTRICITY", ["RENEWABLE"; "NUCLEAR"; "COAL"; "NATURAL_GAS"]) ].

Fixpoint getattrs (names : list string) : result (list t) :=
  match names with
  | [] => Return []
  | name :: rest => m ← getattr name; ms ← getattrs rest; Return (m :: ms)
  end.

Fixpoint eval_display (entries : list (string * list string))
    (acc : gmap string (list t)) : result (gmap string (list t)) :=
  match entries with
  | [] => Return acc
  | (key, names) :: rest =>
      k ← getattr key;
      v ← getattrs names;
      eval_display rest (<[value k := v]> acc)
  end.

Definition related_fuel_groups (self : t) : result (list t) :=
  relations ← eval_display relations_display ∅;
  Return (default [] (relations !! value self)).

(** Lines 147-170: [from_string]. *)
Definition from_string (value : string) : result t :=
  let value := PyString.strip (PyString.lower value) in
  let has (sub : string) : bool := PyString.contains sub value in
  match of_value value with
  | Return g => Return g
  | Raise _ =>
      if has "renew" || has "solar" || has "wind" || has "hydro"
        then Return RENEWABLE
      else if has "alter" || has "bio" || has "hydrogen"
        then Return ALTERNATIVE
      else if has "nucl" || has "atom" || has "fission" then Return NUCLEAR
      else if has "gas" || has "methane" then Return NATURAL_GAS
      else if has "petro" || has "oil" || has "diesel" || has "gasoline"
        then Return PETROLEUM
      else if has "coal" then Return COAL
      else if has "electr" || has "power" || has "grid"
        then Return ELECTRICITY
      else Raise (ValueError ("No matching fuel group found for: " +:+ value))
  end.

End FuelGroupType.

(** ** enums/validation.py: [ValidationStatusType] *)

Module ValidationStatusType.

Inductive t : Type :=
  | UNVALIDATED | VALIDATED | NEEDS_REVIEW | REJECTED | PENDING
  | AUTOMATED_VALIDATED | EXPERT_VALIDATED | COMMUNITY_VALIDATED.

#[global] Instance eq_dec : EqDecision t.
Proof. solve_decision. Defined.

Definition to_nat (s : t) : nat :=
  match s with
  | UNVALIDATED => 0 | VALIDATED => 1 | NEEDS_REVIEW => 2 | REJECTED => 3
  | PENDING => 4 | AUTOMATED_VALIDATED => 5 | EXPERT_VALIDATED => 6
  | COMMUNITY_VALIDATED => 7
  end.

Definition of_nat (n : nat) : option t :=
  match n with
  | 0 => Some UNVALIDATED | 1 => Some VALIDATED | 2 => Some NEEDS_REVIEW
  | 3 => Some REJECTED | 4 => Some PENDING | 5 => Some AUTOMATED_VALIDATED
  | 6 => Some EXPERT_VALIDATED | 7 => Some COMMUNITY_VALIDATED
  | _ => None
  end.

#[global] Instance countable : Countable t.
Proof. apply (inj_countable to_nat of_nat). by intros []. Defined.

Definition value (self : t) : string :=
  match self with
  | UNVALIDATED => "unvalidated"
  | VALIDATED => "validated"
  | NEEDS_REVIEW => "needs_review"
  | REJECTED => "rejected"
  | PENDING => "pending"
  | AUTOMATED_VALIDATED => "automated_validated"
  | EXPERT_VALIDATED => "expert_validated"
  | COMMUNITY_VALIDATED => "community_validated"
  end.

Definition is_valid (self : t) : bool :=
  bool_decide (value self ∈
    [value VALIDATED; value AUTOMATED_VALIDATED; value EXPERT_VALIDATED;
     value COMMUNITY_VALIDATED]).

(** The adjacency table of [allowed_transitions], keyed by value. *)
Definition transitions : gmap string (gset t) :=
  list_to_map
    [ (value UNVALIDATED,
         {[ PENDING; AUTOMATED_VALIDATED; NEEDS_REVIEW; REJECTED ]});
      (value VALIDATED, {[ NEEDS_REVIEW; REJECTED ]});
      (value NEEDS_REVIEW,
         {[ VALIDATED; EXPERT_VALIDATED; COMMUNITY_VALIDATED; REJECTED ]});
      (value REJECTED, {[ NEEDS_REVIEW; PENDING ]});
      (value PENDING,
         {[ VALIDATED; NEEDS_REVIEW; REJECTED; AUTOMATED_VALIDATED ]});
      (value AUTOMATED_VALIDATED,
         {[ EXPERT_VALIDATED; COMMUNITY_VALIDATED; NEEDS_REVIEW; REJECTED ]});
      (value EXPERT_VALIDATED, {[ NEEDS_REVIEW; REJECTED ]});
      (value COMMUNITY_VALIDATED,
         {[ EXPERT_VALIDATED; NEEDS_REVIEW; REJECTED ]}) ].

Definition allowed_transitions (self : t) : gset t :=
  default ∅ (transitions !! value self).

Definition requires_action (self : t) : bool :=
  bool_decide (value self ∈
    [value UNVALIDATED; value NEEDS_REVIEW; value PENDING]).

Definition members : list t :=
  [ UNVALIDATED; VALIDATED; NEEDS_REVIEW; REJECTED; PENDING;
    AUTOMATED_VALIDATED; EXPERT_VALIDATED; COMMUNITY_VALIDATED ].

(** [ValidationStatusType(v)] *)
Definition of_value (v : string) : result t :=
  match List.find (λ m, bool_decide (value m = v)) members with
  | Some m => Return m
  | None => Raise (ValueError v)
  end.

(** [get_validation_levels] *)
Definition get_validation_levels : list (string * list t) :=
  [ ("High", [EXPERT_VALIDATED; COMMUNITY_VALIDATED]);
    ("Medium", [VALIDATED; AUTOMATED_VALIDATED]);
    ("Low", [PENDING; UNVALIDATED]);
    ("Invalid", [REJECTED; NEEDS_REVIEW]) ].

(** Lines 218-245: [from_string]. *)
Definition from_string (value : string) : t :=
  let value :=
    PyString.spaces_to_underscores (PyString.strip (PyString.lower value)) in
  let has (sub : string) : bool := PyString.contains sub value in
  match of_value value with
  | Return s => s
  | Raise _ =>
      if has "unvalid" then UNVALIDATED
      else if has "valid"
              && negb (has "auto" || has "expert" || has "community")
        then VALIDATED
      else if has "review" || has "need" then NEEDS_REVIEW
      else if has "reject" then REJECTED
      else if has "pend" then PENDING
      else if has "auto" then AUTOMATED_VALIDATED
      else if has "expert" then EXPERT_VALIDATED
      else if has "community" then COMMUNITY_VALIDATED
      else UNVALIDATED
  end.

End ValidationStatusType.

(** ** descriptors/cached_property.py: [CachedProperty] *)

Module CachedProperty.

(** One slot of [instance._cached_properties]:
    [{"value": ..., "timestamp": ...}]. *)
Record entry (V : Type) : Type := Entry { value : V; timestamp : Z }.
Arguments Entry {V} value timestamp.
Arguments value {V} e.
Arguments timestamp {V} e.

(** What the descriptor needs from an instance: reading and rebinding the
    attribute [_cached_properties] ([None] when the attribute is not set,
    which is what [hasattr] tests). *)
Class Host (I V : Type) : Type := {
  cached_properties : I → option (gmap string (entry V));
  set_cached_properties : gmap string (entry V) → I → I;
}.

Section descriptor.
Context {I V : Type} `{!Host I V}.

(** The state of the descriptor object: [self.func], [self.ttl],
    [self.name].  [func] receives the instance and may itself read other
    cached properties of it, so it returns the instance as well. *)
Variable func : Z → I → V * I.
Variable ttl : option Z.
Variable name : string.

(** [__get__] on an instance.  The dict bound to [cache] is the object
    stored in the instance, so entries written by [func] (through other
    descriptors) are in it when [cache[self.name]] is assigned. *)
Definition get (now : Z) (instance : I) : V * I :=
  let instance :=
    match cached_properties instance with
    | None => set_cached_properties ∅ instance
    | Some _ => instance
    end in
  let cache := default ∅ (cached_properties instance) in
  let compute :=
    let '(v, instance) := func now instance in
    let cache := default ∅ (cached_properties instance) in
    (v, set_cached_properties (<[name := Entry v now]> cache) instance) in
  match cache !! name with
  | Some e =>
      match ttl with
      | None => (value e, instance)
      | Some d =>
          if bool_decide (now - timestamp e < d)%Z then (value e, instance)
          else compute
      end
  | None => compute
  end.

(** [__set__] and [__delete__]. *)
Definition set (now : Z) (v : V) (instance : I) : I :=
  let cache := default ∅ (cached_properties instance) in
  set_cached_properties (<[name := Entry v now]> cache) instance.

Definition delete (instance : I) : I :=
  match cached_properties instance with
  | None => instance
  | Some cache => set_cached_properties (base.delete name cache) instance
  end.

End descriptor.

End CachedProperty.

(** ** descriptors/lazy_property.py: [LazyProperty] *)

Module LazyProperty.

(** The attribute [_lazy_properties] of an instance ([None]: not set). *)
Class Host (I V : Type) : Type := {
  lazy_properties : I → option (gmap string V);
  set_lazy_properties : gmap string V → I → I;
}.

Section descriptor.
Context {I V : Type} `{!Host I V}.

Variable func : I → V * I.
Variable name : string.

(** [__get__] on an instance. *)
Definition get (instance : I) : V * I :=
  let instance :=
    match lazy_properties instance with
    | None => set_lazy_properties ∅ instance
    | Some _ => instance
    end in
  let lazy_props := default ∅ (lazy_properties instance) in
  match lazy_props !! name with
  | Some v => (v, instance)
  | None =>
      let '(v, instance) := func instance in
      (v, set_lazy_properties
            (<[name := v]> (default ∅ (lazy_properties instance))) instance)
  end.

Definition set (v : V) (instance : I) : I :=
  set_lazy_properties
    (<[name := v]> (default ∅ (lazy_properties instance))) instance.

Definition delete (instance : I) : I :=
  match lazy_properties instance with
  | None => instance
  | Some lazy_props => set_lazy_properties (base.delete name lazy_props) instance
  end.

End descriptor.

End LazyProperty.

(** ** descriptors/validated_property.py: [ValidatedProperty] *)

Module ValidatedProperty.

(** The attribute [_validated_properties] of an instance. *)
Class Host (I V : Type) : Type := {
  validated_properties : I → option (gmap string V);
  set_validated_properties : gmap string V → I → I;
}.

Section descriptor.
Context {I V : Type} `{!Host I V}.

(** [self.validator], [self.default], [self.error_message], [self.name],
    and the rendering of a value in the error text. *)
Variable validator : I → V → bool.
Variable default_value : option V.
Variable error_message : option string.
Variable name : string.
Variable str_value : V → string.

(** [__get__]: the stored value, else the default ([None] when there is
    none). *)
Definition get (instance : I) : option V * I :=
  let instance :=
    match validated_properties instance with
    | None => set_validated_properties ∅ instance
    | Some _ => instance
    end in
  let validated_props := default ∅ (validated_properties instance) in
  (match validated_props !! name with
   | Some v => Some v
   | None => default_value
   end, instance).

(** [self.error_message or f"Validation failed for {self.name}"] *)
Definition message : string :=
  match error_message with
  | Some m => if decide (m = "") then "Validation failed for " +:+ name else m
  | None => "Validation failed for " +:+ name
  end.

(** [__set__] *)
Definition set (v : V) (instance : I) : result () * I :=
  if validator instance v then
    (Return (),
     set_validated_properties
       (<[name := v]> (default ∅ (validated_properties instance))) instance)
  else
    (Raise (PropertyValidationError (message +:+ ": " +:+ str_value v)),
     instance).

Definition delete (instance : I) : I :=
  match validated_properties instance with
  | None => instance
  | Some props => set_validated_properties (base.delete name props) instance
  end.

End descriptor.

End ValidatedProperty.

(** ** decorators/atlas_operation.py: the operation envelope *)

Module AtlasOperation.

(** The decorator's keyword arguments. *)
Record config : Type := Config {
  operation_type : string;
  requires_validation : bool;
  retry_attempts : Z;
  retry_delay : Q;
  cache_result : bool;
}.

(** Observable steps of one wrapped call: an invocation of the wrapped
    function and a [time.sleep(retry_delay)]. *)
Inductive event : Type :=
  | Invoke
  | Sleep (delay : Q).

Definition is_invoke (ev : event) : bool :=
  match ev with Invoke => true | Sleep _ => false end.

Definition invocations (tr : list event) : nat :=
  length (filter (λ ev, is_invoke ev = true) tr).

Definition sleeps (tr : list event) : nat :=
  length (filter (λ ev, is_invoke ev = false) tr).

(** What the wrapper asks of [instance = args[0]]: whether it has a
    [validate] attribute, and what calling it does. *)
Record instance_view (W : Type) : Type := InstanceView {
  validate_attr : option (W → result bool * W);
}.
Arguments InstanceView {W} validate_attr.
Arguments validate_attr {W} i.

Section wrapper.
Context {A W V : Type}.

(** [A] is what one call passes ([*args, **kwargs]); [W] is the state the
    call runs against (the instance and whatever the body touches); [V] is
    the type of results. *)
Variable cfg : config.
Variable func_name : string.
Variable func : A → W → result V * W.

(** [args[0] if args else None]. *)
Variable instance : A → option (instance_view W).

(** The attribute [_operation_cache] of the instance ([None]: not set) and
    its assignment. *)
Variable operation_cache : W → option (gmap string V).
Variable set_operation_cache : gmap string V → W → W.

(** [str(args)] and [str(kwargs)] as interpolated into the cache key. *)
Variable str_args : A → string.
Variable str_kwargs : A → string.

Definition cache_key (a : A) : string :=
  func_name +:+ "_" +:+ str_args a +:+ "_" +:+ str_kwargs a.

(** Lines 56-61. *)
Definition cache_lookup (a : A) (w : W) : option V :=
  if cache_result cfg then
    match instance a with
    | Some _ => cache ← operation_cache w; cache !! cache_key a
    | None => None
    end
  else None.

(** Lines 63-69. *)
Definition validation_gate (a : A) (w : W) : result () * W :=
  if requires_validation cfg then
    match instance a with
    | Some i =>
        match validate_attr i with
        | Some validate =>
            match validate w with
            | (Return true, w') => (Return (), w')
            | (Return false, w') =>
                (Raise (ValueError ("Validation failed for "
                          +:+ operation_type cfg +:+ " operation")), w')
            | (Raise e, w') => (Raise e, w')
            end
        | None => (Return (), w)
        end
    | None => (Return (), w)
    end
  else (Return (), w).

(** Lines 85-90. *)
Definition cache_store (a : A) (res : V) (w : W) : W :=
  if cache_result cfg then
    match instance a with
    | Some _ =>
        let cache := default ∅ (operation_cache w) in
        set_operation_cache (<[cache_key a := res]> cache) w
    | None => w
    end
  else w.

(** Lines 71-109.  [budget] is [retry_attempts + 1 - attempt], so the
    loop test [attempt <= retry_attempts] is [budget > 0], and after
    [attempt += 1] the test [attempt <= retry_attempts] is
    [budget - 1 > 0].  Leaving the loop through its test reaches the
    [assert] and [raise last_error] below it. *)
Fixpoint retry_loop (budget : nat) (a : A) (last_error : option exn)
    (w : W) (tr : list event) : result V * W * list event :=
  match budget with
  | O =>
      match last_error with
      | None => (Raise AssertionError, w, tr)
      | Some e => (Raise e, w, tr)
      end
  | S budget' =>
      match func a w with
      | (Return res, w') => (Return res, cache_store a res w', tr ++ [Invoke])
      | (Raise e, w') =>
          match budget' with
          | O => (Raise e, w', tr ++ [Invoke])
          | S _ =>
              retry_loop budget' a (Some e) w'
                (tr ++ [Invoke; Sleep (retry_delay cfg)])
          end
      end
  end.

Definition wrapper (a : A) (w : W) : result V * W * list event :=
  match cache_lookup a w with
  | Some v => (Return v, w, [])
  | None =>
      match validation_gate a w with
      | (Return _, w') =>
          retry_loop (Z.to_nat (retry_attempts cfg + 1)) a None w' []
      | (Raise e, w') => (Raise e, w', [])
      end
  end.

(** The wrapped function fails [k] times in a row from [w]: the
    exceptions it raised and the state it left. *)
Fixpoint run_failures (k : nat) (a : A) (w : W) : option (list exn * W) :=
  match k with
  | O => Some ([], w)
  | S k' =>
      match func a w with
      | (Raise e, w') =>
          '(es, w'') ← run_failures k' a w'; Some (e :: es, w'')
      | (Return _, _) => None
      end
  end.

End wrapper.

(** The result and final state of a wrapped call, without its trace. *)
Definition outcome {W V} (r : result V * W * list event) : result V * W :=
  (r.1.1, r.1.2).

End AtlasOperation.

(** ** decorators/fabric_pattern.py *)

Module FabricPattern.

(** A pattern of the registry, as far as the decorator uses it:
    [pattern.process(result, **params)], taken as a function of the
    result that returns or raises. *)
Record pattern (V : Type) : Type := Pattern { process : V → result V }.
Arguments Pattern {V} process.
Arguments process {V} p v.

Record registry (V : Type) : Type := Registry {
  get_pattern : string → option (pattern V);
}.
Arguments Registry {V} get_pattern.
Arguments get_pattern {V} r name.

Section wrapper.
Context {A W V : Type}.

Variable pattern_name : string.
Variable func : A → W → result V * W.

(** [instance.fabric_registry], [None] when there is no instance, no such
    attribute, or the attribute is [None]. *)
Variable fabric_registry : A → W → option (registry V).

Definition call (a : A) (w : W) (tr : list AtlasOperation.event)
    : result V * W * list AtlasOperation.event :=
  let '(r, w') := func a w in (r, w', tr ++ [AtlasOperation.Invoke]).

(** Lines 37-77. *)
Definition wrapper (a : A) (w : W)
    : result V * W * list AtlasOperation.event :=
  match fabric_registry a w with
  | Some reg =>
      match get_pattern reg pattern_name with
      | None => call a w []
      | Some pat =>
          match func a w with
          | (Return res, w') =>
              match process pat res with
              | Return enhanced =>
                  (Return enhanced, w', [AtlasOperation.Invoke])
              | Raise _ => call a w' [AtlasOperation.Invoke]
              end
          | (Raise _, w') => call a w' [AtlasOperation.Invoke]
          end
      end
  | None => call a w []
  end.

End wrapper.

End FabricPattern.

(** ** core/node.py: [ATLASNode] *)

Module ATLASNode.

Record t : Type := Node {
  id : string;
  labels : list NodeLabelType.t;
  properties : gmap string pyvalue;
  created_at : Z;
  updated_at : Z;
  validation_status : ValidationStatusType.t;
  _cached_properties : option (gmap string (CachedProperty.entry (gset string)));
}.

Definition with_properties (p : gmap string pyvalue) (self : t) : t :=
  Node (id self) (labels self) p (created_at self) (updated_at self)
       (validation_status self) (_cached_properties self).

Definition with_updated_at (now : Z) (self : t) : t :=
  Node (id self) (labels self) (properties self) (created_at self) now
       (validation_status self) (_cached_properties self).

Definition with_validation_status (s : ValidationStatusType.t) (self : t) : t :=
  Node (id self) (labels self) (properties self) (created_at self)
       (updated_at self) s (_cached_properties self).

Definition with_cached_properties
    (c : gmap string (CachedProperty.entry (gset string))) (self : t) : t :=
  Node (id self) (labels self) (properties self) (created_at self)
       (updated_at self) (validation_status self) (Some c).

#[global] Instance host : CachedProperty.Host t (gset string) := {|
  CachedProperty.cached_properties := _cached_properties;
  CachedProperty.set_cached_properties := with_cached_properties;
|}.

(** Modelled from the spec: the decorator [cached_property] of
    [atlas/decorators/cached_property.py] is not among the sources.
    Applied bare, as it is on [required_properties] and
    [missing_properties], it is taken to wrap the function in a
    [CachedProperty] with the descriptor's defaults: no TTL, and the
    function's name as the cache slot. *)
Definition cached_property (name : string)
    (func : Z → t → gset string * t) : Z → t → gset string * t :=
  CachedProperty.get func None name.

(** Lines 104-107. *)
Definition required_properties_func (self : t) : gset string :=
  foldl (λ required label, required ∪ NodeLabelType.required_properties label)
        ∅ (labels self).

Definition required_properties : Z → t → gset string * t :=
  cached_property "required_properties"
    (λ _ self, (required_properties_func self, self)).

(** Line 117. *)
Definition missing_properties_func (now : Z) (self : t) : gset string * t :=
  let '(required, self) := required_properties now self in
  (required ∖ dom (properties self), self).

Definition missing_properties : Z → t → gset string * t :=
  cached_property "missing_properties" missing_properties_func.

Definition is_valid (now : Z) (self : t) : bool * t :=
  let '(missing, self) := missing_properties now self in
  (bool_decide (missing = ∅)
     && ValidationStatusType.is_valid (validation_status self), self).

(** Lines 170-180: the body of [validate].  The loop over the property
    items reads [self.required_properties] once per item and does nothing
    else. *)
Definition validate_func (now : Z) (self : t) : result bool * t :=
  let '(missing, self) := missing_properties now self in
  if bool_decide (missing ≠ ∅) then (Return false, self)
  else
    let self :=
      foldl (λ self (item : string * pyvalue),
               (required_properties now self).2)
            self (map_to_list (properties self)) in
    (Return true, self).

(** Lines 158-160: the body of [update]; [dict.update] lets the new
    values win, and the method returns [self]. *)
Definition update_func (now : Z) (p : gmap string pyvalue) (self : t)
    : result t * t :=
  let self := with_properties (p ∪ properties self) self in
  let self := with_updated_at now self in
  (Return self, self).

(** Node methods are decorated without [cache_result], so the attribute
    [_operation_cache] is never read or written on a node. *)
Definition no_operation_cache {V} (self : t) : option (gmap string V) := None.
Definition keep {V} (c : gmap string V) (self : t) : t := self.

(** [@atlas_operation("validation")] *)
Definition validate (now : Z) (self : t) : result bool * t :=
  AtlasOperation.outcome
    (AtlasOperation.wrapper
       (AtlasOperation.Config "validation" false 0 1 false)
       "validate"
       (λ (_ : ()) self, validate_func now self)
       (λ _, Some (AtlasOperation.InstanceView None))
       no_operation_cache keep (λ _, "") (λ _, "")
       () self).

(** The node as seen by a wrapper around one of its own methods: it has a
    [validate] attribute, the method above. *)
Definition as_instance (now : Z) : AtlasOperation.instance_view t :=
  AtlasOperation.InstanceView (Some (validate now)).

(** [@atlas_operation("update", requires_validation=True)] *)
Definition update (now : Z) (p : gmap string pyvalue) (self : t)
    : result t * t :=
  AtlasOperation.outcome
    (AtlasOperation.wrapper
       (AtlasOperation.Config "update" true 0 1 false)
       "update"
       (λ p self, update_func now p self)
       (λ _, Some (as_instance now))
       no_operation_cache keep (λ _, "") (λ _, "")
       p self).

(** Direct mutation of the public property dict, as client code does:
    [node.properties.update(p)]. *)
Definition properties_update (p : gmap string pyvalue) (self : t) : t :=
  with_properties (p ∪ properties self) self.

(** Construction ([ATLASNode(labels=..., properties=...)] through
    [create]): the model validator rejects an empty label list; a new
    node is [UNVALIDATED] and has no cached properties. *)
Definition create (node_id : string) (now : Z) (ls : list NodeLabelType.t)
    (p : gmap string pyvalue) : result t :=
  match ls with
  | [] => Raise (ValidationError "Node must have at least one label")
  | _ => Return (Node node_id ls p now now ValidationStatusType.UNVALIDATED None)
  end.

(** What a caller may pass as one label: a string, a [NodeLabelType]
    member, or something else (with the rendering of its type). *)
Inductive label_input : Type :=
  | LabelStr (s : string)
  | LabelEnum (l : NodeLabelType.t)
  | LabelOther (type_name : string).

(** Lines 80-94: the field validator of [labels].  A member of the enum
    is a [str] as well and takes the first branch. *)
Fixpoint validate_label_types (v : list label_input)
    : result (list NodeLabelType.t) :=
  match v with
  | [] => Return []
  | label :: rest =>
      l ← match label with
          | LabelStr s =>
              match NodeLabelType.of_value s with
              | Return l => Return l
              | Raise _ => Return (NodeLabelType.from_string s)
              end
          | LabelEnum l =>
              match NodeLabelType.of_value (NodeLabelType.value l) with
              | Return l' => Return l'
              | Raise _ =>
                  Return (NodeLabelType.from_string (NodeLabelType.value l))
              end
          | LabelOther type_name =>
              Raise (ValidationError
                       ("Invalid node label type: " +:+ type_name))
          end;
      ls ← validate_label_types rest;
      Return (l :: ls)
  end.

End ATLASNode.

(** ** Relationships and the graph adapter *)

Module ATLASRelationship.

(** Modelled from the spec: the class [ATLASRelationship] is imported from
    [atlas.core.relationship] but is not defined in the sources.  Following
    the data model (identifier, type variant, source node id, target node
    id) and the analyzer's description ("relationships whose type is
    hierarchical"), a relationship carries the fields the analyzer reads
    and [is_hierarchical] is that of its type. *)
Record t : Type := Relationship {
  id : string;
  type : RelationshipType.t;
  start_node_id : string;
  end_node_id : string;
}.

Definition is_hierarchical (self : t) : bool :=
  RelationshipType.is_hierarchical (type self).

End ATLASRelationship.

(** The graph adapter is an external collaborator; the client only
    forwards to it.  Its queries are taken as functions of their
    arguments; the nodes handed to [update_node] are recorded by the
    caller. *)
Record GraphAdapter : Type := {
  get_node : string → option ATLASNode.t;
  find_nodes :
    option (list NodeLabelType.t) → option (gmap string pyvalue) → Z
    → list ATLASNode.t;
  find_relationships :
    option RelationshipType.t → option string → option string
    → option (gmap string pyvalue) → Z → list ATLASRelationship.t;
}.

(** ** core/client.py: [ATLASClient] *)

Module ATLASClient.

Record t : Type := Client { graph_adapter : option GraphAdapter }.

(** Lines 302-319: the body of [validate_node].  The state is the list of
    nodes passed to [graph_adapter.update_node] so far. *)
Definition validate_node_func (now : Z) (self : t) (node_id : string)
    (persisted : list ATLASNode.t) : result bool * list ATLASNode.t :=
  match graph_adapter self with
  | None => (Return false, persisted)
  | Some adapter =>
      match get_node adapter node_id with
      | None => (Return false, persisted)
      | Some node =>
          match ATLASNode.validate now node with
          | (Raise e, _) => (Raise e, persisted)
          | (Return is_valid, node) =>
              let node :=
                if is_valid
                then ATLASNode.with_validation_status
                       ValidationStatusType.VALIDATED node
                else ATLASNode.with_validation_status
                       ValidationStatusType.NEEDS_REVIEW node in
              (Return is_valid, persisted ++ [node])
          end
      end
  end.

(** [@atlas_operation("validation")]; the client has no [validate]
    attribute and no operation cache. *)
Definition validate_node (now : Z) (self : t) (node_id : string)
    (persisted : list ATLASNode.t) : result bool * list ATLASNode.t :=
  AtlasOperation.outcome
    (AtlasOperation.wrapper
       (AtlasOperation.Config "validation" false 0 1 false)
       "validate_node"
       (validate_node_func now self)
       (λ _, Some (AtlasOperation.InstanceView None))
       (λ _, None) (λ _ w, w) (λ _, "") (λ _, "")
       node_id persisted).

(** [find_nodes] and [find_relationships] with their default arguments
    ([limit = 100]); both are wrapped with the default envelope, which
    returns what the body returns. *)
Definition find_nodes (self : t) (ls : option (list NodeLabelType.t))
    (p : option (gmap string pyvalue)) : list ATLASNode.t :=
  match graph_adapter self with
  | None => []
  | Some adapter => find_nodes adapter ls p 100
  end.

Definition find_relationships (self : t) (start_id end_id : option string)
    : list ATLASRelationship.t :=
  match graph_adapter self with
  | None => []
  | Some adapter => find_relationships adapter None start_id end_id None 100
  end.

End ATLASClient.

(** ** core/taxonomy.py: [TaxonomyExtractor] *)

Module TaxonomyExtractor.

Record t : Type := Extractor { client : ATLASClient.t }.

(** Values of the analysis dict.  The connectivity ratio, a Python float,
    is kept as the exact quotient. *)
Inductive analysis_value : Type :=
  | AStr (s : string)
  | AInt (n : nat)
  | ACounts (c : gmap string nat)
  | ARatio (q : Q).

(** An insertion-ordered dict: assigning an existing key keeps its
    position and replaces its value. *)
Fixpoint dict_set {V} (k : string) (v : V) (d : list (string * V))
    : list (string * V) :=
  match d with
  | [] => [(k, v)]
  | (k', v') :: d' =>
      if decide (k = k') then (k, v) :: d' else (k', v') :: dict_set k v d'
  end.

(** Line 278: [{rel.id: rel for rel in relationships}.values()]. *)
Definition unique_relationships (relationships : list ATLASRelationship.t)
    : list ATLASRelationship.t :=
  (foldl (λ d rel, dict_set (ATLASRelationship.id rel) rel d)
         [] relationships).*2.

Definition bump (k : string) (counts : gmap string nat) : gmap string nat :=
  <[k := default 0 (counts !! k) + 1]> counts.

Definition _count_node_labels (nodes : list ATLASNode.t) : gmap string nat :=
  foldl (λ label_counts node,
           foldl (λ label_counts label,
                    bump (NodeLabelType.value label) label_counts)
                 label_counts (ATLASNode.labels node))
        ∅ nodes.

Definition _count_relationship_types
    (relationships : list ATLASRelationship.t) : gmap string nat :=
  foldl (λ type_counts rel,
           bump (RelationshipType.value (ATLASRelationship.type rel))
                type_counts)
        ∅ relationships.

Definition _calculate_connectivity (nodes : list ATLASNode.t)
    (relationships : list ATLASRelationship.t) : Q :=
  if decide (length nodes ≤ 1) then 0%Q
  else
    let max_relationships := length nodes * (length nodes - 1) in
    if decide (max_relationships = 0) then 0%Q
    else (inject_Z (Z.of_nat (length relationships))
          / inject_Z (Z.of_nat max_relationships))%Q.

(** Lines 366-372: the adjacency dict.  Every node id gets an empty
    list; a hierarchical relationship appends its end to the list found
    under its start, and the subscript raises [KeyError] when the start is
    not a key. *)
Fixpoint add_edges (relationships : list ATLASRelationship.t)
    (adjacency : gmap string (list string))
    : result (gmap string (list string)) :=
  match relationships with
  | [] => Return adjacency
  | rel :: rest =>
      if ATLASRelationship.is_hierarchical rel then
        match adjacency !! ATLASRelationship.start_node_id rel with
        | None => Raise (KeyError (ATLASRelationship.start_node_id rel))
        | Some children =>
            add_edges rest
              (<[ATLASRelationship.start_node_id rel :=
                   children ++ [ATLASRelationship.end_node_id rel]]>
                 adjacency)
        end
      else add_edges rest adjacency
  end.

Definition build_adjacency (nodes : list ATLASNode.t)
    (relationships : list ATLASRelationship.t)
    : result (gmap string (list string)) :=
  add_edges relationships
    (foldl (λ adjacency node, <[ATLASNode.id node := []]> adjacency) ∅ nodes).

(** Lines 378-386: the nested [dfs], with the two variables it shares with
    the enclosing call, [max_depth] and [visited], passed and returned.
    The recursion is bounded by [fuel]; [None] means the bound was
    reached.  The interpreter's own recursion limit is not modelled. *)
Fixpoint dfs (fuel : nat) (adjacency : gmap string (list string))
    (node_id : string) (depth : nat) (st : nat * gset string)
    : option (nat * gset string) :=
  match fuel with
  | O => None
  | S fuel' =>
      let max_depth := if decide (st.1 < depth) then depth else st.1 in
      let visited := {[node_id]} ∪ st.2 in
      foldl (λ (acc : option (nat * gset string)) child_id,
               st' ← acc;
               if decide (child_id ∈ st'.2) then Some st'
               else dfs fuel' adjacency child_id (S depth) st')
            (Some (max_depth, visited))
            (default [] (adjacency !! node_id))
  end.

(** Lines 389-391. *)
Definition dfs_from_each (fuel : nat) (adjacency : gmap string (list string))
    (nodes : list ATLASNode.t) : option (nat * gset string) :=
  foldl (λ (acc : option (nat * gset string)) node,
           st ← acc;
           if decide (ATLASNode.id node ∈ st.2) then Some st
           else dfs fuel adjacency (ATLASNode.id node) 0 st)
        (Some (0, ∅)) nodes.

Definition _calculate_hierarchical_depth_fuel (fuel : nat)
    (nodes : list ATLASNode.t) (relationships : list ATLASRelationship.t)
    : option (result nat) :=
  match build_adjacency nodes relationships with
  | Raise e => Some (Raise e)
  | Return adjacency =>
      st ← dfs_from_each fuel adjacency nodes; Some (Return st.1)
  end.

(** A nested call always marks a node not yet visited, and such nodes
    are node ids or relationship ends, so this bound is never reached
    (lemma [hierarchical_depth_total] below). *)
Definition _calculate_hierarchical_depth (nodes : list ATLASNode.t)
    (relationships : list ATLASRelationship.t) : option (result nat) :=
  _calculate_hierarchical_depth_fuel
    (S (length nodes + length relationships)) nodes relationships.

(** Lines 258-260. *)
Definition domain_nodes (self : t) (domain : string) : list ATLASNode.t :=
  ATLASClient.find_nodes (client self) None
    (Some {[ "domain" := PyStr domain ]}).

(** Lines 263-275: outgoing then incoming relationships of each node. *)
Definition domain_relationships (self : t) (nodes : list ATLASNode.t)
    : list ATLASRelationship.t :=
  foldl (λ relationships node,
           let outgoing :=
             ATLASClient.find_relationships (client self)
               (Some (ATLASNode.id node)) None in
           let incoming :=
             ATLASClient.find_relationships (client self)
               None (Some (ATLASNode.id node)) in
           (relationships ++ outgoing) ++ incoming)
        [] nodes.

(** Lines 253-291: the body of [analyze_taxonomy].  Both decorators pass
    the body's result through: the extractor has no [fabric_registry]
    attribute and no [validate] attribute, and the envelope is the
    default one. *)
Definition analyze_taxonomy (self : t) (domain : string)
    : option (result (gmap string analysis_value)) :=
  match ATLASClient.graph_adapter (client self) with
  | None => Some (Return ∅)
  | Some _ =>
      let nodes := domain_nodes self domain in
      let relationships := domain_relationships self nodes in
      let unique := unique_relationships relationships in
      depth ← _calculate_hierarchical_depth nodes unique;
      Some (
        depth ← depth;
        Return (list_to_map
          [ ("domain", AStr domain);
            ("node_count", AInt (length nodes));
            ("relationship_count", AInt (length unique));
            ("node_label_distribution", ACounts (_count_node_labels nodes));
            ("relationship_type_distribution",
               ACounts (_count_relationship_types unique));
            ("connectivity", ARatio (_calculate_connectivity nodes unique));
            ("hierarchical_depth", AInt depth) ]))
  end.

End TaxonomyExtractor.

(** * Specification vocabulary *)

(** Everything of a node except its property cache. *)
Definition node_data (n : ATLASNode.t) :=
  (ATLASNode.id n, ATLASNode.labels n, ATLASNode.properties n,
   ATLASNode.created_at n, ATLASNode.updated_at n,
   ATLASNode.validation_status n).

(** The required set computed from the labels, and the missing set
    computed from labels and property keys. *)
Definition required_of (n : ATLASNode.t) : gset string :=
  ATLASNode.required_properties_func n.
Definition missing_of (n : ATLASNode.t) : gset string :=
  required_of n ∖ dom (ATLASNode.properties n).

(** A cache whose two slots, when filled, hold [req] and [miss]. *)
Definition cache_agrees (req miss : gset string)
    (c : gmap string (CachedProperty.entry (gset string))) : Prop :=
  (∀ e, c !! "required_properties" = Some e → CachedProperty.value e = req)
  ∧ (∀ e, c !! "missing_properties" = Some e → CachedProperty.value e = miss).

(** A node's cache agrees with its labels and properties. *)
Definition cache_consistent (n : ATLASNode.t) : Prop :=
  ∀ c, ATLASNode._cached_properties n = Some c →
    cache_agrees (required_of n) (missing_of n) c.

(** The per-label extension of the base required properties, spelled
    out label by label. *)
Definition label_extension (l : NodeLabelType.t) : gset string :=
  match l with
  | NodeLabelType.ENERGY_TERM => {[ "definition"; "fuel_group" ]}
  | NodeLabelType.RENEWABLE_SOURCE => {[ "capacity"; "technology_type" ]}
  | NodeLabelType.FOSSIL_FUEL => {[ "carbon_intensity"; "extraction_method" ]}
  | NodeLabelType.TECHNICAL_CONCEPT => {[ "description"; "maturity_level" ]}
  | NodeLabelType.REGULATORY_FRAMEWORK =>
      {[ "jurisdiction"; "effective_date"; "regulatory_body" ]}
  | NodeLabelType.TAXONOMY_NODE => {[ "definition" ]}
  | NodeLabelType.CONCEPT => {[ "definition" ]}
  | NodeLabelType.CATEGORY => {[ "description" ]}
  | NodeLabelType.RELATIONSHIP_NODE => {[ "relationship_type" ]}
  end.

(** The life of a node as the data model describes it: built by
    [create], then read through its cached properties, validated,
    updated, and moved between validation statuses. *)
Inductive lifecycle : ATLASNode.t → Prop :=
  | lifecycle_create node_id now ls p n :
      ATLASNode.create node_id now ls p = Return n → lifecycle n
  | lifecycle_required now n :
      lifecycle n → lifecycle (ATLASNode.required_properties now n).2
  | lifecycle_missing now n :
      lifecycle n → lifecycle (ATLASNode.missing_properties now n).2
  | lifecycle_is_valid now n :
      lifecycle n → lifecycle (ATLASNode.is_valid now n).2
  | lifecycle_validate now n :
      lifecycle n → lifecycle (ATLASNode.validate now n).2
  | lifecycle_update now p n :
      lifecycle n → lifecycle (ATLASNode.update now p n).2
  | lifecycle_status s n :
      lifecycle n → lifecycle (ATLASNode.with_validation_status s n).

(** The scenario node: label [ENERGY_TERM], properties [name],
    [created_at], [updated_at] only. *)
Definition solar_properties : gmap string pyvalue :=
  list_to_map
    [ ("name", PyStr "Solar"); ("created_at", PyInt 0);
      ("updated_at", PyInt 0) ].

Definition solar : ATLASNode.t :=
  ATLASNode.Node "solar" [NodeLabelType.ENERGY_TERM] solar_properties
    0 0 ValidationStatusType.UNVALIDATED None.

Definition solar_completion : gmap string pyvalue :=
  list_to_map
    [ ("definition", PyStr "Energy from sunlight");
      ("fuel_group", PyStr "renewable") ].

(** The scenario node with both missing properties put into its
    property map, before any validation. *)
Definition complete_solar : ATLASNode.t :=
  ATLASNode.properties_update solar_completion solar.

(** A graph adapter that holds one node and no relationships. *)
Definition single_node_adapter (n : ATLASNode.t) : GraphAdapter :=
  {| get_node := λ _, Some n;
     find_nodes := λ _ _ _, [n];
     find_relationships := λ _ _ _ _ _, [] |}.

(** A wrapped function over a call counter: it raises on its first two
    invocations and returns ["ok"] from the third on. *)
Definition flaky (_ : ()) (calls : nat) : result string * nat :=
  if decide (calls < 2) then (Raise (RuntimeError "transient"), S calls)
  else (Return "ok", S calls).

(** [flaky] under the envelope with [n] retries, called as a method of an
    object without [validate] and without operation cache. *)
Definition flaky_wrapped (n : Z) : () → nat → result string * nat * list AtlasOperation.event :=
  AtlasOperation.wrapper
    (AtlasOperation.Config "demo" false n 1 false) "flaky" flaky
    (λ _, Some (AtlasOperation.InstanceView None))
    (λ _, None) (λ _ w, w) (λ _, "()") (λ _, "{}").

(** A module-level function decorated with [cache_result=True] and called
    with keyword arguments only: the state counts its invocations. *)
Definition counting (_ : ()) (calls : nat) : result nat * nat :=
  (Return 42, S calls).

Definition counting_cached : () → nat → result nat * nat * list AtlasOperation.event :=
  AtlasOperation.wrapper
    (AtlasOperation.Config "demo" false 0 1 true) "counting" counting
    (λ _, None) (λ _, None) (λ _ w, w) (λ _, "()") (λ _, "{'x': 1}").

(** A method decorated with [cache_result=True] on an object that holds
    its operation cache and a count of the invocations of the method
    body.  The argument is a string and the result its length. *)
Definition measure (arg : string) (self : option (gmap string nat) * nat)
    : result nat * (option (gmap string nat) * nat) :=
  (Return (String.length arg), (self.1, S self.2)).

Definition measure_cached
    : string → option (gmap string nat) * nat
      → result nat * (option (gmap string nat) * nat)
        * list AtlasOperation.event :=
  AtlasOperation.wrapper
    (AtlasOperation.Config "demo" false 0 1 true) "measure" measure
    (λ _, Some (AtlasOperation.InstanceView None))
    fst (λ c self, (Some c, self.2))
    (λ arg, "(<obj>, '" +:+ arg +:+ "')") (λ _, "{}").

(** The ends of the hierarchical relationships that start at [k], in
    the order of the relationship list. *)
Definition hierarchical_children (k : string)
    (relationships : list ATLASRelationship.t) : list string :=
  ATLASRelationship.end_node_id
    <$> filter (λ rel, ATLASRelationship.is_hierarchical rel = true
                       ∧ ATLASRelationship.start_node_id rel = k)
               relationships.

(** Every hierarchical relationship starts at one of the nodes. *)
Definition starts_known (nodes : list ATLASNode.t)
    (relationships : list ATLASRelationship.t) : Prop :=
  ∀ rel, rel ∈ relationships →
    ATLASRelationship.is_hierarchical rel = true →
    ATLASRelationship.start_node_id rel ∈ ATLASNode.id <$> nodes.

Definition edge (rel : ATLASRelationship.t) : string * string :=
  (ATLASRelationship.start_node_id rel, ATLASRelationship.end_node_id rel).

(** The hierarchical relationships of [relationships] are exactly the
    links of the chain [ids]: one from each id to the next. *)
Definition chain_edges (ids : list string)
    (relationships : list ATLASRelationship.t) : Prop :=
  edge <$> filter (λ rel, ATLASRelationship.is_hierarchical rel = true)
                  relationships
  ≡ₚ zip ids (tail ids).

(** The list holding the id after [k] in [ids], empty when there is
    none. *)
Fixpoint successors (k : string) (ids : list string) : list string :=
  match ids with
  | x :: (y :: _) as rest => if decide (x = k) then [y] else successors k rest
  | _ => []
  end.

(** In [adjacency] each id of [ids] has the next one as its only child,
    and the last one has none. *)
Fixpoint chain_in (adjacency : gmap string (list string))
    (ids : list string) : Prop :=
  match ids with
  | [] => True
  | x :: rest =>
      default [] (adjacency !! x)
        = match rest with [] => [] | y :: _ => [y] end
      ∧ chain_in adjacency rest
  end.

(** Example graphs.  [concept i] is a bare node with id [i];
    [link t i a b] is the relationship [i] of type [t] from [a] to [b]. *)
Definition concept (i : string) : ATLASNode.t :=
  ATLASNode.Node i [NodeLabelType.CONCEPT] ∅ 0 0
    ValidationStatusType.UNVALIDATED None.

Definition link (t : RelationshipType.t) (i a b : string)
    : ATLASRelationship.t :=
  ATLASRelationship.Relationship i t a b.

(** An adapter whose domain holds the single node [B]; the only
    relationship is the hierarchical [A -> B], found as an incoming
    relationship of [B]. *)
Definition incoming_edge_adapter : GraphAdapter :=
  {| get_node := λ _, None;
     find_nodes := λ _ _ _, [concept "B"];
     find_relationships := λ _ start_id end_id _ _,
       match end_id with
       | Some "B" => [link RelationshipType.IS_A "r1" "A" "B"]
       | _ => []
       end |}.

(** A cached method like [measure] that rejects the empty string, with
    one retry. *)
Definition measure_nonempty (arg : string)
    (self : option (gmap string nat) * nat)
    : result nat * (option (gmap string nat) * nat) :=
  if decide (arg = "") then (Raise (ValueError "empty"), (self.1, S self.2))
  else measure arg self.

Definition measure_nonempty_cached
    : string → option (gmap string nat) * nat
      → result nat * (option (gmap string nat) * nat)
        * list AtlasOperation.event :=
  AtlasOperation.wrapper
    (AtlasOperation.Config "demo" false 1 1 true) "measure" measure_nonempty
    (λ _, Some (AtlasOperation.InstanceView None))
    fst (λ c self, (Some c, self.2))
    (λ arg, "(<obj>, '" +:+ arg +:+ "')") (λ _, "{}").

(** The sum of the counters of a histogram. *)
Definition total (counts : gmap string nat) : nat :=
  map_fold (λ _ c acc, c + acc) 0 counts.

(** An object with the three descriptor dicts of a small demonstration
    class and the count of the calls of its one computed property. *)
Record gadget : Type := Gadget {
  gadget_lazy : option (gmap string nat);
  gadget_validated : option (gmap string nat);
  gadget_calls : nat;
}.

#[global] Instance gadget_lazy_host : LazyProperty.Host gadget nat := {|
  LazyProperty.lazy_properties := gadget_lazy;
  LazyProperty.set_lazy_properties := λ m g,
    Gadget (Some m) (gadget_validated g) (gadget_calls g);
|}.

#[global] Instance gadget_validated_host
    : ValidatedProperty.Host gadget nat := {|
  ValidatedProperty.validated_properties := gadget_validated;
  ValidatedProperty.set_validated_properties := λ m g,
    Gadget (gadget_lazy g) (Some m) (gadget_calls g);
|}.

(** A computed property that counts its evaluations and returns the
    count. *)
Definition count_calls (g : gadget) : nat * gadget :=
  (S (gadget_calls g),
   Gadget (gadget_lazy g) (gadget_validated g) (S (gadget_calls g))).

(** * Properties *)

(** An equation between closed computations is settled by evaluating its
    left-hand side. *)
Ltac by_evaluation :=
  match goal with |- _ = ?y => vm_cast_no_check (@eq_refl _ y) end.

(** ** Relationship semantics *)

Lemma RelationshipType_members_complete (r : RelationshipType.t) :
  RelationshipType.getattr (RelationshipType.value r) = Return r
  ∧ RelationshipType.of_value (RelationshipType.value r) = Return r.
Proof. by destruct r. Qed.

Lemma RelationshipType_member_count :
  length RelationshipType.members = 22.
Proof. reflexivity. Qed.

(** C1: [inverse_relationship] builds its lookup table on every call, and
    the table names members that the enum does not define; the first of
    them, [PRODUCED_BY], makes the call raise [AttributeError] for each of
    the 22 variants, so no variant obtains an inverse or [None]. *)
Theorem inverse_relationship_raises (self : RelationshipType.t) :
  RelationshipType.inverse_relationship self
  = Raise (AttributeError "PRODUCED_BY").
Proof. by destruct self. Qed.

(** ** The default envelope *)

Section default_envelope.
Context {A W V : Type}.
Variables (operation_type func_name : string) (delay : Q).
Variable func : A → W → result V * W.
Variable instance : A → option (AtlasOperation.instance_view W).
Variable operation_cache : W → option (gmap string V).
Variable set_operation_cache : gmap string V → W → W.
Variables str_args str_kwargs : A → string.

(** Without gate, retries and cache the wrapper invokes the function once
    and returns or raises what it does. *)
Lemma wrapper_default (a : A) (w : W) :
  AtlasOperation.wrapper
    (AtlasOperation.Config operation_type false 0 delay false)
    func_name func instance operation_cache set_operation_cache
    str_args str_kwargs a w
  = (func a w, [AtlasOperation.Invoke]).
Proof.
  unfold AtlasOperation.wrapper, AtlasOperation.cache_lookup,
    AtlasOperation.validation_gate; simpl.
  unfold AtlasOperation.cache_store; simpl.
  by destruct (func a w) as [[v|e] w'].
Qed.

End default_envelope.

(** ** Nodes: cached properties *)

Lemma required_of_data n n' :
  node_data n' = node_data n → required_of n' = required_of n.
Proof.
  unfold node_data, required_of, ATLASNode.required_properties_func.
  intros H.
  by assert (ATLASNode.labels n' = ATLASNode.labels n) as -> by congruence.
Qed.

Lemma missing_of_data n n' :
  node_data n' = node_data n → missing_of n' = missing_of n.
Proof.
  intros H. unfold missing_of. rewrite (required_of_data _ _ H).
  unfold node_data in H.
  by assert (ATLASNode.properties n' = ATLASNode.properties n) as ->
    by congruence.
Qed.

Lemma required_properties_data now n :
  node_data (ATLASNode.required_properties now n).2 = node_data n.
Proof.
  unfold ATLASNode.required_properties, ATLASNode.cached_property,
    CachedProperty.get.
  destruct n as [i l p ca ua st [c|]]; simpl.
  - by destruct (c !! "required_properties").
  - by rewrite lookup_empty.
Qed.

Lemma node_data_with_cached_properties c n :
  node_data (ATLASNode.with_cached_properties c n) = node_data n.
Proof. reflexivity. Qed.

Lemma cache_agrees_empty req miss : cache_agrees req miss ∅.
Proof. split; intros e; by rewrite lookup_empty. Qed.

Lemma cache_agrees_insert_required req miss c now :
  cache_agrees req miss c →
  cache_agrees req miss
    (<["required_properties" := CachedProperty.Entry req now]> c).
Proof.
  intros [Hr Hm]. split; intros e.
  - rewrite lookup_insert_eq. by intros [= <-].
  - rewrite lookup_insert_ne; [apply Hm | done].
Qed.

Lemma cache_agrees_insert_missing req miss c now :
  cache_agrees req miss c →
  cache_agrees req miss
    (<["missing_properties" := CachedProperty.Entry miss now]> c).
Proof.
  intros [Hr Hm]. split; intros e.
  - rewrite lookup_insert_ne; [apply Hr | done].
  - rewrite lookup_insert_eq. by intros [= <-].
Qed.

Lemma cache_consistent_default n :
  cache_consistent n →
  cache_agrees (required_of n) (missing_of n)
    (default ∅ (ATLASNode._cached_properties n)).
Proof.
  intros Hc. destruct (ATLASNode._cached_properties n) as [c|] eqn:E; simpl.
  - by apply Hc.
  - apply cache_agrees_empty.
Qed.

Lemma required_properties_consistent now n :
  cache_consistent n →
  (ATLASNode.required_properties now n).1 = required_of n
  ∧ cache_consistent (ATLASNode.required_properties now n).2.
Proof.
  unfold ATLASNode.required_properties, ATLASNode.cached_property,
    CachedProperty.get.
  destruct n as [i l p ca ua st [c|]]; simpl; intros Hc.
  - destruct (c !! "required_properties") as [e|] eqn:He; simpl.
    + split; [|done]. by apply (Hc c).
    + split; [done|]. intros c' [= <-].
      apply (cache_agrees_insert_required _ _ c now), (Hc c eq_refl).
  - rewrite lookup_empty. simpl. split; [done|].
    intros c' [= <-].
    apply (cache_agrees_insert_required _ _ ∅ now), cache_agrees_empty.
Qed.

Lemma missing_properties_data now n :
  node_data (ATLASNode.missing_properties now n).2 = node_data n.
Proof.
  unfold ATLASNode.missing_properties, ATLASNode.cached_property,
    CachedProperty.get, ATLASNode.missing_properties_func.
  destruct n as [i l p ca ua st [c|]]; simpl.
  - destruct (c !! "missing_properties") as [e|]; [done|].
    destruct (ATLASNode.required_properties now _) as [req s] eqn:E.
    cbn [snd]. rewrite node_data_with_cached_properties.
    change s with (req, s).2. rewrite <- E.
    by rewrite required_properties_data.
  - rewrite lookup_empty.
    destruct (ATLASNode.required_properties now _) as [req s] eqn:E.
    cbn [snd]. rewrite node_data_with_cached_properties.
    change s with (req, s).2. rewrite <- E.
    by rewrite required_properties_data.
Qed.

Lemma missing_compute_consistent now n req s :
  cache_consistent n →
  ATLASNode.required_properties now n = (req, s) →
  req ∖ dom (ATLASNode.properties s) = missing_of n
  ∧ cache_consistent
      (ATLASNode.with_cached_properties
         (<["missing_properties" :=
              CachedProperty.Entry (req ∖ dom (ATLASNode.properties s)) now]>
            (default ∅ (ATLASNode._cached_properties s))) s).
Proof.
  intros Hc E.
  destruct (required_properties_consistent now n Hc) as [Hreq Hs].
  pose proof (required_properties_data now n) as Hd.
  rewrite E in Hreq, Hs, Hd. cbn [fst snd] in *.
  assert (req ∖ dom (ATLASNode.properties s) = missing_of s) as Hv.
  { unfold missing_of. by rewrite (required_of_data _ _ Hd), Hreq. }
  split; [by rewrite Hv, (missing_of_data _ _ Hd)|].
  intros c' [= <-].
  rewrite (required_of_data s), (missing_of_data s), Hv by done.
  by apply cache_agrees_insert_missing, cache_consistent_default.
Qed.

Lemma missing_properties_consistent now n :
  cache_consistent n →
  (ATLASNode.missing_properties now n).1 = missing_of n
  ∧ cache_consistent (ATLASNode.missing_properties now n).2.
Proof.
  unfold ATLASNode.missing_properties, ATLASNode.cached_property,
    CachedProperty.get, ATLASNode.missing_properties_func.
  destruct n as [i l p ca ua st [c|]]; simpl; intros Hc.
  - destruct (c !! "missing_properties") as [e|] eqn:He; simpl.
    + split; [|done]. by apply (Hc c).
    + destruct (ATLASNode.required_properties now _) as [req s] eqn:E.
      apply (missing_compute_consistent _ _ _ _ Hc E).
  - rewrite lookup_empty.
    destruct (ATLASNode.required_properties now _) as [req s] eqn:E.
    refine (missing_compute_consistent _ _ _ _ _ E).
    intros c' [= <-]. apply cache_agrees_empty.
Qed.

(** After a read of [missing_properties] its slot is filled with the
    value that was returned. *)
Lemma missing_properties_cached now n :
  ∃ c e,
    ATLASNode._cached_properties (ATLASNode.missing_properties now n).2
      = Some c
    ∧ c !! "missing_properties" = Some e
    ∧ CachedProperty.value e = (ATLASNode.missing_properties now n).1.
Proof.
  unfold ATLASNode.missing_properties, ATLASNode.cached_property,
    CachedProperty.get, ATLASNode.missing_properties_func.
  destruct n as [i l p ca ua st [c|]]; simpl.
  - destruct (c !! "missing_properties") as [e|] eqn:He; simpl.
    + by exists c, e.
    + destruct (ATLASNode.required_properties now _) as [req s].
      eexists _, _. split; [reflexivity|]. by rewrite lookup_insert_eq.
  - rewrite lookup_empty.
    destruct (ATLASNode.required_properties now _) as [req s].
    eexists _, _. split; [reflexivity|]. by rewrite lookup_insert_eq.
Qed.

(** With its slot filled, [missing_properties] returns the stored value
    at any later time and leaves the node as it is. *)
Lemma missing_properties_hit now n c e :
  ATLASNode._cached_properties n = Some c →
  c !! "missing_properties" = Some e →
  ATLASNode.missing_properties now n = (CachedProperty.value e, n).
Proof.
  unfold ATLASNode.missing_properties, ATLASNode.cached_property,
    CachedProperty.get.
  destruct n as [i l p ca ua st c0]; simpl. intros -> He. simpl.
  by rewrite He.
Qed.

(** ** Nodes: [validate] and [update] *)

Lemma validate_unfold now n :
  ATLASNode.validate now n = ATLASNode.validate_func now n.
Proof.
  unfold ATLASNode.validate. rewrite wrapper_default.
  unfold AtlasOperation.outcome. cbn [fst snd].
  by destruct (ATLASNode.validate_func now n).
Qed.

Lemma read_required_loop_data now (items : list (string * pyvalue)) n :
  node_data
    (foldl (λ self (_ : string * pyvalue),
              (ATLASNode.required_properties now self).2) n items)
  = node_data n.
Proof.
  revert n. induction items as [|it items IH]; intros n; [done|].
  cbn [foldl]. by rewrite IH, required_properties_data.
Qed.

Lemma read_required_loop_consistent now (items : list (string * pyvalue)) n :
  cache_consistent n →
  cache_consistent
    (foldl (λ self (_ : string * pyvalue),
              (ATLASNode.required_properties now self).2) n items).
Proof.
  revert n. induction items as [|it items IH]; intros n Hc; [done|].
  cbn [foldl]. by apply IH, required_properties_consistent.
Qed.

(** [validate] never raises and touches only the cache. *)
Lemma validate_data now n :
  (∃ b, (ATLASNode.validate now n).1 = Return b)
  ∧ node_data (ATLASNode.validate now n).2 = node_data n.
Proof.
  rewrite validate_unfold. unfold ATLASNode.validate_func.
  pose proof (missing_properties_data now n) as Hd.
  destruct (ATLASNode.missing_properties now n) as [missing s].
  cbn [snd] in Hd. case_bool_decide; cbn [fst snd].
  - split; [by eexists|done].
  - split; [by eexists|]. by rewrite read_required_loop_data.
Qed.

Lemma validate_consistent now n :
  cache_consistent n →
  (ATLASNode.validate now n).1 = Return (bool_decide (missing_of n = ∅))
  ∧ cache_consistent (ATLASNode.validate now n).2.
Proof.
  intros Hc. rewrite validate_unfold. unfold ATLASNode.validate_func.
  destruct (missing_properties_consistent now n Hc) as [Hm Hs].
  destruct (ATLASNode.missing_properties now n) as [missing s].
  cbn [fst snd] in Hm, Hs. subst missing.
  case_bool_decide as Hne; cbn [fst snd].
  - split; [|done]. by rewrite bool_decide_eq_false_2.
  - split; [|by apply read_required_loop_consistent].
    rewrite bool_decide_eq_true_2; [done|].
    by destruct (decide (missing_of n = ∅)).
Qed.

Lemma update_unfold now p n :
  ATLASNode.update now p n =
    match ATLASNode.validate now n with
    | (Return true, n') => ATLASNode.update_func now p n'
    | (Return false, n') =>
        (Raise (ValueError "Validation failed for update operation"), n')
    | (Raise e, n') => (Raise e, n')
    end.
Proof.
  unfold ATLASNode.update, AtlasOperation.wrapper,
    AtlasOperation.cache_lookup, AtlasOperation.validation_gate,
    AtlasOperation.outcome.
  cbn [AtlasOperation.cache_result AtlasOperation.requires_validation
       AtlasOperation.validate_attr ATLASNode.as_instance
       AtlasOperation.retry_attempts AtlasOperation.operation_type].
  by destruct (ATLASNode.validate now n) as [[[|]|e] n'].
Qed.

Lemma foldl_union_list {B} (f : B → gset string) (l : list B) acc :
  foldl (λ required x, required ∪ f x) acc l = acc ∪ ⋃ (f <$> l).
Proof.
  revert acc. induction l as [|x l IH]; intros acc; cbn.
  - by rewrite (right_id_L ∅ (∪)).
  - by rewrite IH, (assoc_L (∪)).
Qed.

Lemma required_of_union n :
  required_of n
  = ⋃ (NodeLabelType.required_properties <$> ATLASNode.labels n).
Proof.
  unfold required_of, ATLASNode.required_properties_func.
  by rewrite foldl_union_list, (left_id_L ∅ (∪)).
Qed.

Lemma label_required_properties (l : NodeLabelType.t) :
  NodeLabelType.required_properties l
  = {[ "name"; "created_at"; "updated_at" ]} ∪ label_extension l.
Proof. destruct l; apply (bool_decide_unpack _); by vm_compute. Qed.

Lemma update_keeps_none_missing (p : gmap string pyvalue) n :
  missing_of n = ∅ →
  required_of n ∖ dom (p ∪ ATLASNode.properties n) = ∅.
Proof.
  unfold missing_of. rewrite dom_union_L. intros Hm.
  apply elem_of_equiv_empty_L. intros x [Hx Hn]%elem_of_difference.
  apply (not_elem_of_empty (C:=gset string) x). rewrite <- Hm.
  apply elem_of_difference. split; [done|].
  intros Hd. apply Hn, elem_of_union. by right.
Qed.

(** Along its life a node's cache never disagrees with its labels and
    properties: an update is only let through when nothing is missing,
    and it only adds keys. *)
Lemma lifecycle_consistent n : lifecycle n → cache_consistent n.
Proof.
  induction 1 as [node_id now ls p n Hcreate | now n _ IH | now n _ IH
                 | now n _ IH | now n _ IH | now p n _ IH | s n _ IH].
  - unfold ATLASNode.create in Hcreate.
    destruct ls; [done|]. injection Hcreate as <-. by intros c.
  - by apply required_properties_consistent.
  - by apply missing_properties_consistent.
  - unfold ATLASNode.is_valid.
    destruct (missing_properties_consistent now n IH) as [_ Hs].
    by destruct (ATLASNode.missing_properties now n).
  - by apply validate_consistent.
  - rewrite update_unfold.
    destruct (validate_consistent now n IH) as [Hr Hs].
    destruct (validate_data now n) as [_ Hd].
    destruct (ATLASNode.validate now n) as [r n']. cbn [fst snd] in *.
    subst r. case_bool_decide as Hm; [|done].
    intros c Hc. cbn in Hc.
    rewrite <- (missing_of_data _ _ Hd) in Hm.
    destruct (Hs c Hc) as [Hreq Hmiss]. split; intros e He.
    + by apply Hreq.
    + rewrite (Hmiss e He), Hm. symmetry.
      by apply (update_keeps_none_missing p n').
  - intros c Hc. by apply (IH c).
Qed.



(** C2: [update] is guarded by [validate].  When [validate] returns
    [True] the property map becomes the merge of [p] into the old map
    ([p] wins), [updated_at] becomes the current time, and [id], [labels],
    [created_at] and the validation status stay as they were.  When
    [validate] returns [False] the call raises the validation error and
    none of the node's fields changes. *)
Theorem update_guarded (now : Z) (p : gmap string pyvalue)
    (n : ATLASNode.t) :
  ((ATLASNode.validate now n).1 = Return true →
     ∃ n', ATLASNode.update now p n = (Return n', n')
       ∧ ATLASNode.properties n' = p ∪ ATLASNode.properties n
       ∧ ATLASNode.updated_at n' = now
       ∧ ATLASNode.id n' = ATLASNode.id n
       ∧ ATLASNode.labels n' = ATLASNode.labels n
       ∧ ATLASNode.created_at n' = ATLASNode.created_at n
       ∧ ATLASNode.validation_status n' = ATLASNode.validation_status n)
  ∧ ((ATLASNode.validate now n).1 = Return false →
     (ATLASNode.update now p n).1
       = Raise (ValueError "Validation failed for update operation")
     ∧ node_data (ATLASNode.update now p n).2 = node_data n).
Proof.
  rewrite update_unfold. destruct (validate_data now n) as [_ Hd].
  destruct (ATLASNode.validate now n) as [r n1]. cbn [fst snd] in *.
  unfold node_data in Hd. split; intros ->.
  - eexists. split; [reflexivity|]. cbn.
    repeat split; congruence.
  - done.
Qed.

Lemma update_guarded_witness :
  (ATLASNode.validate 5 (ATLASNode.properties_update solar_completion solar)).1
    = Return true
  ∧ ∃ n',
      ATLASNode.update 5 {[ "source" := PyStr "EIA" ]}
        (ATLASNode.properties_update solar_completion solar)
      = (Return n', n')
      ∧ ATLASNode.properties n'
        = {[ "source" := PyStr "EIA" ]} ∪ (solar_completion ∪ solar_properties)
      ∧ ATLASNode.updated_at n' = 5%Z.
Proof.
  assert ((ATLASNode.validate 5
             (ATLASNode.properties_update solar_completion solar)).1
          = Return true) as Hv by by_evaluation.
  split; [exact Hv|].
  destruct (update_guarded 5 {[ "source" := PyStr "EIA" ]}
              (ATLASNode.properties_update solar_completion solar))
    as [Hok _].
  destruct (Hok Hv) as (n' & Hu & Hp & Ht & _).
  exists n'. by repeat split.
Defined.

(** C2, as stated, fails on the scenario node: [update] with the two
    missing properties raises and the property map stays without them. *)
Lemma update_scenario_rejected :
  (ATLASNode.update 5 solar_completion solar).1
    = Raise (ValueError "Validation failed for update operation")
  ∧ ATLASNode.properties (ATLASNode.update 5 solar_completion solar).2
    = solar_properties
  ∧ ATLASNode.properties (ATLASNode.update 5 solar_completion solar).2
    ≠ solar_completion ∪ solar_properties
  ∧ (ATLASNode.validate 6 (ATLASNode.update 5 solar_completion solar).2).1
    = Return false.
Proof.
  split; [by_evaluation|]. split; [by_evaluation|]. split; [|by_evaluation].
  intros H.
  assert (ATLASNode.properties (ATLASNode.update 5 solar_completion solar).2
            !! "definition"
          = (solar_completion ∪ solar_properties) !! "definition") as Hl
    by (by rewrite H).
  vm_compute in Hl. discriminate Hl.
Qed.

(** ** Nodes: what the cache does not see *)

Lemma required_properties_cached now n :
  ∃ c e,
    ATLASNode._cached_properties (ATLASNode.required_properties now n).2
      = Some c
    ∧ c !! "required_properties" = Some e
    ∧ CachedProperty.value e = (ATLASNode.required_properties now n).1.
Proof.
  unfold ATLASNode.required_properties, ATLASNode.cached_property,
    CachedProperty.get.
  destruct n as [i l p ca ua st [c|]]; simpl.
  - destruct (c !! "required_properties") as [e|] eqn:He; simpl.
    + by exists c, e.
    + eexists _, _. split; [reflexivity|]. by rewrite lookup_insert_eq.
  - rewrite lookup_empty.
    eexists _, _. split; [reflexivity|]. by rewrite lookup_insert_eq.
Qed.

Lemma required_properties_hit now n c e :
  ATLASNode._cached_properties n = Some c →
  c !! "required_properties" = Some e →
  ATLASNode.required_properties now n = (CachedProperty.value e, n).
Proof.
  unfold ATLASNode.required_properties, ATLASNode.cached_property,
    CachedProperty.get.
  destruct n as [i l p ca ua st c0]; simpl. intros -> He. simpl.
  by rewrite He.
Qed.

(** A filled, non-empty [missing_properties] slot decides [validate]. *)
Lemma validate_stale now n c e x :
  ATLASNode._cached_properties n = Some c →
  c !! "missing_properties" = Some e →
  x ∈ CachedProperty.value e →
  ATLASNode.validate now n = (Return false, n).
Proof.
  intros Hc He Hx. rewrite validate_unfold. unfold ATLASNode.validate_func.
  rewrite (missing_properties_hit now n c e Hc He).
  rewrite bool_decide_eq_true_2; [done|].
  intros Hempty. rewrite Hempty in Hx. by apply not_elem_of_empty in Hx.
Qed.


(** ** Validation statuses and the client *)

Lemma validate_node_unfold now self node_id persisted :
  ATLASClient.validate_node now self node_id persisted
  = ATLASClient.validate_node_func now self node_id persisted.
Proof.
  unfold ATLASClient.validate_node. rewrite wrapper_default.
  unfold AtlasOperation.outcome. cbn [fst snd].
  by destruct (ATLASClient.validate_node_func now self node_id persisted).
Qed.

(** C3: [allowed_transitions] is a lookup table ([PENDING] may follow
    [UNVALIDATED], [EXPERT_VALIDATED] may not), and the one operation that
    commits a status, [validate_node], does not consult it: for a stored
    node it commits [VALIDATED] when [validate] returns [True] and
    [NEEDS_REVIEW] otherwise, whatever the current status.  The committed
    status is in the table's row of the current status exactly when the
    node validates and is [NEEDS_REVIEW] or [PENDING], or does not
    validate and is not [NEEDS_REVIEW]. *)
Theorem validate_node_commits (now : Z) (adapter : GraphAdapter)
    (node_id : string) (node : ATLASNode.t)
    (persisted : list ATLASNode.t) :
  get_node adapter node_id = Some node →
  (ValidationStatusType.PENDING
     ∈ ValidationStatusType.allowed_transitions ValidationStatusType.UNVALIDATED
   ∧ ValidationStatusType.EXPERT_VALIDATED
     ∉ ValidationStatusType.allowed_transitions ValidationStatusType.UNVALIDATED)
  ∧ ∃ is_valid node',
      ATLASNode.validate now node = (Return is_valid, node')
      ∧ (let target :=
           if is_valid then ValidationStatusType.VALIDATED
           else ValidationStatusType.NEEDS_REVIEW in
         ATLASClient.validate_node now (ATLASClient.Client (Some adapter))
           node_id persisted
         = (Return is_valid,
            persisted ++ [ATLASNode.with_validation_status target node'])
         ∧ (target ∈ ValidationStatusType.allowed_transitions
                       (ATLASNode.validation_status node)
            ↔ if is_valid
              then ATLASNode.validation_status node
                     ∈ [ValidationStatusType.NEEDS_REVIEW;
                        ValidationStatusType.PENDING]
              else ATLASNode.validation_status node
                     ≠ ValidationStatusType.NEEDS_REVIEW)).
Proof.
  intros Hget. split.
  { split; apply (bool_decide_unpack _); by vm_compute. }
  destruct (validate_data now node) as [[b Hb] _].
  destruct (ATLASNode.validate now node) as [r node'] eqn:Hv.
  cbn [fst] in Hb. subst r. exists b, node'. split; [done|].
  split.
  - rewrite validate_node_unfold. unfold ATLASClient.validate_node_func.
    cbn [ATLASClient.graph_adapter]. rewrite Hget, Hv. by destruct b.
  - destruct b, (ATLASNode.validation_status node);
      apply (bool_decide_unpack _); by vm_compute.
Qed.

Lemma validate_node_commits_witness :
  ∃ adapter : GraphAdapter,
    get_node adapter "solar" = Some solar
    ∧ ATLASClient.validate_node 1 (ATLASClient.Client (Some adapter))
        "solar" []
      = (Return false,
         [ATLASNode.with_validation_status ValidationStatusType.NEEDS_REVIEW
            (ATLASNode.validate 1 solar).2]).
Proof.
  exists (single_node_adapter solar).
  split; [reflexivity|].
  destruct (validate_node_commits 1 (single_node_adapter solar)
              "solar" solar [] eq_refl)
    as (_ & b & node' & Hv & Hcommit & _).
  rewrite Hcommit.
  assert (ATLASNode.validate 1 solar
          = (Return false, (ATLASNode.validate 1 solar).2)) as Hf
    by by_evaluation.
  rewrite Hf in Hv. by injection Hv as <- <-.
Defined.

(** C3, as stated, fails: a complete [UNVALIDATED] node is moved to
    [VALIDATED] by [validate_node], a status that
    [allowed_transitions(UNVALIDATED)] does not contain. *)
Lemma validate_node_ignores_table :
  ATLASNode.validation_status complete_solar
  = ValidationStatusType.UNVALIDATED
  ∧ (ValidationStatusType.VALIDATED
       ∉ ValidationStatusType.allowed_transitions
           ValidationStatusType.UNVALIDATED)
  ∧ ∃ committed,
      ATLASClient.validate_node 1
        (ATLASClient.Client (Some (single_node_adapter complete_solar)))
        "solar" []
      = (Return true, [committed])
      ∧ ATLASNode.validation_status committed
        = ValidationStatusType.VALIDATED.
Proof.
  split; [reflexivity|]. split.
  { apply (bool_decide_unpack _). by vm_compute. }
  exists (ATLASNode.with_validation_status ValidationStatusType.VALIDATED
            (ATLASNode.validate 1 complete_solar).2).
  split; by_evaluation.
Qed.

(** ** The operation envelope: retry and cache *)

Lemma invocations_app tr tr' :
  AtlasOperation.invocations (tr ++ tr')
  = AtlasOperation.invocations tr + AtlasOperation.invocations tr'.
Proof.
  unfold AtlasOperation.invocations. by rewrite filter_app, length_app.
Qed.

Lemma invocations_invoke :
  AtlasOperation.invocations [AtlasOperation.Invoke] = 1.
Proof. reflexivity. Qed.

Lemma invocations_invoke_sleep d :
  AtlasOperation.invocations [AtlasOperation.Invoke; AtlasOperation.Sleep d]
  = 1.
Proof. reflexivity. Qed.

Section envelope.
Context {A W V : Type}.
Variable cfg : AtlasOperation.config.
Variable func_name : string.
Variable func : A → W → result V * W.
Variable instance : A → option (AtlasOperation.instance_view W).
Variable operation_cache : W → option (gmap string V).
Variable set_operation_cache : gmap string V → W → W.
Variables str_args str_kwargs : A → string.

Local Abbreviation wrapper :=
  (AtlasOperation.wrapper cfg func_name func instance operation_cache
     set_operation_cache str_args str_kwargs).
Local Abbreviation retry_loop :=
  (AtlasOperation.retry_loop cfg func_name func instance operation_cache
     set_operation_cache str_args str_kwargs).
Local Abbreviation cache_key :=
  (AtlasOperation.cache_key func_name str_args str_kwargs).
Local Abbreviation cache_lookup :=
  (AtlasOperation.cache_lookup cfg func_name instance operation_cache
     str_args str_kwargs).
Local Abbreviation cache_store :=
  (AtlasOperation.cache_store cfg func_name instance operation_cache
     set_operation_cache str_args str_kwargs).
Local Abbreviation validation_gate := (AtlasOperation.validation_gate cfg instance).
Local Abbreviation run_failures := (AtlasOperation.run_failures func).

Lemma run_failures_S k a w :
  run_failures (S k) a w
  = match func a w with
    | (Raise e, w') =>
        '(es, w'') ← run_failures k a w'; Some (e :: es, w'')
    | (Return _, _) => None
    end.
Proof. reflexivity. Qed.

(** [k] failures followed by a success, with budget to spare. *)
Lemma retry_loop_success k : ∀ budget a w es wk v w' last_error tr,
  run_failures k a w = Some (es, wk) →
  func a wk = (Return v, w') →
  k < budget →
  ∃ tr', retry_loop budget a last_error w tr
           = (Return v, cache_store a v w', tr')
         ∧ AtlasOperation.invocations tr'
           = AtlasOperation.invocations tr + S k.
Proof.
  induction k as [|k IH]; intros budget a w es wk v w' last_error tr Hrun Hok Hlt.
  - injection Hrun as <- <-.
    destruct budget as [|budget]; [lia|]. cbn. rewrite Hok.
    eexists. split; [reflexivity|].
    rewrite invocations_app, invocations_invoke. lia.
  - cbn in Hrun. destruct (func a w) as [[v0|e] w1] eqn:Hf; [done|].
    destruct (run_failures k a w1) as [[es' wk']|] eqn:Hrun'; [|done].
    cbn in Hrun. injection Hrun as <- <-.
    destruct budget as [|[|budget]]; [lia|lia|].
    cbn [AtlasOperation.retry_loop]. rewrite Hf.
    destruct (IH (S budget) a w1 es' wk' v w' (Some e)
                 (tr ++ [AtlasOperation.Invoke;
                         AtlasOperation.Sleep (AtlasOperation.retry_delay cfg)])
                 Hrun' Hok ltac:(lia)) as (tr' & Hloop & Hinv).
    exists tr'. split; [exact Hloop|].
    rewrite Hinv, invocations_app, invocations_invoke_sleep. lia.
Qed.

(** As many failures as the budget allows. *)
Lemma retry_loop_exhausted k : ∀ a w es wk last_error tr,
  run_failures (S k) a w = Some (es, wk) →
  ∃ e tr', last es = Some e
         ∧ retry_loop (S k) a last_error w tr = (Raise e, wk, tr')
         ∧ AtlasOperation.invocations tr'
           = AtlasOperation.invocations tr + S k.
Proof.
  induction k as [|k IH]; intros a w es wk last_error tr Hrun.
  - cbn in Hrun. destruct (func a w) as [[v0|e] w1] eqn:Hf; [done|].
    cbn in Hrun. injection Hrun as <- <-.
    exists e. eexists. split; [done|]. cbn. rewrite Hf.
    split; [reflexivity|].
    rewrite invocations_app, invocations_invoke. lia.
  - rewrite run_failures_S in Hrun.
    destruct (func a w) as [[v0|e] w1] eqn:Hf; [done|].
    destruct (run_failures (S k) a w1) as [[es' wk']|] eqn:Hrun'; [|done].
    cbn in Hrun. injection Hrun as <- <-.
    destruct (IH a w1 es' wk' (Some e)
                 (tr ++ [AtlasOperation.Invoke;
                         AtlasOperation.Sleep (AtlasOperation.retry_delay cfg)])
                 Hrun') as (e' & tr' & Hlast & Hloop & Hinv).
    exists e', tr'. split; [|split].
    + destruct es' as [|e0 es']; [done|]. exact Hlast.
    + cbn [AtlasOperation.retry_loop]. rewrite Hf. exact Hloop.
    + rewrite Hinv, invocations_app, invocations_invoke_sleep. lia.
Qed.


(** With a negative [retry_attempts] the loop body never runs and the
    statements after the loop raise [AssertionError]. *)
Lemma negative_retry_attempts (a : A) (w w1 : W) :
  (AtlasOperation.retry_attempts cfg < 0)%Z →
  cache_lookup a w = None →
  validation_gate a w = (Return (), w1) →
  wrapper a w = (Raise AssertionError, w1, []).
Proof.
  intros Hn Hmiss Hgate. unfold AtlasOperation.wrapper.
  rewrite Hmiss, Hgate.
  by replace (Z.to_nat (AtlasOperation.retry_attempts cfg + 1)) with 0 by lia.
Qed.

(** *** The result cache *)

Lemma cache_lookup_same_key a a2 w :
  is_Some (instance a) → is_Some (instance a2) →
  cache_key a2 = cache_key a →
  cache_lookup a2 w = cache_lookup a w.
Proof.
  intros [i Hi] [i2 Hi2] Hkey. unfold AtlasOperation.cache_lookup.
  by rewrite Hi, Hi2, Hkey.
Qed.

Lemma cache_store_lookup a a2 v w :
  AtlasOperation.cache_result cfg = true →
  (∀ c w, operation_cache (set_operation_cache c w) = Some c) →
  is_Some (instance a) → is_Some (instance a2) →
  cache_key a2 = cache_key a →
  cache_lookup a2 (cache_store a v w) = Some v.
Proof.
  intros Hon Hlaw [i Hi] [i2 Hi2] Hkey.
  unfold AtlasOperation.cache_lookup, AtlasOperation.cache_store.
  rewrite Hon, Hi, Hi2, Hlaw, Hkey. cbn. by rewrite lookup_insert_eq.
Qed.

(** A call that returns through the loop has just stored its result. *)
Lemma retry_loop_return budget : ∀ a last_error w tr v w' tr',
  retry_loop budget a last_error w tr = (Return v, w', tr') →
  ∃ w0, w' = cache_store a v w0.
Proof.
  induction budget as [|budget IH]; intros a last_error w tr v w' tr' H.
  - cbn in H. by destruct last_error.
  - cbn [AtlasOperation.retry_loop] in H.
    destruct (func a w) as [[res|e] w1].
    + injection H as <- <- _. by eexists.
    + destruct budget as [|budget]; [done|]. by eapply IH.
Qed.

Lemma retry_loop_trace_mono budget : ∀ a last_error w tr,
  AtlasOperation.invocations tr
  ≤ AtlasOperation.invocations (retry_loop budget a last_error w tr).2.
Proof.
  induction budget as [|budget IH]; intros a last_error w tr.
  - cbn. by destruct last_error.
  - cbn [AtlasOperation.retry_loop].
    destruct (func a w) as [[res|e] w1].
    + cbn [snd]. rewrite invocations_app. lia.
    + destruct budget as [|budget].
      * cbn [snd]. rewrite invocations_app. lia.
      * etrans; [|apply IH]. rewrite invocations_app. lia.
Qed.

Lemma retry_loop_invokes budget a last_error w tr :
  S (AtlasOperation.invocations tr)
  ≤ AtlasOperation.invocations (retry_loop (S budget) a last_error w tr).2.
Proof.
  cbn [AtlasOperation.retry_loop].
  destruct (func a w) as [[res|e] w1].
  - cbn [snd]. rewrite invocations_app, invocations_invoke. lia.
  - destruct budget as [|budget].
    + cbn [snd]. rewrite invocations_app, invocations_invoke. lia.
    + etrans; [|apply retry_loop_trace_mono].
      rewrite invocations_app, invocations_invoke_sleep. lia.
Qed.

Section persistence.
Hypothesis Hlaw : ∀ c w, operation_cache (set_operation_cache c w) = Some c.
Hypothesis Hfunc : ∀ a w r w',
  func a w = (r, w') → operation_cache w' = operation_cache w.
Hypothesis Hvalidate : ∀ a i validate w r w',
  instance a = Some i → AtlasOperation.validate_attr i = Some validate →
  validate w = (r, w') → operation_cache w' = operation_cache w.

Lemma validation_gate_cache a w :
  operation_cache (validation_gate a w).2 = operation_cache w.
Proof.
  unfold AtlasOperation.validation_gate.
  destruct (AtlasOperation.requires_validation cfg); [|done].
  destruct (instance a) as [i|] eqn:Hi; [|done].
  destruct (AtlasOperation.validate_attr i) as [validate|] eqn:Hv; [|done].
  pose proof (Hvalidate a i validate w) as H.
  destruct (validate w) as [[[|]|e] w']; cbn [snd]; by eapply H.
Qed.

Lemma retry_loop_keeps_entry budget : ∀ a last_error w tr c k v,
  operation_cache w = Some c → c !! k = Some v →
  (AtlasOperation.cache_result cfg = true → is_Some (instance a)
     → cache_key a ≠ k) →
  ∃ c', operation_cache (retry_loop budget a last_error w tr).1.2 = Some c'
        ∧ c' !! k = Some v.
Proof.
  induction budget as [|budget IH]; intros a last_error w tr c k v Hc Hk Hne.
  - cbn. destruct last_error; by exists c.
  - cbn [AtlasOperation.retry_loop].
    destruct (func a w) as [[res|e] w1] eqn:Hf;
      apply Hfunc in Hf; rewrite Hc in Hf.
    + cbn [fst snd]. unfold AtlasOperation.cache_store.
      destruct (AtlasOperation.cache_result cfg) eqn:Hon; [|by exists c].
      destruct (instance a) as [i|] eqn:Hi; [|by exists c].
      rewrite Hlaw, Hf. eexists. split; [reflexivity|]. cbn.
      rewrite lookup_insert_ne; [done|]. by apply Hne.
    + destruct budget as [|budget]; [by exists c|]. by eapply IH.
Qed.

(** No call removes or replaces an entry of the cache. *)
Lemma wrapper_keeps_entry a w c k v :
  operation_cache w = Some c → c !! k = Some v →
  ∃ c', operation_cache (wrapper a w).1.2 = Some c' ∧ c' !! k = Some v.
Proof.
  intros Hc Hk. unfold AtlasOperation.wrapper.
  destruct (cache_lookup a w) as [v0|] eqn:Hlook; [by exists c|].
  pose proof (validation_gate_cache a w) as Hg.
  destruct (validation_gate a w) as [[[]|e] w1]; cbn [snd] in Hg;
    rewrite Hc in Hg; [|by exists c].
  apply (retry_loop_keeps_entry _ _ _ _ _ c); [done..|].
  intros Hon [i Hi] <-. unfold AtlasOperation.cache_lookup in Hlook.
  rewrite Hon, Hi, Hc in Hlook. cbn in Hlook. congruence.
Qed.

End persistence.


End envelope.




(** ** The taxonomy analyzer: adjacency *)

Lemma init_adjacency_lookup (nodes : list ATLASNode.t) :
  ∀ (acc : gmap string (list string)) (k : string),
  foldl (λ adjacency node, <[ATLASNode.id node := []]> adjacency) acc nodes
    !! k
  = if decide (k ∈ ATLASNode.id <$> nodes) then Some [] else acc !! k.
Proof.
  induction nodes as [|n nodes IH]; intros acc k; cbn [foldl fmap list_fmap].
  - case_decide as H; [by apply elem_of_nil in H|done].
  - rewrite IH. destruct (decide (k ∈ ATLASNode.id <$> nodes)) as [Hin|Hnin].
    + rewrite decide_True; [done|]. by right.
    + destruct (decide (k = ATLASNode.id n)) as [->|Hne].
      * rewrite decide_True by left. by rewrite lookup_insert_eq.
      * rewrite decide_False by (by intros [?|?]%elem_of_cons).
        by rewrite lookup_insert_ne.
Qed.

Lemma hierarchical_children_cons k rel rels :
  hierarchical_children k (rel :: rels)
  = (if decide (ATLASRelationship.is_hierarchical rel = true
                ∧ ATLASRelationship.start_node_id rel = k)
     then [ATLASRelationship.end_node_id rel] else [])
    ++ hierarchical_children k rels.
Proof.
  unfold hierarchical_children. rewrite filter_cons. by case_decide.
Qed.

(** When every hierarchical start is a key, the edges are added: each
    key ends with its children appended in list order. *)
Lemma add_edges_ok rels : ∀ adjacency,
  (∀ rel, rel ∈ rels → ATLASRelationship.is_hierarchical rel = true →
     is_Some (adjacency !! ATLASRelationship.start_node_id rel)) →
  ∃ adjacency',
    TaxonomyExtractor.add_edges rels adjacency = Return adjacency'
    ∧ ∀ k, adjacency' !! k
           = (λ l, l ++ hierarchical_children k rels) <$> adjacency !! k.
Proof.
  induction rels as [|rel rels IH]; intros adjacency Hstarts.
  - exists adjacency. split; [done|]. intros k.
    destruct (adjacency !! k); cbn; [|done]. by rewrite (right_id_L [] (++)).
  - cbn [TaxonomyExtractor.add_edges].
    destruct (ATLASRelationship.is_hierarchical rel) eqn:Hh.
    + destruct (Hstarts rel ltac:(left) Hh) as [children Hc]. rewrite Hc.
      destruct (IH (<[ATLASRelationship.start_node_id rel :=
                        children ++ [ATLASRelationship.end_node_id rel]]>
                      adjacency)) as (adjacency' & Hadd & Hlook).
      { intros r Hr Hhr.
        destruct (decide (ATLASRelationship.start_node_id rel
                          = ATLASRelationship.start_node_id r)) as [<-|Hne].
        - by rewrite lookup_insert_eq.
        - rewrite lookup_insert_ne; [|done]. apply Hstarts; [by right|done]. }
      exists adjacency'. split; [done|]. intros k.
      rewrite Hlook, hierarchical_children_cons, Hh.
      destruct (decide (ATLASRelationship.start_node_id rel = k)) as [<-|Hne].
      * rewrite lookup_insert_eq, Hc. cbn.
        rewrite decide_True by done. by rewrite <- (assoc_L (++)).
      * rewrite lookup_insert_ne by done.
        rewrite decide_False by (by intros [_ ?]). done.
    + destruct (IH adjacency) as (adjacency' & Hadd & Hlook).
      { intros r Hr Hhr. apply Hstarts; [by right|done]. }
      exists adjacency'. split; [done|]. intros k.
      rewrite Hlook, hierarchical_children_cons, Hh.
      rewrite decide_False by (by intros [? _]). done.
Qed.

(** A hierarchical relationship whose start is not a key stops the
    construction with a [KeyError] on such a start. *)
Lemma add_edges_fail rels : ∀ adjacency rel,
  rel ∈ rels → ATLASRelationship.is_hierarchical rel = true →
  adjacency !! ATLASRelationship.start_node_id rel = None →
  ∃ k, TaxonomyExtractor.add_edges rels adjacency = Raise (KeyError k)
       ∧ adjacency !! k = None.
Proof.
  induction rels as [|r rels IH]; intros adjacency rel Hin Hh Hnone.
  - by apply elem_of_nil in Hin.
  - cbn [TaxonomyExtractor.add_edges].
    destruct (ATLASRelationship.is_hierarchical r) eqn:Hhr.
    + destruct (adjacency !! ATLASRelationship.start_node_id r)
        as [children|] eqn:Hc; [|by eexists].
      apply elem_of_cons in Hin as [->|Hin]; [congruence|].
      destruct (IH (<[ATLASRelationship.start_node_id r :=
                        children ++ [ATLASRelationship.end_node_id r]]>
                      adjacency) rel Hin Hh) as (k & Hfail & Hk).
      { rewrite lookup_insert_ne; [done|]. congruence. }
      exists k. split; [done|].
      destruct (decide (ATLASRelationship.start_node_id r = k)) as [<-|Hne].
      * by rewrite lookup_insert_eq in Hk.
      * by rewrite lookup_insert_ne in Hk.
    + apply elem_of_cons in Hin as [->|Hin]; [congruence|].
      by apply (IH adjacency rel).
Qed.

Lemma build_adjacency_ok nodes rels :
  starts_known nodes rels →
  ∃ adjacency,
    TaxonomyExtractor.build_adjacency nodes rels = Return adjacency
    ∧ ∀ k, adjacency !! k
           = if decide (k ∈ ATLASNode.id <$> nodes)
             then Some (hierarchical_children k rels) else None.
Proof.
  intros Hstarts. unfold TaxonomyExtractor.build_adjacency.
  destruct (add_edges_ok rels
              (foldl (λ adjacency node, <[ATLASNode.id node := []]> adjacency)
                     ∅ nodes)) as (adjacency & Hadd & Hlook).
  { intros rel Hin Hh. rewrite init_adjacency_lookup.
    rewrite decide_True; [done|]. by apply Hstarts. }
  exists adjacency. split; [done|]. intros k.
  rewrite Hlook, init_adjacency_lookup. by case_decide.
Qed.

Lemma build_adjacency_fail nodes rels rel :
  rel ∈ rels → ATLASRelationship.is_hierarchical rel = true →
  ATLASRelationship.start_node_id rel ∉ ATLASNode.id <$> nodes →
  ∃ k, TaxonomyExtractor.build_adjacency nodes rels = Raise (KeyError k)
       ∧ k ∉ ATLASNode.id <$> nodes.
Proof.
  intros Hin Hh Hstart. unfold TaxonomyExtractor.build_adjacency.
  destruct (add_edges_fail rels
              (foldl (λ adjacency node, <[ATLASNode.id node := []]> adjacency)
                     ∅ nodes) rel Hin Hh) as (k & Hfail & Hk).
  { rewrite init_adjacency_lookup. by rewrite decide_False. }
  exists k. split; [done|]. rewrite init_adjacency_lookup in Hk.
  by case_decide.
Qed.

(** ** The taxonomy analyzer: the traversal returns *)

Lemma dfs_S fuel adjacency node_id depth st :
  TaxonomyExtractor.dfs (S fuel) adjacency node_id depth st
  = foldl (λ (acc : option (nat * gset string)) child_id,
             st' ← acc;
             if decide (child_id ∈ st'.2) then Some st'
             else TaxonomyExtractor.dfs fuel adjacency child_id (S depth) st')
          (Some (if decide (st.1 < depth) then depth else st.1,
                 {[node_id]} ∪ st.2))
          (default [] (adjacency !! node_id)).
Proof. reflexivity. Qed.

Lemma size_list_to_set_le (l : list string) :
  size (list_to_set l : gset string) ≤ length l.
Proof.
  induction l as [|x l IH]; cbn [list_to_set length].
  - by rewrite size_empty.
  - rewrite size_union_alt, size_singleton.
    assert (size (list_to_set l ∖ {[x]} : gset string)
            ≤ size (list_to_set l : gset string)) as Hle
      by (apply subseteq_size, subseteq_difference_l; reflexivity).
    lia.
Qed.

Section traversal.
Variable adjacency : gmap string (list string).
Variable universe : gset string.
Hypothesis Hclosed : ∀ k children c,
  adjacency !! k = Some children → c ∈ children → c ∈ universe.

Lemma unvisited_shrinks (node : string) (visited visited' : gset string) fuel :
  node ∈ universe → node ∉ visited → {[node]} ∪ visited ⊆ visited' →
  size (universe ∖ visited) ≤ S fuel →
  size (universe ∖ visited') ≤ fuel.
Proof.
  intros Hu Hv Hsub Hsize.
  assert (universe ∖ visited' ⊂ universe ∖ visited) as Hlt.
  { split.
    - intros x [Hx Hn]%elem_of_difference. apply elem_of_difference.
      split; [done|]. intros Hxv. apply Hn, Hsub, elem_of_union. by right.
    - intros Hsup. assert (node ∈ universe ∖ visited') as Hin.
      { apply Hsup, elem_of_difference. by split. }
      apply elem_of_difference in Hin as [_ Hn]. apply Hn, Hsub.
      apply elem_of_union. left. by apply elem_of_singleton. }
  apply subset_size in Hlt. lia.
Qed.

Lemma unvisited_mono (visited visited' : gset string) fuel :
  visited ⊆ visited' →
  size (universe ∖ visited) ≤ fuel → size (universe ∖ visited') ≤ fuel.
Proof.
  intros Hsub Hsize. etrans; [|exact Hsize]. apply subseteq_size.
  intros x [Hx Hn]%elem_of_difference. apply elem_of_difference.
  split; [done|]. intros Hxv. by apply Hn, Hsub.
Qed.

(** With more fuel than unvisited ids the traversal from an unvisited
    id returns, and its visited set has grown by at least that id. *)
Lemma dfs_total fuel : ∀ node depth (st : nat * gset string),
  node ∈ universe → node ∉ st.2 → size (universe ∖ st.2) ≤ fuel →
  ∃ st', TaxonomyExtractor.dfs fuel adjacency node depth st = Some st'
         ∧ {[node]} ∪ st.2 ⊆ st'.2.
Proof.
  induction fuel as [|fuel IH]; intros node depth st Hu Hv Hsize.
  - exfalso. assert (size (universe ∖ st.2) = 0) as H0 by lia.
    apply size_empty_inv in H0.
    apply (not_elem_of_empty (C:=gset string) node). rewrite <- H0.
    apply elem_of_difference. by split.
  - rewrite dfs_S.
    assert (∀ c, c ∈ default [] (adjacency !! node) → c ∈ universe) as Hch.
    { intros c Hc. destruct (adjacency !! node) as [children|] eqn:Hl.
      - by apply (Hclosed node children).
      - by apply elem_of_nil in Hc. }
    assert (∀ children (s : nat * gset string),
      (∀ c, c ∈ children → c ∈ universe) →
      size (universe ∖ s.2) ≤ fuel →
      ∃ st',
        foldl (λ (acc : option (nat * gset string)) child_id,
                 st' ← acc;
                 if decide (child_id ∈ st'.2) then Some st'
                 else TaxonomyExtractor.dfs fuel adjacency child_id
                        (S depth) st')
              (Some s) children = Some st'
        ∧ s.2 ⊆ st'.2) as Hloop.
    { induction children as [|c children IHc]; intros s Hin Hs.
      - by exists s.
      - cbn [foldl mbind option_bind].
        destruct (decide (c ∈ s.2)) as [Hc|Hc].
        + apply IHc; [|done]. intros c' Hc'. apply Hin. by right.
        + destruct (IH c (S depth) s (Hin c ltac:(left)) Hc Hs)
            as (s1 & -> & Hsub).
          destruct (IHc s1) as (st' & Hfold & Hsub').
          { intros c' Hc'. apply Hin. by right. }
          { apply (unvisited_mono s.2); [|done].
            etrans; [|exact Hsub]. apply union_subseteq_r. }
          exists st'. split; [done|].
          etrans; [|exact Hsub']. etrans; [|exact Hsub].
          apply union_subseteq_r. }
    apply Hloop; [done|]. cbn [snd].
    by apply (unvisited_shrinks node st.2).
Qed.

Lemma dfs_from_each_total fuel (nodes : list ATLASNode.t) :
  size universe ≤ fuel →
  (∀ n, n ∈ nodes → ATLASNode.id n ∈ universe) →
  ∀ st, ∃ st',
    foldl (λ (acc : option (nat * gset string)) node,
             st ← acc;
             if decide (ATLASNode.id node ∈ st.2) then Some st
             else TaxonomyExtractor.dfs fuel adjacency (ATLASNode.id node) 0 st)
          (Some st) nodes = Some st'.
Proof.
  intros Hsize. induction nodes as [|n nodes IH]; intros Hin st.
  - by exists st.
  - cbn [foldl mbind option_bind].
    destruct (decide (ATLASNode.id n ∈ st.2)) as [Hv|Hv].
    + apply IH. intros n' Hn'. apply Hin. by right.
    + destruct (dfs_total fuel (ATLASNode.id n) 0 st
                  (Hin n ltac:(left)) Hv) as (s1 & -> & _).
      { etrans; [|exact Hsize]. apply subseteq_size.
        apply subseteq_difference_l. reflexivity. }
      apply IH. intros n' Hn'. apply Hin. by right.
Qed.

End traversal.

(** The depth computation returns a number whenever the adjacency can be
    built. *)
Lemma hierarchical_depth_total nodes rels :
  starts_known nodes rels →
  ∃ depth,
    TaxonomyExtractor._calculate_hierarchical_depth nodes rels
    = Some (Return depth).
Proof.
  intros Hstarts.
  destruct (build_adjacency_ok nodes rels Hstarts) as (adjacency & Hb & Hlook).
  unfold TaxonomyExtractor._calculate_hierarchical_depth,
    TaxonomyExtractor._calculate_hierarchical_depth_fuel.
  rewrite Hb. unfold TaxonomyExtractor.dfs_from_each.
  set (universe := (list_to_set (ATLASNode.id <$> nodes)
                    ∪ list_to_set (ATLASRelationship.end_node_id <$> rels))
                   : gset string).
  assert (∀ k children c,
            adjacency !! k = Some children → c ∈ children → c ∈ universe)
    as Hclosed.
  { intros k children c Hk Hc. rewrite Hlook in Hk.
    case_decide; [|done]. injection Hk as <-.
    apply elem_of_union. right. apply elem_of_list_to_set.
    unfold hierarchical_children in Hc.
    apply list_elem_of_fmap in Hc as (rel & -> & Hrel).
    apply list_elem_of_filter in Hrel as [_ Hrel].
    by apply list_elem_of_fmap_2. }
  assert (size universe ≤ S (length nodes + length rels)) as Hsize.
  { unfold universe. rewrite size_union_alt.
    pose proof (size_list_to_set_le (ATLASNode.id <$> nodes)) as H1.
    pose proof (size_list_to_set_le (ATLASRelationship.end_node_id <$> rels))
      as H2.
    rewrite length_fmap in H1. rewrite length_fmap in H2.
    assert (size ((list_to_set (ATLASRelationship.end_node_id <$> rels)
                   ∖ list_to_set (ATLASNode.id <$> nodes)) : gset string)
            ≤ size (list_to_set (ATLASRelationship.end_node_id <$> rels)
                      : gset string)) as H3
      by (apply subseteq_size, subseteq_difference_l; reflexivity).
    lia. }
  assert (∀ n, n ∈ nodes → ATLASNode.id n ∈ universe) as Hids.
  { intros n Hn. apply elem_of_union. left. apply elem_of_list_to_set.
    by apply list_elem_of_fmap_2. }
  destruct (dfs_from_each_total adjacency universe Hclosed _ nodes
              Hsize Hids (0, ∅)) as (st' & Hfold).
  rewrite Hfold. by eexists.
Qed.

(** ** The taxonomy analyzer: a linear chain *)

Lemma filter_fmap_comm {B C} (f : B → C) (P : C → Prop)
    `{!∀ x, Decision (P x)} (l : list B) :
  filter P (f <$> l) = f <$> filter (λ x, P (f x)) l.
Proof.
  induction l as [|x l IH]; [done|]. cbn [fmap list_fmap].
  rewrite !filter_cons. cbn. rewrite IH. by case_decide.
Qed.

Lemma filter_zip_absent (k : string) (l l' : list string) :
  k ∉ l → filter (λ p : string * string, p.1 = k) (zip l l') = [].
Proof.
  revert l'. induction l as [|x l IH]; intros l' Hk; [done|].
  destruct l' as [|y l']; [done|]. cbn [zip zip_with].
  apply not_elem_of_cons in Hk as [Hne Hk].
  rewrite filter_cons_False by (cbn; congruence). by apply IH.
Qed.

Lemma chain_links_cons (x y : string) (ids : list string) :
  zip (x :: y :: ids) (tail (x :: y :: ids))
  = (x, y) :: zip (y :: ids) (tail (y :: ids)).
Proof. reflexivity. Qed.

Lemma successors_cons (k x y : string) (ids : list string) :
  successors k (x :: y :: ids)
  = if decide (x = k) then [y] else successors k (y :: ids).
Proof. reflexivity. Qed.

Lemma successors_links (k : string) (ids : list string) :
  NoDup ids →
  (filter (λ p : string * string, p.1 = k) (zip ids (tail ids))).*2
  = successors k ids.
Proof.
  induction ids as [|x ids IH]; intros Hnd; [done|].
  apply NoDup_cons in Hnd as [Hx Hnd].
  destruct ids as [|y ids]; [done|].
  rewrite chain_links_cons, successors_cons, filter_cons. cbn [fst].
  destruct (decide (x = k)) as [->|Hne].
  - by rewrite (filter_zip_absent k (y :: ids)).
  - apply (IH Hnd).
Qed.

Lemma successors_short k ids : length (successors k ids) ≤ 1.
Proof.
  induction ids as [|x [|y ids] IH]; cbn; [lia..|].
  case_decide; [cbn; lia|apply IH].
Qed.

(** In a chain the children of an id are the id that follows it. *)
Lemma chain_children (ids : list string) rels k :
  NoDup ids → chain_edges ids rels →
  hierarchical_children k rels = successors k ids.
Proof.
  intros Hnd Hchain. unfold chain_edges in Hchain.
  assert (hierarchical_children k rels
          = (filter (λ p : string * string, p.1 = k)
               (edge <$> filter (λ rel, ATLASRelationship.is_hierarchical rel
                                        = true) rels)).*2) as ->.
  { unfold hierarchical_children.
    rewrite filter_fmap_comm, <- list_fmap_compose, list_filter_filter.
    cbn [edge fst].
    f_equal. apply list_filter_iff. intros rel.
    split; intros [H1 H2]; by split. }
  rewrite <- (successors_links k ids Hnd).
  assert ((filter (λ p : string * string, p.1 = k)
             (edge <$> filter (λ rel, ATLASRelationship.is_hierarchical rel
                                      = true) rels)).*2
          ≡ₚ (filter (λ p : string * string, p.1 = k)
                (zip ids (tail ids))).*2) as Hperm by (by rewrite Hchain).
  pose proof (successors_short k ids) as Hlen.
  rewrite <- (successors_links k ids Hnd) in Hlen.
  destruct ((filter (λ p : string * string, p.1 = k)
               (zip ids (tail ids))).*2) as [|y [|z rest]].
  - by apply Permutation_nil_r in Hperm.
  - by apply Permutation_singleton_r in Hperm.
  - cbn in Hlen. lia.
Qed.

Lemma successors_after (prefix : list string) (x : string) (rest : list string) :
  NoDup (prefix ++ x :: rest) →
  successors x (prefix ++ x :: rest)
  = match rest with [] => [] | y :: _ => [y] end.
Proof.
  induction prefix as [|p prefix IH]; intros Hnd.
  - destruct rest as [|y rest]; [done|]. cbn [app].
    rewrite successors_cons. by rewrite decide_True.
  - cbn [app] in Hnd. apply NoDup_cons in Hnd as [Hp Hnd].
    assert (p ≠ x) as Hne.
    { intros ->. apply Hp, elem_of_app. right. by left. }
    destruct prefix as [|q prefix].
    + cbn [app]. rewrite successors_cons, decide_False by done.
      by apply (IH Hnd).
    + cbn [app]. rewrite successors_cons, decide_False by done.
      by apply (IH Hnd).
Qed.

Lemma chain_in_suffix adjacency (ids : list string) :
  NoDup ids →
  (∀ k, k ∈ ids → default [] (adjacency !! k) = successors k ids) →
  ∀ prefix rest, ids = prefix ++ rest → chain_in adjacency rest.
Proof.
  intros Hnd Hadj prefix rest. revert prefix.
  induction rest as [|x rest IH]; intros prefix ->; [done|].
  cbn [chain_in]. split.
  - rewrite Hadj by (apply elem_of_app; right; by left).
    by apply successors_after.
  - apply (IH (prefix ++ [x])). by rewrite <- (assoc_L (++)).
Qed.

(** From the head of a chain of unvisited ids the traversal walks the
    whole chain: the depth reached is the number of links, and every id
    of the chain is visited. *)
Lemma dfs_chain adjacency (rest : list string) :
  ∀ x fuel depth (m : nat) (visited : gset string),
  chain_in adjacency (x :: rest) →
  NoDup (x :: rest) →
  (∀ y, y ∈ rest → y ∉ visited) →
  length rest < fuel →
  TaxonomyExtractor.dfs fuel adjacency x depth (m, visited)
  = Some (m `max` (depth + length rest),
          list_to_set (x :: rest) ∪ visited).
Proof.
  induction rest as [|y rest IH];
    intros x fuel depth m visited Hchain Hnd Hfresh Hfuel;
    (destruct fuel as [|fuel]; [cbn in Hfuel; lia|]);
    rewrite dfs_S; destruct Hchain as [-> Hchain]; cbn [foldl fst snd].
  - f_equal. f_equal.
    + case_decide; cbn [length]; lia.
    + cbn [list_to_set]. by rewrite (right_id_L ∅ (∪)).
  - apply NoDup_cons in Hnd as [Hx Hnd].
    cbn [mbind option_bind fst snd].
    rewrite decide_False.
    2:{ intros [Hy|Hy]%elem_of_union.
        - apply elem_of_singleton in Hy as ->. apply Hx. by left.
        - by apply (Hfresh y ltac:(left)). }
    rewrite (IH y fuel (S depth)); [| done | done | | cbn in Hfuel; lia].
    2:{ intros z Hz [Hzx|Hzv]%elem_of_union.
        - apply elem_of_singleton in Hzx as ->. apply Hx. by right.
        - apply (Hfresh z); [by right|done]. }
    f_equal. f_equal.
    + case_decide; cbn [length]; lia.
    + cbn [list_to_set]. apply set_eq. intros z.
      rewrite !elem_of_union. tauto.
Qed.

Lemma dfs_skips_visited fuel adjacency (nodes : list ATLASNode.t)
    (st : nat * gset string) :
  (∀ n, n ∈ nodes → ATLASNode.id n ∈ st.2) →
  foldl (λ (acc : option (nat * gset string)) node,
           st ← acc;
           if decide (ATLASNode.id node ∈ st.2) then Some st
           else TaxonomyExtractor.dfs fuel adjacency (ATLASNode.id node) 0 st)
        (Some st) nodes = Some st.
Proof.
  induction nodes as [|n nodes IH]; intros Hin; [done|].
  cbn [foldl mbind option_bind].
  rewrite decide_True by (apply Hin; by left).
  apply IH. intros n' Hn'. apply Hin. by right.
Qed.



(** ** The taxonomy analyzer: results *)

(** C10: the depth computation returns a depth exactly on inputs where
    every hierarchical relationship starts at one of the given nodes; a
    hierarchical relationship whose start is not among them makes the
    construction of the adjacency raise [KeyError] on such a start, and
    [analyze_taxonomy] raises with it when the relationships gathered for
    the domain's nodes contain one. *)
Theorem hierarchical_depth_needs_known_starts
    (nodes : list ATLASNode.t) (rels : list ATLASRelationship.t) :
  (starts_known nodes rels →
     ∃ depth, TaxonomyExtractor._calculate_hierarchical_depth nodes rels
              = Some (Return depth))
  ∧ (∀ rel, rel ∈ rels →
       ATLASRelationship.is_hierarchical rel = true →
       ATLASRelationship.start_node_id rel ∉ ATLASNode.id <$> nodes →
       ∃ k, TaxonomyExtractor._calculate_hierarchical_depth nodes rels
            = Some (Raise (KeyError k))
            ∧ k ∉ ATLASNode.id <$> nodes)
  ∧ (∀ self domain adapter,
       ATLASClient.graph_adapter (TaxonomyExtractor.client self)
         = Some adapter →
       nodes = TaxonomyExtractor.domain_nodes self domain →
       rels = TaxonomyExtractor.unique_relationships
                (TaxonomyExtractor.domain_relationships self nodes) →
       ∀ rel, rel ∈ rels →
         ATLASRelationship.is_hierarchical rel = true →
         ATLASRelationship.start_node_id rel ∉ ATLASNode.id <$> nodes →
         ∃ k, TaxonomyExtractor.analyze_taxonomy self domain
              = Some (Raise (KeyError k))).
Proof.
  assert (∀ rel, rel ∈ rels →
       ATLASRelationship.is_hierarchical rel = true →
       ATLASRelationship.start_node_id rel ∉ ATLASNode.id <$> nodes →
       ∃ k, TaxonomyExtractor._calculate_hierarchical_depth nodes rels
            = Some (Raise (KeyError k))
            ∧ k ∉ ATLASNode.id <$> nodes) as Hfail.
  { intros rel Hin Hh Hstart.
    destruct (build_adjacency_fail nodes rels rel Hin Hh Hstart)
      as (k & Hb & Hk).
    exists k. split; [|done].
    unfold TaxonomyExtractor._calculate_hierarchical_depth,
      TaxonomyExtractor._calculate_hierarchical_depth_fuel.
    by rewrite Hb. }
  split; [apply hierarchical_depth_total|]. split; [exact Hfail|].
  intros self domain adapter Hadapter -> -> rel Hin Hh Hstart.
  destruct (Hfail rel Hin Hh Hstart) as (k & Hdepth & _).
  exists k. unfold TaxonomyExtractor.analyze_taxonomy.
  by rewrite Hadapter, Hdepth.
Qed.

Lemma hierarchical_depth_needs_known_starts_witness :
  (∃ depth,
     TaxonomyExtractor._calculate_hierarchical_depth
       [concept "A"; concept "B"] [link RelationshipType.IS_A "r1" "A" "B"]
     = Some (Return depth))
  ∧ (∃ k,
       TaxonomyExtractor._calculate_hierarchical_depth
         [concept "B"] [link RelationshipType.IS_A "r1" "A" "B"]
       = Some (Raise (KeyError k)))
  ∧ (∃ k,
       TaxonomyExtractor.analyze_taxonomy
         (TaxonomyExtractor.Extractor
            (ATLASClient.Client (Some incoming_edge_adapter))) "energy"
       = Some (Raise (KeyError k))).
Proof.
  split; [|split].
  - apply (hierarchical_depth_needs_known_starts
             [concept "A"; concept "B"]
             [link RelationshipType.IS_A "r1" "A" "B"]).
    intros rel Hin _. apply list_elem_of_singleton in Hin as ->. by left.
  - destruct (hierarchical_depth_needs_known_starts
                [concept "B"] [link RelationshipType.IS_A "r1" "A" "B"])
      as (_ & Hfail & _).
    destruct (Hfail (link RelationshipType.IS_A "r1" "A" "B"))
      as (k & Hk & _).
    + by left.
    + reflexivity.
    + apply (bool_decide_unpack _). by vm_compute.
    + by exists k.
  - destruct (hierarchical_depth_needs_known_starts
                [concept "B"] [link RelationshipType.IS_A "r1" "A" "B"])
      as (_ & _ & Hanalyze).
    apply (Hanalyze
             (TaxonomyExtractor.Extractor
                (ATLASClient.Client (Some incoming_edge_adapter)))
             "energy" incoming_edge_adapter eq_refl eq_refl eq_refl
             (link RelationshipType.IS_A "r1" "A" "B")).
    + by left.
    + reflexivity.
    + apply (bool_decide_unpack _). by vm_compute.
Defined.

Lemma dict_set_keys {B} (k : string) (v : B) (d : list (string * B)) :
  (TaxonomyExtractor.dict_set k v d).*1
  = if decide (k ∈ d.*1) then d.*1 else d.*1 ++ [k].
Proof.
  induction d as [|[k' v'] d IH]; cbn [TaxonomyExtractor.dict_set].
  - by rewrite decide_False by apply not_elem_of_nil.
  - destruct (decide (k = k')) as [->|Hne]; cbn [fmap list_fmap fst].
    + rewrite decide_True; [done|by left].
    + change (list_fmap _ _ fst ?l) with (l.*1). rewrite IH.
      destruct (decide (k ∈ d.*1)) as [Hin|Hnin].
      * rewrite decide_True; [done|by right].
      * rewrite decide_False; [done|].
        by intros [?|?]%elem_of_cons.
Qed.

Lemma dedup_keys (rels : list ATLASRelationship.t) :
  ∀ d : list (string * ATLASRelationship.t),
  NoDup d.*1 →
  NoDup (foldl (λ d rel,
                  TaxonomyExtractor.dict_set (ATLASRelationship.id rel) rel d)
               d rels).*1
  ∧ (list_to_set
       (foldl (λ d rel,
                 TaxonomyExtractor.dict_set (ATLASRelationship.id rel) rel d)
              d rels).*1 : gset string)
    = list_to_set d.*1 ∪ list_to_set (ATLASRelationship.id <$> rels).
Proof.
  induction rels as [|rel rels IH]; intros d Hnd; cbn [foldl fmap list_fmap].
  - split; [done|]. cbn [list_to_set]. by rewrite (right_id_L ∅ (∪)).
  - destruct (IH (TaxonomyExtractor.dict_set (ATLASRelationship.id rel) rel d))
      as [Hnd' Hset].
    { rewrite dict_set_keys. case_decide as Hin; [done|].
      apply NoDup_app. split; [done|]. split; [|apply NoDup_singleton].
      intros x Hx Hx'. apply list_elem_of_singleton in Hx' as ->. done. }
    split; [exact Hnd'|]. rewrite Hset, dict_set_keys.
    apply set_eq. intros x. cbn [list_to_set].
    case_decide as Hin.
    + rewrite !elem_of_union, !elem_of_list_to_set, elem_of_singleton.
      split; [tauto|]. intros [?|[->|?]]; tauto.
    + rewrite list_to_set_app_L. cbn [list_to_set].
      rewrite !elem_of_union, !elem_of_list_to_set, elem_of_singleton.
      rewrite elem_of_empty. tauto.
Qed.

(** Deduplication keeps one relationship per id. *)
Lemma unique_relationships_length (rels : list ATLASRelationship.t) :
  length (TaxonomyExtractor.unique_relationships rels)
  = size (list_to_set (ATLASRelationship.id <$> rels) : gset string).
Proof.
  unfold TaxonomyExtractor.unique_relationships.
  destruct (dedup_keys rels [] (NoDup_nil_2)) as [Hnd Hset].
  cbn [fmap list_fmap list_to_set] in Hset.
  rewrite (left_id_L ∅ (∪)) in Hset.
  rewrite <- Hset, size_list_to_set by done.
  by rewrite !length_fmap.
Qed.

(** C6: with a graph adapter, and when every hierarchical relationship
    gathered for the domain starts at one of the domain's nodes,
    [analyze_taxonomy] returns a dict whose keys are [domain],
    [node_count], [relationship_count], [node_label_distribution],
    [relationship_type_distribution], [connectivity] and
    [hierarchical_depth]; [node_count] is the length of the node list and
    [relationship_count] the number of distinct relationship ids.
    Without a graph adapter the result is the empty dict. *)
Theorem analyze_taxonomy_result (self : TaxonomyExtractor.t)
    (domain : string) :
  (ATLASClient.graph_adapter (TaxonomyExtractor.client self) = None →
     TaxonomyExtractor.analyze_taxonomy self domain = Some (Return ∅))
  ∧ (∀ adapter,
       ATLASClient.graph_adapter (TaxonomyExtractor.client self)
         = Some adapter →
       starts_known (TaxonomyExtractor.domain_nodes self domain)
         (TaxonomyExtractor.unique_relationships
            (TaxonomyExtractor.domain_relationships self
               (TaxonomyExtractor.domain_nodes self domain))) →
       ∃ analysis,
         TaxonomyExtractor.analyze_taxonomy self domain
           = Some (Return analysis)
         ∧ dom analysis
           = {[ "domain"; "node_count"; "relationship_count";
                "node_label_distribution";
                "relationship_type_distribution"; "connectivity";
                "hierarchical_depth" ]}
         ∧ analysis !! "node_count"
           = Some (TaxonomyExtractor.AInt
                     (length (TaxonomyExtractor.domain_nodes self domain)))
         ∧ analysis !! "relationship_count"
           = Some (TaxonomyExtractor.AInt
                     (size (list_to_set
                              (ATLASRelationship.id
                                 <$> TaxonomyExtractor.domain_relationships
                                       self
                                       (TaxonomyExtractor.domain_nodes
                                          self domain)) : gset string)))).
Proof.
  split.
  - intros Hnone. unfold TaxonomyExtractor.analyze_taxonomy.
    by rewrite Hnone.
  - intros adapter Hadapter Hstarts.
    destruct (hierarchical_depth_total _ _ Hstarts) as [depth Hdepth].
    unfold TaxonomyExtractor.analyze_taxonomy.
    rewrite Hadapter, Hdepth. cbn [mbind option_bind result_bind mret result_ret].
    eexists. split; [reflexivity|]. split; [|split].
    + rewrite dom_list_to_map_L. cbn [fmap list_fmap fst list_to_set].
      apply set_eq. intros x. rewrite !elem_of_union, !elem_of_singleton.
      rewrite elem_of_empty. tauto.
    + by_evaluation.
    + rewrite <- unique_relationships_length. by_evaluation.
Qed.

Lemma analyze_taxonomy_result_witness :
  ∃ analysis,
    TaxonomyExtractor.analyze_taxonomy
      (TaxonomyExtractor.Extractor
         (ATLASClient.Client (Some (single_node_adapter solar)))) "energy"
    = Some (Return analysis)
    ∧ analysis !! "node_count" = Some (TaxonomyExtractor.AInt 1)
    ∧ analysis !! "relationship_count" = Some (TaxonomyExtractor.AInt 0).
Proof.
  destruct (analyze_taxonomy_result
              (TaxonomyExtractor.Extractor
                 (ATLASClient.Client (Some (single_node_adapter solar))))
              "energy") as [_ Hsome].
  destruct (Hsome (single_node_adapter solar) eq_refl)
    as (analysis & Hrun & _ & Hnodes & Hrels).
  - intros rel Hin. by apply elem_of_nil in Hin.
  - exists analysis. split; [exact Hrun|]. split; [exact Hnodes|].
    rewrite Hrels. by_evaluation.
Defined.

(** C6, as stated, fails: the dict returned for a one-node domain has
    the key [domain], and has [node_label_distribution] where the claim
    names [label_distribution]. *)
Lemma analyze_taxonomy_other_keys :
  ∃ analysis,
    TaxonomyExtractor.analyze_taxonomy
      (TaxonomyExtractor.Extractor
         (ATLASClient.Client (Some (single_node_adapter solar)))) "energy"
    = Some (Return analysis)
    ∧ ("domain" ∈ dom analysis)
    ∧ ("label_distribution" ∉ dom analysis)
    ∧ dom analysis
      ≠ {[ "node_count"; "relationship_count"; "label_distribution";
           "relationship_type_distribution"; "connectivity";
           "hierarchical_depth" ]}.
Proof.
  exists (match TaxonomyExtractor.analyze_taxonomy
                  (TaxonomyExtractor.Extractor
                     (ATLASClient.Client (Some (single_node_adapter solar))))
                  "energy" with
          | Some (Return analysis) => analysis
          | _ => ∅
          end).
  split; [by_evaluation|].
  assert ("domain" ∉ ({[ "node_count"; "relationship_count";
                         "label_distribution";
                         "relationship_type_distribution"; "connectivity";
                         "hierarchical_depth" ]} : gset string)) as Hout.
  { apply (bool_decide_unpack _). by vm_compute. }
  split; [|split].
  - apply (bool_decide_unpack _). by vm_compute.
  - apply (bool_decide_unpack _). by vm_compute.
  - intros Heq. apply Hout. rewrite <- Heq.
    apply (bool_decide_unpack _). by vm_compute.
Qed.

(** * Further properties of the type systems *)

(** X1: the transition table has no self-loops, never leads back to
    [UNVALIDATED], leaves no status without a successor, and lets every
    status other than [REJECTED] be rejected and every status other than
    [NEEDS_REVIEW] be sent to review. *)
Theorem transition_table_shape (s : ValidationStatusType.t) :
  (s ∉ ValidationStatusType.allowed_transitions s)
  ∧ (ValidationStatusType.UNVALIDATED
       ∉ ValidationStatusType.allowed_transitions s)
  ∧ ValidationStatusType.allowed_transitions s ≠ ∅
  ∧ (s ≠ ValidationStatusType.REJECTED →
     ValidationStatusType.REJECTED
       ∈ ValidationStatusType.allowed_transitions s)
  ∧ (s ≠ ValidationStatusType.NEEDS_REVIEW →
     ValidationStatusType.NEEDS_REVIEW
       ∈ ValidationStatusType.allowed_transitions s).
Proof.
  destruct s; repeat split;
    try (apply (bool_decide_unpack _); by vm_compute);
    try (intros Hne; try done; apply (bool_decide_unpack _); by vm_compute).
Qed.

Lemma transition_table_shape_witness :
  ValidationStatusType.REJECTED
    ∈ ValidationStatusType.allowed_transitions
        ValidationStatusType.EXPERT_VALIDATED
  ∧ ValidationStatusType.NEEDS_REVIEW
    ∈ ValidationStatusType.allowed_transitions
        ValidationStatusType.REJECTED.
Proof.
  split.
  - by apply (transition_table_shape ValidationStatusType.EXPERT_VALIDATED).
  - by apply (transition_table_shape ValidationStatusType.REJECTED).
Defined.

(** X2: no status is both valid and in need of action; [REJECTED] is the
    only status that is neither; and from a valid status the table leads
    only to valid statuses, [NEEDS_REVIEW] or [REJECTED]. *)
Theorem status_flags (s : ValidationStatusType.t) :
  (ValidationStatusType.is_valid s
     && ValidationStatusType.requires_action s = false)
  ∧ (ValidationStatusType.is_valid s
       || ValidationStatusType.requires_action s = false
     ↔ s = ValidationStatusType.REJECTED)
  ∧ (ValidationStatusType.is_valid s = true →
     ∀ t, t ∈ ValidationStatusType.allowed_transitions s →
       ValidationStatusType.is_valid t = true
       ∨ t = ValidationStatusType.NEEDS_REVIEW
       ∨ t = ValidationStatusType.REJECTED).
Proof.
  split; [by destruct s|]. split; [by destruct s|].
  intros Hvalid t Ht.
  destruct s; try discriminate Hvalid;
    destruct t; try (by left); try (by right; left); try (by right; right);
    exfalso; apply (bool_decide_pack _) in Ht; by vm_compute in Ht.
Qed.

Lemma status_flags_witness :
  ValidationStatusType.is_valid ValidationStatusType.COMMUNITY_VALIDATED = true
  ∧ ValidationStatusType.EXPERT_VALIDATED
    ∈ ValidationStatusType.allowed_transitions
        ValidationStatusType.COMMUNITY_VALIDATED
  ∧ (ValidationStatusType.is_valid ValidationStatusType.EXPERT_VALIDATED = true
     ∨ ValidationStatusType.EXPERT_VALIDATED
       = ValidationStatusType.NEEDS_REVIEW
     ∨ ValidationStatusType.EXPERT_VALIDATED = ValidationStatusType.REJECTED).
Proof.
  assert (ValidationStatusType.EXPERT_VALIDATED
          ∈ ValidationStatusType.allowed_transitions
              ValidationStatusType.COMMUNITY_VALIDATED) as Hin.
  { apply (bool_decide_unpack _). by vm_compute. }
  split; [reflexivity|]. split; [exact Hin|].
  destruct (status_flags ValidationStatusType.COMMUNITY_VALIDATED)
    as (_ & _ & Hnext).
  exact (Hnext eq_refl ValidationStatusType.EXPERT_VALIDATED Hin).
Defined.

(** X3: the validation levels group every status exactly once, and the
    valid statuses are those of the levels [High] and [Medium]. *)
Theorem validation_levels_partition (s : ValidationStatusType.t) :
  s ∈ concat ValidationStatusType.get_validation_levels.*2
  ∧ NoDup (concat ValidationStatusType.get_validation_levels.*2)
  ∧ (ValidationStatusType.is_valid s = true
     ↔ s ∈ default []
             (RelationshipType.assoc "High"
                ValidationStatusType.get_validation_levels)
           ++ default []
                (RelationshipType.assoc "Medium"
                   ValidationStatusType.get_validation_levels)).
Proof.
  split; [|split].
  - destruct s; apply (bool_decide_unpack _); by vm_compute.
  - apply (bool_decide_unpack _). by vm_compute.
  - destruct s; apply (bool_decide_unpack _); by vm_compute.
Qed.

(** X4: a relationship type is transitive exactly when it is
    hierarchical, hierarchical types are directional, the relationship
    groups list every type exactly once, and the group [Hierarchical]
    holds exactly the hierarchical types. *)
Theorem relationship_flags_and_groups (t : RelationshipType.t) :
  RelationshipType.is_transitive t = RelationshipType.is_hierarchical t
  ∧ (RelationshipType.is_hierarchical t = true →
     RelationshipType.is_directional t = true)
  ∧ t ∈ concat RelationshipType.get_relationship_groups.*2
  ∧ NoDup (concat RelationshipType.get_relationship_groups.*2)
  ∧ (RelationshipType.is_hierarchical t = true
     ↔ t ∈ default []
             (RelationshipType.assoc "Hierarchical"
                RelationshipType.get_relationship_groups)).
Proof.
  split; [by destruct t|]. split; [by destruct t|].
  split; [destruct t; apply (bool_decide_unpack _); by vm_compute|].
  split; [apply (bool_decide_unpack _); by vm_compute|].
  destruct t; apply (bool_decide_unpack _); by vm_compute.
Qed.

Lemma relationship_flags_and_groups_witness :
  RelationshipType.is_directional RelationshipType.PART_OF = true.
Proof.
  destruct (relationship_flags_and_groups RelationshipType.PART_OF)
    as (_ & Hdirectional & _).
  apply Hdirectional. by vm_compute.
Defined.

(** X5: every relationship type requires [created_at] and [updated_at],
    and two types that are each other's intended inverse
    ([PART_OF]/[CONTAINS], [REGULATES]/[REGULATED_BY]) require the same
    properties. *)
Theorem relationship_required_properties (t : RelationshipType.t) :
  {[ "created_at"; "updated_at" ]} ⊆ RelationshipType.required_properties t
  ∧ RelationshipType.required_properties t ≠ {[ "created_at"; "updated_at" ]}
  ∧ RelationshipType.required_properties RelationshipType.PART_OF
    = RelationshipType.required_properties RelationshipType.CONTAINS
  ∧ RelationshipType.required_properties RelationshipType.REGULATES
    = RelationshipType.required_properties RelationshipType.REGULATED_BY.
Proof.
  split; [|split; [|split]].
  - destruct t; apply (bool_decide_unpack _); by vm_compute.
  - destruct t; apply (bool_decide_unpack _); by vm_compute.
  - apply (bool_decide_unpack _). by vm_compute.
  - apply (bool_decide_unpack _). by vm_compute.
Qed.

(** X6: every relationship name listed as compatible with a label is the
    value of a relationship type. *)
Theorem compatible_relationships_resolve (l : NodeLabelType.t)
    (name : string) :
  name ∈ NodeLabelType.compatible_relationships l →
  ∃ t, RelationshipType.of_value name = Return t
       ∧ RelationshipType.value t = name.
Proof.
  intros Hin. destruct l; vm_compute in Hin;
    repeat (apply elem_of_cons in Hin as [->|Hin];
            [eexists; split; by vm_compute|]);
    by apply elem_of_nil in Hin.
Qed.

Lemma compatible_relationships_resolve_witness :
  ∃ t, RelationshipType.of_value "DEFINED_BY" = Return t
       ∧ RelationshipType.value t = "DEFINED_BY".
Proof.
  apply (compatible_relationships_resolve NodeLabelType.CONCEPT).
  apply (bool_decide_unpack _). by vm_compute.
Defined.

(** X7: the label pairs declared compatible with a relationship type are
    pairs of label values, and every pair declared for [IS_A] joins a
    child to its parent in the label hierarchy. *)
Theorem compatible_pairs_are_labels (t : RelationshipType.t)
    (a b : string) :
  (a, b) ∈ compatible_node_pairs t →
  (∃ la lb, NodeLabelType.of_value a = Return la
            ∧ NodeLabelType.of_value b = Return lb)
  ∧ (t = RelationshipType.IS_A →
     ∃ children,
       RelationshipType.assoc b NodeLabelType.get_label_hierarchy
         = Some children
       ∧ a ∈ children).
Proof.
  intros Hin. destruct t; vm_compute in Hin;
    repeat (apply elem_of_cons in Hin as [[= -> ->]|Hin];
            [split;
             [eexists _, _; split; by vm_compute
             |intros Ht;
              first [discriminate Ht
                    |eexists; split;
                     [by vm_compute
                     |apply (bool_decide_unpack _); by vm_compute]]]
            |]);
    by apply elem_of_nil in Hin.
Qed.

Lemma compatible_pairs_are_labels_witness :
  ∃ children,
    RelationshipType.assoc "EnergyTerm" NodeLabelType.get_label_hierarchy
      = Some children
    ∧ "FossilFuel" ∈ children.
Proof.
  destruct (compatible_pairs_are_labels RelationshipType.IS_A
              "FossilFuel" "EnergyTerm") as [_ Hparent].
  - apply (bool_decide_unpack _). by vm_compute.
  - by apply Hparent.
Defined.

(** ** Parsing type names *)

(** X8: [NodeLabelType.from_string] reads back the value of every label,
    whatever its letter case and surrounding blanks. *)
Theorem label_from_string_value (l : NodeLabelType.t) :
  NodeLabelType.from_string (NodeLabelType.value l) = l
  ∧ NodeLabelType.from_string (PyString.lower (NodeLabelType.value l)) = l
  ∧ NodeLabelType.from_string (PyString.upper (NodeLabelType.value l)) = l
  ∧ NodeLabelType.from_string ("  " +:+ NodeLabelType.value l +:+ " ") = l.
Proof. destruct l; repeat split; by_evaluation. Qed.

(** X9: the heuristics of [NodeLabelType.from_string] never produce
    [CONCEPT]: the branch for the keyword [concept] lies behind the branch
    for [tech] or [concept], so [CONCEPT] is returned only for text that
    is the word itself, up to case and surrounding blanks. *)
Theorem label_concept_only_exact (text : string) :
  NodeLabelType.from_string text = NodeLabelType.CONCEPT →
  PyString.strip (PyString.lower text) = "concept".
Proof.
  unfold NodeLabelType.from_string.
  generalize (PyString.strip (PyString.lower text)). intros value H.
  destruct (List.find _ NodeLabelType.members) as [label|] eqn:Hfind.
  - subst label. apply List.find_some in Hfind as [_ Hfind].
    apply bool_decide_eq_true_1 in Hfind. by rewrite <- Hfind.
  - destruct (PyString.contains "concept" value).
    + rewrite orb_true_r in H.
      repeat match type of H with
             | context [if ?b then _ else _] =>
                 destruct b; [discriminate H|]
             end.
      discriminate H.
    + repeat match type of H with
             | context [if ?b then _ else _] =>
                 destruct b; try discriminate H
             end.
Qed.

Lemma label_concept_only_exact_witness :
  PyString.strip (PyString.lower " Concept ") = "concept".
Proof.
  apply (label_concept_only_exact " Concept "). by_evaluation.
Defined.

(** X10: [RelationshipType.from_string] reads back the value of every
    relationship type, also in lower case and with blanks in place of
    underscores. *)
Theorem relationship_from_string_value (t : RelationshipType.t) :
  RelationshipType.from_string (RelationshipType.value t) = t
  ∧ RelationshipType.from_string
      (PyString.lower (RelationshipType.value t)) = t
  ∧ RelationshipType.from_string
      (PyString.map (λ c, if decide (c = "_"%char) then " "%char else c)
         (RelationshipType.value t)) = t.
Proof. destruct t; repeat split; by_evaluation. Qed.

(** X11: [ValidationStatusType.from_string] reads back the value of
    every status, also in upper case and with blanks in place of
    underscores. *)
Theorem status_from_string_value (s : ValidationStatusType.t) :
  ValidationStatusType.from_string (ValidationStatusType.value s) = s
  ∧ ValidationStatusType.from_string
      (PyString.upper (ValidationStatusType.value s)) = s
  ∧ ValidationStatusType.from_string
      (PyString.map (λ c, if decide (c = "_"%char) then " "%char else c)
         (ValidationStatusType.value s)) = s.
Proof. destruct s; repeat split; by_evaluation. Qed.

(** X12: [related_fuel_groups] builds its table on every call and the
    table names [FOSSIL_FUEL], which is not a member of the enum: the
    property raises [AttributeError] for every fuel group. *)
Theorem related_fuel_groups_raises (g : FuelGroupType.t) :
  FuelGroupType.related_fuel_groups g = Raise (AttributeError "FOSSIL_FUEL").
Proof. destruct g; by_evaluation. Qed.

(** X13: [FuelGroupType.from_string] reads back the value of every fuel
    group; when it fails, it fails with [ValueError] carrying the
    normalised text; and no fuel group is both renewable and fossil. *)
Theorem fuel_group_from_string (g : FuelGroupType.t) (text : string) :
  FuelGroupType.from_string (FuelGroupType.value g) = Return g
  ∧ FuelGroupType.from_string (PyString.upper (FuelGroupType.value g))
    = Return g
  ∧ (FuelGroupType.is_renewable g && FuelGroupType.is_fossil_fuel g = false)
  ∧ (∀ e, FuelGroupType.from_string text = Raise e →
       e = ValueError ("No matching fuel group found for: "
                       +:+ PyString.strip (PyString.lower text))).
Proof.
  split; [destruct g; by_evaluation|]. split; [destruct g; by_evaluation|].
  split; [destruct g; by_evaluation|].
  unfold FuelGroupType.from_string.
  generalize (PyString.strip (PyString.lower text)). intros value e H.
  destruct (FuelGroupType.of_value value); [discriminate H|].
  repeat match type of H with
         | context [if ?b then _ else _] => destruct b; [discriminate H|]
         end.
  by injection H as <-.
Qed.

Lemma fuel_group_from_string_witness :
  FuelGroupType.from_string "plasma"
  = Raise (ValueError "No matching fuel group found for: plasma").
Proof.
  destruct (fuel_group_from_string FuelGroupType.COAL "plasma")
    as (_ & _ & _ & Herr).
  assert (∃ e, FuelGroupType.from_string "plasma" = Raise e) as [e He].
  { eexists. by vm_compute. }
  rewrite He. f_equal. rewrite (Herr e He). by_evaluation.
Defined.

(** * Further properties of the decorators *)

Lemma sleeps_app tr tr' :
  AtlasOperation.sleeps (tr ++ tr')
  = AtlasOperation.sleeps tr + AtlasOperation.sleeps tr'.
Proof.
  unfold AtlasOperation.sleeps. by rewrite filter_app, length_app.
Qed.

Lemma retry_rounds_counts (m : nat) (d : Q) :
  AtlasOperation.invocations
    (concat (replicate m [AtlasOperation.Invoke; AtlasOperation.Sleep d])) = m
  ∧ AtlasOperation.sleeps
      (concat (replicate m [AtlasOperation.Invoke; AtlasOperation.Sleep d]))
    = m.
Proof.
  induction m as [|m [IHi IHs]]; [done|].
  cbn [replicate concat]. rewrite invocations_app, sleeps_app, IHi, IHs.
  done.
Qed.

Section envelope_further.
Context {A W V : Type}.
Variable cfg : AtlasOperation.config.
Variable func_name : string.
Variable func : A → W → result V * W.
Variable instance : A → option (AtlasOperation.instance_view W).
Variable operation_cache : W → option (gmap string V).
Variable set_operation_cache : gmap string V → W → W.
Variables str_args str_kwargs : A → string.

Local Abbreviation wrapper :=
  (AtlasOperation.wrapper cfg func_name func instance operation_cache
     set_operation_cache str_args str_kwargs).
Local Abbreviation retry_loop :=
  (AtlasOperation.retry_loop cfg func_name func instance operation_cache
     set_operation_cache str_args str_kwargs).
Local Abbreviation cache_lookup :=
  (AtlasOperation.cache_lookup cfg func_name instance operation_cache
     str_args str_kwargs).
Local Abbreviation cache_store :=
  (AtlasOperation.cache_store cfg func_name instance operation_cache
     set_operation_cache str_args str_kwargs).
Local Abbreviation validation_gate :=
  (AtlasOperation.validation_gate cfg instance).
Local Abbreviation round :=
  [AtlasOperation.Invoke;
   AtlasOperation.Sleep (AtlasOperation.retry_delay cfg)].

(** X14: when validation is required and the instance's [validate]
    returns [False], the call raises [ValueError] naming the operation
    type without invoking the wrapped function, whatever the number of
    retries; an exception of [validate] itself passes through the same
    way; only [True] lets the call reach the retry loop. *)
Theorem validation_gate_blocks (a : A) (w : W)
    (i : AtlasOperation.instance_view W)
    (validate : W → result bool * W) :
  AtlasOperation.requires_validation cfg = true →
  cache_lookup a w = None →
  instance a = Some i →
  AtlasOperation.validate_attr i = Some validate →
  (∀ w', validate w = (Return false, w') →
     wrapper a w
     = (Raise (ValueError ("Validation failed for "
                 +:+ AtlasOperation.operation_type cfg +:+ " operation")),
        w', []))
  ∧ (∀ e w', validate w = (Raise e, w') → wrapper a w = (Raise e, w', []))
  ∧ (∀ w', validate w = (Return true, w') →
       wrapper a w
       = retry_loop (Z.to_nat (AtlasOperation.retry_attempts cfg + 1))
           a None w' []).
Proof.
  intros Hreq Hmiss Hinst Hattr.
  unfold AtlasOperation.wrapper. rewrite Hmiss.
  unfold AtlasOperation.validation_gate. rewrite Hreq, Hinst, Hattr.
  repeat split; intros; by match goal with H : validate w = _ |- _ =>
                                 rewrite H end.
Qed.

(** X15: with a negative [retry_attempts] the wrapped function is never
    invoked: a call returns only what the operation cache holds, and
    otherwise, once the validation gate is passed, it fails on the
    [assert] behind the loop. *)
Theorem negative_retry_never_invokes (a : A) (w : W) :
  (AtlasOperation.retry_attempts cfg < 0)%Z →
  (wrapper a w).2 = []
  ∧ (∀ v, (wrapper a w).1.1 = Return v → cache_lookup a w = Some v)
  ∧ (∀ w1, cache_lookup a w = None →
       validation_gate a w = (Return (), w1) →
       wrapper a w = (Raise AssertionError, w1, [])).
Proof.
  intros Hneg.
  assert (Z.to_nat (AtlasOperation.retry_attempts cfg + 1) = 0) as Hbudget
    by lia.
  unfold AtlasOperation.wrapper. rewrite Hbudget.
  destruct (cache_lookup a w) as [v0|].
  { cbn. split; [done|]. split; [by intros v [= ->]|by intros]. }
  destruct (validation_gate a w) as [[[]|e] w'] eqn:Hgate; cbn.
  - split; [done|]. split; [by intros|]. by intros w1 _ [= <-].
  - split; [done|]. split; by intros.
Qed.

Lemma retry_loop_shape budget : ∀ a last_error w tr,
  ∃ m, m ≤ budget
    ∧ (retry_loop (S budget) a last_error w tr).2
      = tr ++ concat (replicate m round) ++ [AtlasOperation.Invoke]
    ∧ (∀ e, (retry_loop (S budget) a last_error w tr).1.1 = Raise e →
         m = budget).
Proof.
  induction budget as [|budget IH]; intros a last_error w tr.
  - exists 0. cbn [AtlasOperation.retry_loop].
    destruct (func a w) as [[v|e] w']; cbn; by repeat split.
  - change (retry_loop (S (S budget)) a last_error w tr)
      with (match func a w with
            | (Return res, w') =>
                (Return res, cache_store a res w',
                 tr ++ [AtlasOperation.Invoke])
            | (Raise e, w') =>
                retry_loop (S budget) a (Some e) w' (tr ++ round)
            end).
    destruct (func a w) as [[v|e] w'].
    + exists 0. cbn. repeat split; [lia|done].
    + destruct (IH a (Some e) w' (tr ++ round)) as (m & Hm & Htr & Hraise).
      exists (S m). split; [lia|]. split.
      * rewrite Htr. cbn [replicate concat]. by rewrite <- !(assoc_L (++)).
      * intros e' He'. by rewrite (Hraise e' He').
Qed.

(** X16: a call that reaches the retry loop with a non-negative
    [retry_attempts] runs some number [m <= retry_attempts] of rounds
    "invoke, then sleep [retry_delay]" followed by one last invocation
    without a sleep; a call that ends in an exception has used every
    round. *)
Theorem retry_trace_shape (a : A) (w w1 : W) :
  (0 ≤ AtlasOperation.retry_attempts cfg)%Z →
  cache_lookup a w = None →
  validation_gate a w = (Return (), w1) →
  ∃ m, m ≤ Z.to_nat (AtlasOperation.retry_attempts cfg)
    ∧ (wrapper a w).2
      = concat (replicate m round) ++ [AtlasOperation.Invoke]
    ∧ AtlasOperation.invocations (wrapper a w).2 = S m
    ∧ AtlasOperation.sleeps (wrapper a w).2 = m
    ∧ (∀ e, (wrapper a w).1.1 = Raise e →
         m = Z.to_nat (AtlasOperation.retry_attempts cfg)).
Proof.
  intros Hnonneg Hmiss Hgate.
  unfold AtlasOperation.wrapper. rewrite Hmiss, Hgate.
  replace (Z.to_nat (AtlasOperation.retry_attempts cfg + 1))
    with (S (Z.to_nat (AtlasOperation.retry_attempts cfg))) by lia.
  destruct (retry_loop_shape (Z.to_nat (AtlasOperation.retry_attempts cfg))
              a None w1 []) as (m & Hm & Htr & Hraise).
  exists m. split; [done|]. split; [done|].
  rewrite Htr. cbn [app].
  destruct (retry_rounds_counts m (AtlasOperation.retry_delay cfg))
    as [Hi Hs].
  rewrite invocations_app, sleeps_app, Hi, Hs.
  change (AtlasOperation.sleeps [AtlasOperation.Invoke]) with 0.
  split; [rewrite invocations_invoke; lia|].
  split; [lia|done].
Qed.

Section failures.
Hypothesis Hfunc : ∀ a w r w',
  func a w = (r, w') → operation_cache w' = operation_cache w.
Hypothesis Hvalidate : ∀ a i validate w r w',
  instance a = Some i → AtlasOperation.validate_attr i = Some validate →
  validate w = (r, w') → operation_cache w' = operation_cache w.

Lemma retry_loop_failure budget : ∀ a last_error w tr e,
  (retry_loop budget a last_error w tr).1.1 = Raise e →
  operation_cache (retry_loop budget a last_error w tr).1.2
  = operation_cache w.
Proof.
  induction budget as [|budget IH]; intros a last_error w tr e.
  - cbn. by destruct last_error.
  - cbn [AtlasOperation.retry_loop].
    destruct (func a w) as [[v|e0] w'] eqn:Hf; [done|].
    destruct budget as [|budget].
    + intros _. cbn. by apply (Hfunc _ _ _ _ Hf).
    + intros He. rewrite (IH _ _ _ _ _ He). by apply (Hfunc _ _ _ _ Hf).
Qed.

Lemma retry_loop_uncached budget : ∀ a last_error w tr,
  AtlasOperation.cache_result cfg = false →
  operation_cache (retry_loop budget a last_error w tr).1.2
  = operation_cache w.
Proof.
  intros a last_error w tr Hoff. revert last_error w tr.
  induction budget as [|budget IH]; intros last_error w tr.
  - cbn. by destruct last_error.
  - cbn [AtlasOperation.retry_loop].
    destruct (func a w) as [[v|e0] w'] eqn:Hf.
    + cbn. unfold AtlasOperation.cache_store. rewrite Hoff.
      by apply (Hfunc _ _ _ _ Hf).
    + destruct budget as [|budget].
      * cbn. by apply (Hfunc _ _ _ _ Hf).
      * rewrite IH. by apply (Hfunc _ _ _ _ Hf).
Qed.

Lemma validation_gate_keeps_cache a w :
  operation_cache (validation_gate a w).2 = operation_cache w.
Proof.
  unfold AtlasOperation.validation_gate.
  destruct (AtlasOperation.requires_validation cfg); [|done].
  destruct (instance a) as [i|] eqn:Hi; [|done].
  destruct (AtlasOperation.validate_attr i) as [validate|] eqn:Hv; [|done].
  destruct (validate w) as [[[]|e] w'] eqn:Hw; cbn;
    by apply (Hvalidate _ _ _ _ _ _ Hi Hv Hw).
Qed.

(** X17: when neither the wrapped function nor [validate] touches the
    operation cache, a call that ends in an exception leaves the cache as
    it was (failures are not cached), and so does every call when
    [cache_result] is off. *)
Theorem failure_leaves_cache (a : A) (w : W) :
  (∀ e, (wrapper a w).1.1 = Raise e →
     operation_cache (wrapper a w).1.2 = operation_cache w)
  ∧ (AtlasOperation.cache_result cfg = false →
     operation_cache (wrapper a w).1.2 = operation_cache w).
Proof.
  pose proof (validation_gate_keeps_cache a w) as Hgate.
  unfold AtlasOperation.wrapper.
  split.
  - destruct (cache_lookup a w) as [v|]; [done|].
    destruct (validation_gate a w) as [[[]|e0] w'].
    + intros e He. by rewrite (retry_loop_failure _ _ _ _ _ _ He).
    + by intros.
  - intros Hoff.
    destruct (cache_lookup a w) as [v|]; [done|].
    destruct (validation_gate a w) as [[[]|e0] w'].
    + by rewrite retry_loop_uncached.
    + done.
Qed.

End failures.

End envelope_further.

Lemma validation_gate_blocks_witness :
  AtlasOperation.wrapper
    (AtlasOperation.Config "update" true 3 1 false) "update"
    (λ p self, ATLASNode.update_func 5 p self)
    (λ _, Some (ATLASNode.as_instance 5))
    ATLASNode.no_operation_cache ATLASNode.keep (λ _, "") (λ _, "")
    solar_completion solar
  = (Raise (ValueError "Validation failed for update operation"),
     (ATLASNode.validate 5 solar).2, []).
Proof.
  assert (ATLASNode.validate 5 solar
          = (Return false, (ATLASNode.validate 5 solar).2)) as Hvalidate.
  { destruct (validate_consistent 5 solar) as [Hres _]; [by intros c|].
    rewrite (surjective_pairing (ATLASNode.validate 5 solar)) at 1.
    rewrite Hres.
    assert (bool_decide (missing_of solar = ∅) = false) as ->; [|done].
    apply bool_decide_eq_false. apply (bool_decide_unpack _).
    by vm_compute. }
  destruct (validation_gate_blocks
              (AtlasOperation.Config "update" true 3 1 false) "update"
              (λ p self, ATLASNode.update_func 5 p self)
              (λ _, Some (ATLASNode.as_instance 5))
              ATLASNode.no_operation_cache ATLASNode.keep
              (λ _, "") (λ _, "")
              solar_completion solar (ATLASNode.as_instance 5)
              (ATLASNode.validate 5)) as (Hblocked & _ & _);
    [reflexivity..|].
  exact (Hblocked _ Hvalidate).
Defined.

Lemma negative_retry_never_invokes_witness :
  flaky_wrapped (-1) () 0 = (Raise AssertionError, 0, []).
Proof.
  destruct (negative_retry_never_invokes
              (AtlasOperation.Config "demo" false (-1) 1 false) "flaky" flaky
              (λ _, Some (AtlasOperation.InstanceView None))
              (λ _, None) (λ _ w, w) (λ _, "()") (λ _, "{}") () 0)
    as (_ & _ & Hassert); [cbn; lia|].
  by apply Hassert.
Defined.

Lemma retry_trace_shape_witness :
  ∃ m, m ≤ 2
    ∧ (flaky_wrapped 2 () 0).2
      = concat (replicate m [AtlasOperation.Invoke; AtlasOperation.Sleep 1])
        ++ [AtlasOperation.Invoke]
    ∧ AtlasOperation.sleeps (flaky_wrapped 2 () 0).2 = m.
Proof.
  destruct (retry_trace_shape
              (AtlasOperation.Config "demo" false 2 1 false) "flaky" flaky
              (λ _, Some (AtlasOperation.InstanceView None))
              (λ _, None) (λ _ w, w) (λ _, "()") (λ _, "{}") () 0 0)
    as (m & Hm & Htr & _ & Hs & _); [cbn; lia|reflexivity|reflexivity|].
  exists m. by repeat split.
Defined.

Lemma failure_leaves_cache_witness :
  (measure_nonempty_cached ""
     (Some {[ "measure_(<obj>, 'x')_{}" := 1 ]}, 1)).1.2.1
  = Some {[ "measure_(<obj>, 'x')_{}" := 1 ]}.
Proof.
  destruct (failure_leaves_cache
              (AtlasOperation.Config "demo" false 1 1 true) "measure"
              measure_nonempty
              (λ _, Some (AtlasOperation.InstanceView None))
              fst (λ c self, (Some c, self.2))
              (λ arg, "(<obj>, '" +:+ arg +:+ "')") (λ _, "{}"))
    with (a := "") (w := (Some ({[ "measure_(<obj>, 'x')_{}" := 1 ]}
                                 : gmap string nat), 1))
    as [Hfailure _].
  - intros a w r w' Hf. unfold measure_nonempty, measure in Hf.
    destruct (decide (a = "")); by injection Hf as _ <-.
  - intros a i validate w r w' [= <-] Hnone. discriminate Hnone.
  - apply (Hfailure (ValueError "empty")). by vm_compute.
Defined.

(** ** The FABRIC pattern decorator *)

Section fabric.
Context {A W V : Type}.
Variable pattern_name : string.
Variable func : A → W → result V * W.
Variable fabric_registry : A → W → option (FabricPattern.registry V).

Local Abbreviation fabric_wrapper :=
  (FabricPattern.wrapper pattern_name func fabric_registry).

(** X18: the FABRIC decorator invokes the wrapped function once or
    twice.  Without a registry, or without the named pattern in it, it
    returns what the function returns.  With the pattern, a successful
    call whose result the pattern processes returns the processed result;
    when the function raises, or the pattern does, the function is
    invoked a second time on the state the first call left, and the
    second call's outcome is returned unprocessed. *)
Theorem fabric_pattern_fallback (a : A) (w : W) :
  (1 ≤ AtlasOperation.invocations (fabric_wrapper a w).2 ≤ 2)
  ∧ (fabric_registry a w = None →
     fabric_wrapper a w = (func a w, [AtlasOperation.Invoke]))
  ∧ (∀ reg, fabric_registry a w = Some reg →
       FabricPattern.get_pattern reg pattern_name = None →
       fabric_wrapper a w = (func a w, [AtlasOperation.Invoke]))
  ∧ (∀ reg pat, fabric_registry a w = Some reg →
       FabricPattern.get_pattern reg pattern_name = Some pat →
       (∀ res w' enhanced, func a w = (Return res, w') →
          FabricPattern.process pat res = Return enhanced →
          fabric_wrapper a w
          = (Return enhanced, w', [AtlasOperation.Invoke]))
       ∧ (∀ res w' e, func a w = (Return res, w') →
            FabricPattern.process pat res = Raise e →
            fabric_wrapper a w
            = (func a w', [AtlasOperation.Invoke; AtlasOperation.Invoke]))
       ∧ (∀ e w', func a w = (Raise e, w') →
            fabric_wrapper a w
            = (func a w', [AtlasOperation.Invoke; AtlasOperation.Invoke]))).
Proof.
  unfold FabricPattern.wrapper, FabricPattern.call.
  split; [|split; [|split]].
  - destruct (fabric_registry a w) as [reg|];
      [destruct (FabricPattern.get_pattern reg pattern_name) as [pat|]|].
    + destruct (func a w) as [[res|e] w'].
      * destruct (FabricPattern.process pat res);
          [by vm_compute; lia|].
        destruct (func a w') as [r w'']. by vm_compute; lia.
      * destruct (func a w') as [r w'']. by vm_compute; lia.
    + destruct (func a w) as [r w']. by vm_compute; lia.
    + destruct (func a w) as [r w']. by vm_compute; lia.
  - intros ->. by destruct (func a w).
  - intros reg -> ->. by destruct (func a w).
  - intros reg pat -> ->. repeat split.
    + by intros res w' enhanced -> ->.
    + intros res w' e -> ->. by destruct (func a w').
    + intros e w' ->. by destruct (func a w').
Qed.

End fabric.

Lemma fabric_pattern_fallback_witness :
  FabricPattern.wrapper "analyze_claims" flaky
    (λ _ _, Some (FabricPattern.Registry
                    (λ _, Some (FabricPattern.Pattern Return)))) () 0
  = (Raise (RuntimeError "transient"), 2,
     [AtlasOperation.Invoke; AtlasOperation.Invoke]).
Proof.
  destruct (fabric_pattern_fallback "analyze_claims" flaky
              (λ _ _, Some (FabricPattern.Registry
                              (λ _, Some (FabricPattern.Pattern Return))))
              () 0) as (_ & _ & _ & Hpattern).
  destruct (Hpattern _ (FabricPattern.Pattern Return) eq_refl eq_refl)
    as (_ & _ & Hraise).
  exact (Hraise (RuntimeError "transient") 1 eq_refl).
Defined.

Section stacked_decorators.
Context {A W V : Type}.
Variables (operation_type func_name pattern_name : string) (delay : Q).
Variable func : A → W → result V * W.
Variable instance : A → option (AtlasOperation.instance_view W).
Variable operation_cache : W → option (gmap string V).
Variable set_operation_cache : gmap string V → W → W.
Variables str_args str_kwargs : A → string.

(** X19: a function under [@atlas_operation(operation_type)] with the
    other options at their defaults, stacked on [@fabric_pattern], called
    on an object without FABRIC registry, returns what the function
    returns and leaves the state the function leaves, after a single
    invocation. *)
Theorem stacked_decorators_pass_through (a : A) (w : W) :
  AtlasOperation.wrapper
    (AtlasOperation.Config operation_type false 0 delay false) func_name
    (λ a w,
       AtlasOperation.outcome
         (FabricPattern.wrapper pattern_name func (λ _ _, None) a w))
    instance operation_cache set_operation_cache str_args str_kwargs a w
  = (func a w, [AtlasOperation.Invoke])
  ∧ FabricPattern.wrapper pattern_name func (λ _ _, None) a w
    = (func a w, [AtlasOperation.Invoke]).
Proof.
  assert (FabricPattern.wrapper pattern_name func (λ _ _, None) a w
          = (func a w, [AtlasOperation.Invoke])) as Hinner.
  { unfold FabricPattern.wrapper, FabricPattern.call.
    by destruct (func a w). }
  split; [|done].
  rewrite wrapper_default. rewrite Hinner.
  unfold AtlasOperation.outcome. by destruct (func a w).
Qed.

End stacked_decorators.

(** * Further properties of the descriptors *)

Section cached_property.
Context {I V : Type} `{!CachedProperty.Host I V}.
Hypothesis Hlaw : ∀ (c : gmap string (CachedProperty.entry V)) (i : I),
  CachedProperty.cached_properties (CachedProperty.set_cached_properties c i)
  = Some c.

Lemma cached_get_some (func : Z → I → V * I) (ttl : option Z)
    (name : string) (now : Z) (i : I) c :
  CachedProperty.cached_properties i = Some c →
  CachedProperty.get func ttl name now i
  = let compute :=
      let '(v, i') := func now i in
      (v, CachedProperty.set name now v i') in
    match c !! name with
    | Some e =>
        match ttl with
        | None => (CachedProperty.value e, i)
        | Some d =>
            if bool_decide (now - CachedProperty.timestamp e < d)%Z
            then (CachedProperty.value e, i) else compute
        end
    | None => compute
    end.
Proof.
  intros Hc. unfold CachedProperty.get, CachedProperty.set. cbv zeta.
  rewrite Hc. cbv beta iota. by rewrite Hc.
Qed.

(** X20: a value stored with [__set__] at time [now] is what [__get__]
    returns at a later time, without calling the function, as long as
    there is no TTL or less than the TTL has passed; once the TTL has
    passed, and also after [__delete__], the function is called again and
    its value is stored with the time of that call. *)
Theorem cached_property_ttl (func : Z → I → V * I) (ttl : option Z)
    (name : string) (now later : Z) (v : V) (i : I) :
  let i1 := CachedProperty.set name now v i in
  let recompute (i0 : I) :=
    let '(v', i2) := func later i0 in
    (v', CachedProperty.set name later v' i2) in
  (match ttl with Some d => (later - now < d)%Z | None => True end →
   CachedProperty.get func ttl name later i1 = (v, i1))
  ∧ (∀ d, ttl = Some d → (d ≤ later - now)%Z →
       CachedProperty.get func ttl name later i1 = recompute i1)
  ∧ CachedProperty.get func ttl name later (CachedProperty.delete name i1)
    = recompute (CachedProperty.delete name i1).
Proof.
  intros i1 recompute.
  assert (CachedProperty.cached_properties i1
          = Some (<[name := CachedProperty.Entry v now]>
                    (default ∅ (CachedProperty.cached_properties i)))) as Hi1
    by apply Hlaw.
  split; [|split].
  - intros Hfresh. rewrite (cached_get_some _ _ _ _ _ _ Hi1).
    rewrite lookup_insert_eq. destruct ttl as [d|]; [|done].
    cbn [CachedProperty.timestamp CachedProperty.value].
    by rewrite bool_decide_eq_true_2.
  - intros d -> Hstale. rewrite (cached_get_some _ _ _ _ _ _ Hi1).
    rewrite lookup_insert_eq.
    cbn [CachedProperty.timestamp CachedProperty.value].
    by rewrite bool_decide_eq_false_2 by lia.
  - assert (CachedProperty.cached_properties (CachedProperty.delete name i1)
            = Some (delete name
                      (<[name := CachedProperty.Entry v now]>
                         (default ∅ (CachedProperty.cached_properties i)))))
      as Hdel.
    { unfold CachedProperty.delete. rewrite Hi1. apply Hlaw. }
    rewrite (cached_get_some _ _ _ _ _ _ Hdel). by rewrite lookup_delete_eq.
Qed.

End cached_property.

Lemma cached_property_ttl_witness :
  CachedProperty.get (λ _ (n : ATLASNode.t), ({[ "fresh" ]}, n)) (Some 10%Z)
    "slot" 5 (CachedProperty.set "slot" 0 {[ "old" ]} solar)
  = ({[ "old" ]}, CachedProperty.set "slot" 0 {[ "old" ]} solar)
  ∧ CachedProperty.get (λ _ (n : ATLASNode.t), ({[ "fresh" ]}, n))
      (Some 10%Z) "slot" 10 (CachedProperty.set "slot" 0 {[ "old" ]} solar)
    = ({[ "fresh" ]},
       CachedProperty.set "slot" 10 {[ "fresh" ]}
         (CachedProperty.set "slot" 0 {[ "old" ]} solar)).
Proof.
  split.
  - destruct (@cached_property_ttl ATLASNode.t (gset string) ATLASNode.host
                (λ c i, eq_refl)
                (λ _ n, ({[ "fresh" ]}, n)) (Some 10%Z) "slot" 0 5
                {[ "old" ]} solar) as (Hfresh & _ & _).
    apply Hfresh. lia.
  - destruct (@cached_property_ttl ATLASNode.t (gset string) ATLASNode.host
                (λ c i, eq_refl)
                (λ _ n, ({[ "fresh" ]}, n)) (Some 10%Z) "slot" 0 10
                {[ "old" ]} solar) as (_ & Hstale & _).
    apply (Hstale 10%Z eq_refl). lia.
Defined.

Section lazy_property.
Context {I V : Type} `{!LazyProperty.Host I V}.
Hypothesis Hlaw : ∀ (m : gmap string V) (i : I),
  LazyProperty.lazy_properties (LazyProperty.set_lazy_properties m i) = Some m.

Lemma lazy_get_some (func : I → V * I) (name : string) (i : I) m :
  LazyProperty.lazy_properties i = Some m →
  LazyProperty.get func name i
  = match m !! name with
    | Some v => (v, i)
    | None => let '(v, i') := func i in (v, LazyProperty.set name v i')
    end.
Proof.
  intros Hm. unfold LazyProperty.get, LazyProperty.set. cbv zeta.
  rewrite Hm. cbv beta iota. by rewrite Hm.
Qed.

Lemma lazy_get_stored (func : I → V * I) (name : string) (i : I) :
  ∃ m, LazyProperty.lazy_properties (LazyProperty.get func name i).2 = Some m
       ∧ m !! name = Some (LazyProperty.get func name i).1.
Proof.
  destruct (LazyProperty.lazy_properties i) as [m|] eqn:Hi.
  - rewrite (lazy_get_some _ _ _ _ Hi).
    destruct (m !! name) as [v|] eqn:Hm.
    + exists m. cbn [fst snd]. by rewrite Hi.
    + destruct (func i) as [v i']. eexists. split; [apply Hlaw|].
      by rewrite lookup_insert_eq.
  - assert (LazyProperty.get func name i
            = LazyProperty.get func name
                (LazyProperty.set_lazy_properties ∅ i)) as ->.
    { unfold LazyProperty.get. cbv zeta. rewrite Hi, !Hlaw. done. }
    rewrite (lazy_get_some _ _ _ _ (Hlaw ∅ i)), lookup_empty.
    destruct (func _) as [v i']. eexists. split; [apply Hlaw|].
    by rewrite lookup_insert_eq.
Qed.

(** X21: a lazy property is computed at most once: after a first read,
    every further read returns the same value without calling the
    function and leaves the instance as it is, whatever function the
    descriptor would call; a value assigned with [__set__] is read back;
    and after [__delete__] the next read computes again. *)
Theorem lazy_property_once (func func' : I → V * I) (name : string)
    (v : V) (i : I) :
  LazyProperty.get func' name (LazyProperty.get func name i).2
  = LazyProperty.get func name i
  ∧ LazyProperty.get func name (LazyProperty.set name v i)
    = (v, LazyProperty.set name v i)
  ∧ LazyProperty.get func name
      (LazyProperty.delete name (LazyProperty.set name v i))
    = (let '(v', i2) :=
         func (LazyProperty.delete name (LazyProperty.set name v i)) in
       (v', LazyProperty.set name v' i2)).
Proof.
  split; [|split].
  - destruct (lazy_get_stored func name i) as (m & Hm & Hv).
    rewrite (lazy_get_some _ _ _ _ Hm), Hv.
    by destruct (LazyProperty.get func name i).
  - unfold LazyProperty.set.
    rewrite (lazy_get_some _ _ _ _ (Hlaw _ _)). by rewrite lookup_insert_eq.
  - assert (LazyProperty.lazy_properties
              (LazyProperty.delete name (LazyProperty.set name v i))
            = Some (delete name
                      (<[name := v]>
                         (default ∅ (LazyProperty.lazy_properties i)))))
      as Hdel.
    { unfold LazyProperty.delete, LazyProperty.set. rewrite Hlaw.
      apply Hlaw. }
    rewrite (lazy_get_some _ _ _ _ Hdel). by rewrite lookup_delete_eq.
Qed.

End lazy_property.

Lemma lazy_property_once_witness :
  LazyProperty.get count_calls "n" (Gadget None None 0)
  = (1, Gadget (Some {[ "n" := 1 ]}) None 1)
  ∧ LazyProperty.get count_calls "n"
      (LazyProperty.get count_calls "n" (Gadget None None 0)).2
    = (1, Gadget (Some {[ "n" := 1 ]}) None 1).
Proof.
  assert (LazyProperty.get count_calls "n" (Gadget None None 0)
          = (1, Gadget (Some {[ "n" := 1 ]}) None 1)) as Hfirst.
  { unfold LazyProperty.get. cbn. by rewrite insert_empty. }
  split; [done|].
  destruct (@lazy_property_once gadget nat gadget_lazy_host (λ m i, eq_refl)
              count_calls count_calls "n" 0 (Gadget None None 0))
    as (Honce & _ & _).
  by rewrite Honce.
Defined.

Section validated_property.
Context {I V : Type} `{!ValidatedProperty.Host I V}.
Hypothesis Hlaw : ∀ (m : gmap string V) (i : I),
  ValidatedProperty.validated_properties
    (ValidatedProperty.set_validated_properties m i) = Some m.

Variable validator : I → V → bool.
Variable default_value : option V.
Variable error_message : option string.
Variable name : string.
Variable str_value : V → string.

Local Abbreviation vget :=
  (ValidatedProperty.get default_value name).
Local Abbreviation vset :=
  (ValidatedProperty.set validator error_message name str_value).

Lemma validated_get_some (i : I) m :
  ValidatedProperty.validated_properties i = Some m →
  vget i
  = (match m !! name with Some v => Some v | None => default_value end, i).
Proof.
  intros Hm. unfold ValidatedProperty.get. cbv zeta.
  rewrite Hm. cbv beta iota. by rewrite Hm.
Qed.

(** X22: a value the validator accepts is stored and read back; a value
    it rejects raises the descriptor's [ValidationError], whose text ends
    in the rendering of the value and, when no message (or an empty one)
    was configured, begins with "Validation failed for" and the property
    name, and the instance is left unchanged; after [__delete__] the
    default is read again. *)
Theorem validated_property_guard (v : V) (i : I) :
  (validator i v = true →
     (vset v i).1 = Return ()
     ∧ (vget (vset v i).2).1 = Some v
     ∧ (vget (ValidatedProperty.delete name (vset v i).2)).1 = default_value)
  ∧ (validator i v = false →
       vset v i
       = (Raise (PropertyValidationError
                   (ValidatedProperty.message error_message name
                    +:+ ": " +:+ str_value v)), i))
  ∧ (error_message = None ∨ error_message = Some "" →
       ValidatedProperty.message error_message name
       = "Validation failed for " +:+ name).
Proof.
  split; [|split].
  - intros Hok. unfold ValidatedProperty.set. rewrite Hok. cbn [fst snd].
    split; [done|]. split.
    + rewrite (validated_get_some _ _ (Hlaw _ _)). cbn [fst].
      by rewrite lookup_insert_eq.
    + unfold ValidatedProperty.delete. rewrite Hlaw.
      rewrite (validated_get_some _ _ (Hlaw _ _)). cbn [fst].
      by rewrite lookup_delete_eq.
  - intros Hbad. unfold ValidatedProperty.set. by rewrite Hbad.
  - intros [->| ->]; [done|]. unfold ValidatedProperty.message.
    by rewrite decide_True.
Qed.

End validated_property.

Lemma validated_property_guard_witness :
  ValidatedProperty.set (λ _ v, bool_decide (v < 10)) None "level"
    (λ _, "12") 12 (Gadget None None 0)
  = (Raise (PropertyValidationError "Validation failed for level: 12"),
     Gadget None None 0)
  ∧ (ValidatedProperty.get (Some 0) "level"
       (ValidatedProperty.set (λ _ v, bool_decide (v < 10)) None "level"
          (λ _, "7") 7 (Gadget None None 0)).2).1
    = Some 7.
Proof.
  split.
  - destruct (@validated_property_guard gadget nat gadget_validated_host
                (λ m i, eq_refl)
                (λ _ v, bool_decide (v < 10)) (Some 0) None "level"
                (λ _, "12") 12 (Gadget None None 0)) as (_ & Hbad & _).
    by rewrite Hbad.
  - destruct (@validated_property_guard gadget nat gadget_validated_host
                (λ m i, eq_refl)
                (λ _ v, bool_decide (v < 10)) (Some 0) None "level"
                (λ _, "7") 7 (Gadget None None 0)) as (Hok & _ & _).
    by destruct Hok as (_ & Hread & _).
Defined.

(** * Further properties of nodes *)

Lemma label_of_own_value (l : NodeLabelType.t) :
  NodeLabelType.of_value (NodeLabelType.value l) = Return l.
Proof. by destruct l. Qed.

Lemma validate_label_types_cons (label : ATLASNode.label_input)
    (rest : list ATLASNode.label_input) (l : NodeLabelType.t) :
  match label with
  | ATLASNode.LabelStr s =>
      l = match NodeLabelType.of_value s with
          | Return l' => l'
          | Raise _ => NodeLabelType.from_string s
          end
  | ATLASNode.LabelEnum l' => l = l'
  | ATLASNode.LabelOther _ => False
  end →
  ATLASNode.validate_label_types (label :: rest)
  = (ls ← ATLASNode.validate_label_types rest; Return (l :: ls)).
Proof.
  destruct label as [s|l'|type_name]; [| |done]; intros ->;
    cbn [ATLASNode.validate_label_types].
  - by destruct (NodeLabelType.of_value s).
  - by rewrite label_of_own_value.
Qed.

(** X23: the label validator of a node accepts every string and every
    member of the label enum: members and their values are kept as they
    are, any other string is resolved by [from_string], which always
    answers, so the error "Invalid node label" is never raised; the
    validator fails only on an input that is neither, with
    [ValidationError] "Invalid node label type". *)
Theorem label_inputs (v : list ATLASNode.label_input) :
  (∀ e, ATLASNode.validate_label_types v = Raise e →
     ∃ type_name, ATLASNode.LabelOther type_name ∈ v
       ∧ e = ValidationError ("Invalid node label type: " +:+ type_name))
  ∧ ((∀ type_name, ATLASNode.LabelOther type_name ∉ v) →
     ∃ ls, ATLASNode.validate_label_types v = Return ls
           ∧ length ls = length v)
  ∧ (∀ ls, ATLASNode.validate_label_types (ATLASNode.LabelEnum <$> ls)
           = Return ls)
  ∧ (∀ ls, ATLASNode.validate_label_types
             ((λ l, ATLASNode.LabelStr (NodeLabelType.value l)) <$> ls)
           = Return ls).
Proof.
  split; [|split; [|split]].
  - induction v as [|label rest IH]; intros e He; [done|].
    destruct label as [s|l|type_name].
    + rewrite (validate_label_types_cons (ATLASNode.LabelStr s) rest _
                 eq_refl) in He.
      destruct (ATLASNode.validate_label_types rest) as [ls|e'];
        [done|].
      injection He as <-. destruct (IH e' eq_refl) as (type_name & Hin & ->).
      exists type_name. split; [by right|done].
    + rewrite (validate_label_types_cons (ATLASNode.LabelEnum l) rest l
                 eq_refl) in He.
      destruct (ATLASNode.validate_label_types rest) as [ls|e'];
        [done|].
      injection He as <-. destruct (IH e' eq_refl) as (type_name & Hin & ->).
      exists type_name. split; [by right|done].
    + cbn in He. injection He as <-. exists type_name. split; [by left|done].
  - induction v as [|label rest IH]; intros Hnone; [by exists []|].
    destruct IH as (ls & Hls & Hlen).
    { intros type_name Hin. apply (Hnone type_name). by right. }
    destruct label as [s|l|type_name].
    + rewrite (validate_label_types_cons (ATLASNode.LabelStr s) rest _
                 eq_refl), Hls.
      eexists. split; [done|]. cbn. by rewrite Hlen.
    + rewrite (validate_label_types_cons (ATLASNode.LabelEnum l) rest l
                 eq_refl), Hls.
      eexists. split; [done|]. cbn. by rewrite Hlen.
    + exfalso. apply (Hnone type_name). by left.
  - induction ls as [|l ls IH]; [done|]. cbn [fmap list_fmap].
    by rewrite (validate_label_types_cons (ATLASNode.LabelEnum l) _ l
                  eq_refl), IH.
  - induction ls as [|l ls IH]; [done|]. cbn [fmap list_fmap].
    rewrite (validate_label_types_cons
               (ATLASNode.LabelStr (NodeLabelType.value l)) _ l), IH;
      [done|].
    by rewrite label_of_own_value.
Qed.

Lemma label_inputs_witness :
  ∃ ls,
    ATLASNode.validate_label_types
      [ATLASNode.LabelStr "Solar energy";
       ATLASNode.LabelEnum NodeLabelType.CONCEPT]
    = Return ls
    ∧ length ls = 2.
Proof.
  destruct (label_inputs [ATLASNode.LabelStr "Solar energy";
                          ATLASNode.LabelEnum NodeLabelType.CONCEPT])
    as (_ & Haccepted & _).
  apply Haccepted. intros type_name Hin.
  repeat (apply elem_of_cons in Hin as [Hin|Hin]; [discriminate Hin|]).
  by apply elem_of_nil in Hin.
Defined.

Lemma missing_of_with_validation_status s n :
  missing_of (ATLASNode.with_validation_status s n) = missing_of n.
Proof. done. Qed.

Lemma is_valid_consistent now n :
  cache_consistent n →
  (ATLASNode.is_valid now n).1
  = bool_decide (missing_of n = ∅)
    && ValidationStatusType.is_valid (ATLASNode.validation_status n)
  ∧ node_data (ATLASNode.is_valid now n).2 = node_data n.
Proof.
  intros Hc. unfold ATLASNode.is_valid.
  destruct (missing_properties_consistent now n Hc) as [Hm _].
  pose proof (missing_properties_data now n) as Hd.
  destruct (ATLASNode.missing_properties now n) as [missing s].
  cbn [fst snd] in *. subst missing. split; [|done].
  do 2 f_equal. unfold node_data in Hd. congruence.
Qed.

(** X24: for a node in its life cycle, [is_valid] holds exactly when no
    required property is missing and the validation status is a valid
    one; so [is_valid] implies that [validate] returns [True], but a node
    fresh from [create] is never [is_valid], whatever its properties;
    reading [is_valid] changes nothing but the cache. *)
Theorem node_is_valid (now : Z) (n : ATLASNode.t) :
  lifecycle n →
  (ATLASNode.is_valid now n).1
  = bool_decide (missing_of n = ∅)
    && ValidationStatusType.is_valid (ATLASNode.validation_status n)
  ∧ ((ATLASNode.is_valid now n).1 = true →
     (ATLASNode.validate now n).1 = Return true)
  ∧ (∀ node_id t0 ls p,
       ATLASNode.create node_id t0 ls p = Return n →
       (ATLASNode.is_valid now n).1 = false)
  ∧ node_data (ATLASNode.is_valid now n).2 = node_data n.
Proof.
  intros Hc%lifecycle_consistent.
  destruct (is_valid_consistent now n Hc) as [Hvalid Hdata].
  split; [done|]. split; [|split; [|done]].
  - rewrite Hvalid. intros [Hm _]%andb_prop.
    destruct (validate_consistent now n Hc) as [-> _]. by rewrite Hm.
  - intros node_id t0 ls p Hcreate. rewrite Hvalid.
    unfold ATLASNode.create in Hcreate. destruct ls; [done|].
    injection Hcreate as <-. cbn. by rewrite andb_false_r.
Qed.

Lemma node_is_valid_witness :
  lifecycle complete_solar
  ∧ (ATLASNode.validate 1 complete_solar).1 = Return true
  ∧ (ATLASNode.is_valid 1 complete_solar).1 = false.
Proof.
  assert (lifecycle complete_solar) as Hlife.
  { by apply (lifecycle_create "solar" 0 [NodeLabelType.ENERGY_TERM]
                (solar_completion ∪ solar_properties)). }
  split; [done|]. split.
  - destruct (validate_consistent 1 complete_solar) as [-> _];
      [by apply lifecycle_consistent|].
    assert (bool_decide (missing_of complete_solar = ∅) = true) as ->;
      [|done].
    apply bool_decide_eq_true_2. apply (bool_decide_unpack _).
    by vm_compute.
  - destruct (node_is_valid 1 complete_solar Hlife) as (_ & _ & Hfresh & _).
    by apply (Hfresh "solar" 0%Z [NodeLabelType.ENERGY_TERM]
                (solar_completion ∪ solar_properties)).
Defined.

(** X25: an update never makes a node fail validation: on a node in its
    life cycle for which [validate] returns [True], [update] succeeds,
    [validate] returns [True] on the updated node at any later time, and
    a second update succeeds as well, the later values winning. *)
Theorem update_preserves_validity (now later : Z)
    (p p2 : gmap string pyvalue) (n : ATLASNode.t) :
  lifecycle n →
  (ATLASNode.validate now n).1 = Return true →
  ∃ n' n'',
    ATLASNode.update now p n = (Return n', n')
    ∧ (ATLASNode.validate later n').1 = Return true
    ∧ ATLASNode.update later p2 n' = (Return n'', n'')
    ∧ ATLASNode.properties n'' = p2 ∪ (p ∪ ATLASNode.properties n)
    ∧ ATLASNode.updated_at n'' = later.
Proof.
  intros Hlife Hok.
  pose proof (lifecycle_update now p n Hlife) as Hlife'.
  pose proof (lifecycle_consistent n Hlife) as Hc.
  destruct (validate_consistent now n Hc) as [Hres _].
  rewrite Hok in Hres. injection Hres as Hm. symmetry in Hm.
  apply bool_decide_eq_true_1 in Hm.
  destruct (validate_data now n) as [_ Hd].
  rewrite update_unfold in Hlife' |- *.
  destruct (ATLASNode.validate now n) as [r s]. cbn [fst snd] in *.
  subst r. unfold ATLASNode.update_func in Hlife' |- *. cbn [snd] in Hlife'.
  set (n' := ATLASNode.with_updated_at now
               (ATLASNode.with_properties (p ∪ ATLASNode.properties s) s))
    in *.
  assert (ATLASNode.properties s = ATLASNode.properties n
          ∧ ATLASNode.labels s = ATLASNode.labels n) as [Hprops Hlabels]
    by (unfold node_data in Hd; split; congruence).
  assert (missing_of n' = ∅) as Hm'.
  { unfold missing_of, required_of, ATLASNode.required_properties_func.
    cbn [n' ATLASNode.labels ATLASNode.properties ATLASNode.with_updated_at
         ATLASNode.with_properties].
    rewrite Hprops, Hlabels. by apply update_keeps_none_missing. }
  pose proof (lifecycle_consistent n' Hlife') as Hc'.
  destruct (validate_consistent later n' Hc') as [Hres' _].
  rewrite bool_decide_eq_true_2 in Hres' by done.
  destruct (validate_data later n') as [_ Hd'].
  assert (∃ n'', ATLASNode.update later p2 n' = (Return n'', n'')
                 ∧ ATLASNode.properties n''
                   = p2 ∪ (p ∪ ATLASNode.properties n)
                 ∧ ATLASNode.updated_at n'' = later)
    as (n'' & Hupdate & Hmerged & Hstamp).
  { rewrite update_unfold.
    destruct (ATLASNode.validate later n') as [r' s']. cbn [fst snd] in *.
    subst r'. unfold ATLASNode.update_func. eexists. split; [done|].
    cbn [ATLASNode.properties ATLASNode.updated_at ATLASNode.with_updated_at
         ATLASNode.with_properties].
    split; [|done].
    assert (ATLASNode.properties s' = ATLASNode.properties n') as ->
      by (unfold node_data in Hd'; congruence).
    cbn [n' ATLASNode.properties ATLASNode.with_updated_at
         ATLASNode.with_properties].
    by rewrite Hprops. }
  by exists n', n''.
Qed.

Lemma update_preserves_validity_witness :
  ∃ n' n'',
    ATLASNode.update 1 {[ "source" := PyStr "EIA" ]} complete_solar
    = (Return n', n')
    ∧ (ATLASNode.validate 2 n').1 = Return true
    ∧ ATLASNode.update 2 {[ "source" := PyStr "IEA" ]} n' = (Return n'', n'')
    ∧ ATLASNode.properties n''
      = {[ "source" := PyStr "IEA" ]}
        ∪ ({[ "source" := PyStr "EIA" ]}
           ∪ ATLASNode.properties complete_solar)
    ∧ ATLASNode.updated_at n'' = 2%Z.
Proof.
  apply update_preserves_validity.
  - by apply (lifecycle_create "solar" 0 [NodeLabelType.ENERGY_TERM]
                (solar_completion ∪ solar_properties)).
  - destruct (validate_consistent 1 complete_solar) as [-> _];
      [by intros c|].
    assert (bool_decide (missing_of complete_solar = ∅) = true) as ->;
      [|done].
    apply bool_decide_eq_true_2. apply (bool_decide_unpack _).
    by vm_compute.
Defined.

(** X26: [validate_node] answers [False] and commits nothing when the
    client has no graph adapter or the adapter has no such node; for a
    node in its life cycle it answers whether no required property is
    missing, commits exactly one node, and the committed node's
    [is_valid] agrees with the answer. *)
Theorem validate_node_outcome (now later : Z) (self : ATLASClient.t)
    (node_id : string) (persisted : list ATLASNode.t) :
  (ATLASClient.graph_adapter self = None →
   ATLASClient.validate_node now self node_id persisted
   = (Return false, persisted))
  ∧ (∀ adapter,
       ATLASClient.graph_adapter self = Some adapter →
       get_node adapter node_id = None →
       ATLASClient.validate_node now self node_id persisted
       = (Return false, persisted))
  ∧ (∀ adapter node,
       ATLASClient.graph_adapter self = Some adapter →
       get_node adapter node_id = Some node →
       lifecycle node →
       ∃ committed,
         ATLASClient.validate_node now self node_id persisted
         = (Return (bool_decide (missing_of node = ∅)),
            persisted ++ [committed])
         ∧ (ATLASNode.is_valid later committed).1
           = bool_decide (missing_of node = ∅)
         ∧ ATLASNode.properties committed = ATLASNode.properties node
         ∧ ATLASNode.labels committed = ATLASNode.labels node).
Proof.
  rewrite validate_node_unfold. unfold ATLASClient.validate_node_func.
  split; [by intros ->|]. split; [by intros adapter -> ->|].
  intros adapter node -> -> Hlife.
  pose proof (lifecycle_consistent node Hlife) as Hc.
  destruct (validate_consistent now node Hc) as [Hres Hc'].
  destruct (validate_data now node) as [_ Hd].
  destruct (ATLASNode.validate now node) as [r s]. cbn [fst snd] in *.
  subst r.
  assert (ATLASNode.properties s = ATLASNode.properties node
          ∧ ATLASNode.labels s = ATLASNode.labels node) as [Hprops Hlabels]
    by (unfold node_data in Hd; split; congruence).
  eexists. split; [done|].
  split; [|by destruct (bool_decide (missing_of node = ∅))].
  assert (∀ t, (ATLASNode.is_valid later
                  (ATLASNode.with_validation_status t s)).1
               = bool_decide (missing_of node = ∅)
                 && ValidationStatusType.is_valid t) as Hvalid.
  { intros t.
    destruct (is_valid_consistent later
                (ATLASNode.with_validation_status t s)) as [-> _].
    - intros c Hcache. by apply Hc'.
    - by rewrite missing_of_with_validation_status, (missing_of_data _ _ Hd). }
  destruct (bool_decide (missing_of node = ∅)); by rewrite Hvalid.
Qed.

Lemma validate_node_outcome_witness :
  ∃ committed,
    ATLASClient.validate_node 1
      (ATLASClient.Client (Some (single_node_adapter complete_solar)))
      "solar" []
    = (Return (bool_decide (missing_of complete_solar = ∅)), [committed])
    ∧ (ATLASNode.is_valid 2 committed).1
      = bool_decide (missing_of complete_solar = ∅).
Proof.
  destruct (validate_node_outcome 1 2
              (ATLASClient.Client (Some (single_node_adapter complete_solar)))
              "solar" []) as (_ & _ & Hfound).
  destruct (Hfound (single_node_adapter complete_solar) complete_solar
              eq_refl eq_refl) as (committed & Hrun & Hvalid & _).
  { by apply (lifecycle_create "solar" 0 [NodeLabelType.ENERGY_TERM]
                (solar_completion ∪ solar_properties)). }
  exists committed. by split.
Defined.

(** * Further properties of the taxonomy analyzer *)

Lemma bump_lookup (k k' : string) (counts : gmap string nat) :
  TaxonomyExtractor.bump k counts !! k'
  = if decide (k = k') then Some (default 0 (counts !! k) + 1)
    else counts !! k'.
Proof.
  unfold TaxonomyExtractor.bump. destruct (decide (k = k')) as [->|Hne].
  - by rewrite lookup_insert_eq.
  - by rewrite lookup_insert_ne.
Qed.

Lemma count_fold {B} (f : B → string) (l : list B) :
  ∀ (counts : gmap string nat) (k : string),
  foldl (λ counts x, TaxonomyExtractor.bump (f x) counts) counts l !! k
  = (let c := length (filter (λ x, f x = k) l) in
     if decide (c = 0) then counts !! k
     else Some (default 0 (counts !! k) + c)).
Proof.
  induction l as [|x l IH]; intros counts k; [done|].
  cbn [foldl]. rewrite IH, filter_cons, bump_lookup. cbv zeta.
  destruct (decide (f x = k)) as [->|Hne]; cbn [length].
  - destruct (decide (length (filter (λ x, f x = k) l) = 0)) as [->|Hpos].
    + by rewrite decide_False by lia.
    + rewrite decide_False by lia. cbn [default].
      apply (f_equal Some). unfold id. lia.
  - done.
Qed.

Lemma total_insert (k : string) (c : nat) (counts : gmap string nat) :
  counts !! k = None → total (<[k := c]> counts) = c + total counts.
Proof.
  intros Hfresh. unfold total.
  rewrite map_fold_insert_L; [done| |done]. intros. lia.
Qed.

Lemma total_bump (k : string) (counts : gmap string nat) :
  total (TaxonomyExtractor.bump k counts) = S (total counts).
Proof.
  unfold TaxonomyExtractor.bump.
  destruct (counts !! k) as [c|] eqn:Hk; cbn [default].
  - rewrite <- (insert_delete_eq counts k (c + 1)).
    rewrite total_insert by apply lookup_delete_eq.
    rewrite <- (insert_delete_id counts k c Hk) at 2.
    rewrite total_insert by apply lookup_delete_eq. lia.
  - by rewrite total_insert.
Qed.

Lemma total_fold {B} (f : B → string) (l : list B) :
  ∀ counts : gmap string nat,
  total (foldl (λ counts x, TaxonomyExtractor.bump (f x) counts) counts l)
  = total counts + length l.
Proof.
  induction l as [|x l IH]; intros counts; cbn [foldl length]; [lia|].
  rewrite IH, total_bump. lia.
Qed.

Lemma count_node_labels_flat (nodes : list ATLASNode.t) :
  ∀ counts : gmap string nat,
  foldl (λ label_counts node,
           foldl (λ label_counts label,
                    TaxonomyExtractor.bump (NodeLabelType.value label)
                      label_counts)
                 label_counts (ATLASNode.labels node))
        counts nodes
  = foldl (λ label_counts label,
             TaxonomyExtractor.bump (NodeLabelType.value label) label_counts)
          counts (nodes ≫= ATLASNode.labels).
Proof.
  induction nodes as [|node nodes IH]; intros counts; [done|].
  cbn [foldl]. by rewrite bind_cons, foldl_app, IH.
Qed.

(** X27: the two histograms of the analysis count exactly: the entry of
    a relationship type value is the number of relationships of that
    type, the entry of a label value is the number of occurrences of the
    label over all nodes, a value that does not occur has no entry, and
    the entries add up to the number of relationships and to the number
    of label occurrences. *)
Theorem distribution_counts (nodes : list ATLASNode.t)
    (rels : list ATLASRelationship.t) (k : string) :
  TaxonomyExtractor._count_relationship_types rels !! k
  = (let c :=
       length (filter (λ rel, RelationshipType.value
                                (ATLASRelationship.type rel) = k) rels) in
     if decide (c = 0) then None else Some c)
  ∧ TaxonomyExtractor._count_node_labels nodes !! k
    = (let c :=
         length (filter (λ label, NodeLabelType.value label = k)
                   (nodes ≫= ATLASNode.labels)) in
       if decide (c = 0) then None else Some c)
  ∧ total (TaxonomyExtractor._count_relationship_types rels) = length rels
  ∧ total (TaxonomyExtractor._count_node_labels nodes)
    = length (nodes ≫= ATLASNode.labels).
Proof.
  unfold TaxonomyExtractor._count_relationship_types,
    TaxonomyExtractor._count_node_labels.
  rewrite count_node_labels_flat.
  rewrite (count_fold (λ rel, RelationshipType.value
                                (ATLASRelationship.type rel))),
    (count_fold NodeLabelType.value),
    (total_fold (λ rel, RelationshipType.value
                          (ATLASRelationship.type rel))),
    (total_fold NodeLabelType.value).
  rewrite lookup_empty. by repeat split.
Qed.

Lemma Qdiv_nat_le_1 (a b : nat) :
  0 < b →
  (0 <= inject_Z (Z.of_nat a) / inject_Z (Z.of_nat b))%Q
  ∧ ((inject_Z (Z.of_nat a) / inject_Z (Z.of_nat b) <= 1)%Q ↔ a ≤ b).
Proof.
  intros Hb. unfold Qle, Qdiv, Qmult, Qinv, inject_Z. cbn [Qnum Qden].
  destruct (Z.of_nat b) as [|q|q] eqn:Hq; [lia| |lia].
  cbn [Qnum Qden]. rewrite !Z.mul_1_r, !Z.mul_1_l, Pos.mul_1_l.
  split; [lia|]. rewrite <- Hq. lia.
Qed.

(** X28: the connectivity is [0] for at most one node; for two or more
    nodes it is the number of relationships over [n * (n - 1)], which is
    then positive, so the second guard never fires; it is never negative,
    and it stays within [1] only while the relationships are no more than
    [n * (n - 1)]. *)
Theorem connectivity_range (nodes : list ATLASNode.t)
    (rels : list ATLASRelationship.t) :
  (0 <= TaxonomyExtractor._calculate_connectivity nodes rels)%Q
  ∧ (length nodes ≤ 1 →
     TaxonomyExtractor._calculate_connectivity nodes rels = 0%Q)
  ∧ (2 ≤ length nodes →
     0 < length nodes * (length nodes - 1)
     ∧ TaxonomyExtractor._calculate_connectivity nodes rels
       = (inject_Z (Z.of_nat (length rels))
          / inject_Z (Z.of_nat (length nodes * (length nodes - 1))))%Q
     ∧ ((TaxonomyExtractor._calculate_connectivity nodes rels <= 1)%Q
        ↔ length rels ≤ length nodes * (length nodes - 1))).
Proof.
  unfold TaxonomyExtractor._calculate_connectivity.
  destruct (decide (length nodes ≤ 1)) as [Hsmall|Hlarge].
  - split; [done|]. split; [done|]. lia.
  - assert (0 < length nodes * (length nodes - 1)) as Hpos by nia.
    rewrite decide_False by lia.
    destruct (Qdiv_nat_le_1 (length rels) _ Hpos) as [Hnonneg Hle].
    split; [done|]. split; [lia|]. by intros _.
Qed.

Lemma connectivity_range_witness :
  TaxonomyExtractor._calculate_connectivity
    [concept "A"; concept "B"]
    [link RelationshipType.IS_A "r1" "A" "B";
     link RelationshipType.RELATED_TO "r2" "A" "B";
     link RelationshipType.USES "r3" "B" "A"]
  = (inject_Z 3 / inject_Z 2)%Q.
Proof.
  destruct (connectivity_range
              [concept "A"; concept "B"]
              [link RelationshipType.IS_A "r1" "A" "B";
               link RelationshipType.RELATED_TO "r2" "A" "B";
               link RelationshipType.USES "r3" "B" "A"])
    as (_ & _ & Hlarge).
  destruct Hlarge as (_ & Hratio & _); [cbn; lia|].
  exact Hratio.
Defined.

Lemma dfs_children_visited fuel adjacency (x : string) (m : nat)
    (visited : gset string) :
  (∀ y, y ∈ default [] (adjacency !! x) → y ∈ {[x]} ∪ visited) →
  TaxonomyExtractor.dfs (S fuel) adjacency x 0 (m, visited)
  = Some (m, {[x]} ∪ visited).
Proof.
  intros Hchildren. rewrite dfs_S. cbn [fst snd].
  rewrite decide_False by lia.
  induction (default [] (adjacency !! x)) as [|y children IH]; [done|].
  cbn [foldl mbind option_bind snd].
  rewrite decide_True by (apply Hchildren; by left).
  apply IH. intros z Hz. apply Hchildren. by right.
Qed.

Lemma dfs_from_each_zero fuel adjacency : ∀ (nodes : list ATLASNode.t)
    (visited : gset string),
  (∀ pre n post y, nodes = pre ++ n :: post →
     y ∈ default [] (adjacency !! ATLASNode.id n) →
     y ∈ visited ∨ y ∈ ATLASNode.id <$> pre ∨ y = ATLASNode.id n) →
  ∃ visited',
    foldl (λ (acc : option (nat * gset string)) node,
             st ← acc;
             if decide (ATLASNode.id node ∈ st.2) then Some st
             else TaxonomyExtractor.dfs (S fuel) adjacency
                    (ATLASNode.id node) 0 st)
          (Some (0, visited)) nodes
    = Some (0, visited').
Proof.
  induction nodes as [|n rest IH]; intros visited Hpre; [by eexists|].
  cbn [foldl mbind option_bind snd].
  destruct (decide (ATLASNode.id n ∈ visited)) as [Hseen|Hnew].
  - apply IH. intros pre n' post y -> Hy.
    destruct (Hpre (n :: pre) n' post y eq_refl Hy) as [H|[H|H]];
      [by left| |by right; right].
    cbn in H. apply elem_of_cons in H as [->|H]; [by left|by right; left].
  - rewrite dfs_children_visited.
    + apply IH. intros pre n' post y -> Hy.
      destruct (Hpre (n :: pre) n' post y eq_refl Hy) as [H|[H|H]];
        [left; apply elem_of_union; by right| |by right; right].
      cbn in H. apply elem_of_cons in H as [->|H]; [|by right; left].
      left. apply elem_of_union. left. by apply elem_of_singleton.
    + intros y Hy. apply elem_of_union.
      destruct (Hpre [] n rest y eq_refl Hy) as [H|[H|H]].
      * by right.
      * by apply elem_of_nil in H.
      * left. by apply elem_of_singleton.
Qed.

(** X29: the hierarchical depth is [0] whenever every node is reached
    only after its children: in particular when no relationship is
    hierarchical, and also for a chain of hierarchical relationships
    whose nodes are listed from the last link back to the first, where
    the same chain listed from its start has the depth of its length. *)
Theorem depth_zero_children_first (ids : list string)
    (nodes : list ATLASNode.t) (rels : list ATLASRelationship.t) :
  ((∀ rel, rel ∈ rels → ATLASRelationship.is_hierarchical rel = false) →
   TaxonomyExtractor._calculate_hierarchical_depth nodes rels
   = Some (Return 0))
  ∧ (NoDup ids →
     ATLASNode.id <$> nodes = rev ids →
     chain_edges ids rels →
     TaxonomyExtractor._calculate_hierarchical_depth nodes rels
     = Some (Return 0)).
Proof.
  split.
  - intros Hflat.
    assert (starts_known nodes rels) as Hstarts.
    { intros rel Hin Hh. by rewrite (Hflat rel Hin) in Hh. }
    destruct (build_adjacency_ok nodes rels Hstarts)
      as (adjacency & Hb & Hlook).
    unfold TaxonomyExtractor._calculate_hierarchical_depth,
      TaxonomyExtractor._calculate_hierarchical_depth_fuel.
    rewrite Hb. unfold TaxonomyExtractor.dfs_from_each.
    destruct (dfs_from_each_zero (length nodes + length rels) adjacency
                nodes ∅) as [visited' ->]; [|done].
    intros pre n post y _ Hy. exfalso. rewrite Hlook in Hy.
    destruct (decide (ATLASNode.id n ∈ ATLASNode.id <$> nodes));
      [|by apply elem_of_nil in Hy].
    cbn in Hy. unfold hierarchical_children in Hy.
    apply list_elem_of_fmap in Hy as (rel & _ & Hrel).
    apply list_elem_of_filter in Hrel as [[Hh _] Hin].
    by rewrite (Hflat rel Hin) in Hh.
  - intros Hnd Hids Hchain.
    assert (ATLASNode.id <$> nodes ≡ₚ ids) as Hperm
      by (rewrite Hids; symmetry; apply Permutation_rev).
    assert (starts_known nodes rels) as Hstarts.
    { intros rel Hin Hh. rewrite Hperm.
      assert (edge rel ∈ zip ids (tail ids)) as Hedge.
      { rewrite <- Hchain. apply list_elem_of_fmap_2.
        apply list_elem_of_filter. by split. }
      destruct (edge rel) as [a b] eqn:He.
      apply elem_of_zip_l in Hedge. unfold edge in He.
      by injection He as <- _. }
    destruct (build_adjacency_ok nodes rels Hstarts)
      as (adjacency & Hb & Hlook).
    unfold TaxonomyExtractor._calculate_hierarchical_depth,
      TaxonomyExtractor._calculate_hierarchical_depth_fuel.
    rewrite Hb. unfold TaxonomyExtractor.dfs_from_each.
    destruct (dfs_from_each_zero (length nodes + length rels) adjacency
                nodes ∅) as [visited' ->]; [|done].
    intros pre n post y Hsplit Hy. right. left.
    rewrite Hlook, decide_True in Hy
      by (rewrite Hsplit; apply list_elem_of_fmap_2, elem_of_app;
          right; by left).
    cbn in Hy. rewrite (chain_children ids rels _ Hnd Hchain) in Hy.
    assert (ids = rev (ATLASNode.id <$> post)
                  ++ ATLASNode.id n :: rev (ATLASNode.id <$> pre)) as Hshape.
    { rewrite <- (rev_involutive ids), <- Hids, Hsplit.
      rewrite fmap_app, fmap_cons, rev_app_distr. cbn [rev].
      by rewrite <- (assoc_L (++)). }
    rewrite Hshape in Hy, Hnd. rewrite (successors_after _ _ _ Hnd) in Hy.
    destruct (rev (ATLASNode.id <$> pre)) as [|z zs] eqn:Hrev;
      [by apply elem_of_nil in Hy|].
    apply list_elem_of_singleton in Hy as ->.
    apply list_elem_of_In, in_rev, list_elem_of_In. rewrite Hrev. by left.
Qed.

Lemma depth_zero_children_first_witness :
  TaxonomyExtractor._calculate_hierarchical_depth
    [concept "C"; concept "B"; concept "A"]
    [link RelationshipType.IS_A "r1" "A" "B";
     link RelationshipType.PART_OF "r2" "B" "C"]
  = Some (Return 0).
Proof.
  destruct (depth_zero_children_first ["A"; "B"; "C"]
              [concept "C"; concept "B"; concept "A"]
              [link RelationshipType.IS_A "r1" "A" "B";
               link RelationshipType.PART_OF "r2" "B" "C"])
    as [_ Hreversed].
  apply Hreversed.
  - apply (bool_decide_unpack _). by vm_compute.
  - reflexivity.
  - unfold chain_edges. reflexivity.
Defined.

Lemma dict_set_elem_of {B} (k : string) (v : B) (d : list (string * B))
    (k' : string) (v' : B) :
  NoDup d.*1 →
  (k', v') ∈ TaxonomyExtractor.dict_set k v d
  ↔ (k' = k ∧ v' = v) ∨ (k' ≠ k ∧ (k', v') ∈ d).
Proof.
  induction d as [|[k0 v0] d IH]; intros Hnd.
  - cbn. rewrite list_elem_of_singleton. split.
    + intros [= -> ->]. by left.
    + intros [[-> ->]|[_ Hin]]; [done|by apply elem_of_nil in Hin].
  - cbn [TaxonomyExtractor.dict_set]. cbn in Hnd.
    apply NoDup_cons in Hnd as [Hk0 Hnd].
    destruct (decide (k = k0)) as [<-|Hne].
    + rewrite !elem_of_cons. split.
      * intros [[= -> ->]|Hin]; [by left|]. right.
        split; [|by right]. intros ->. apply Hk0.
        apply list_elem_of_fmap. by exists (k, v').
      * intros [[-> ->]|[Hne' [[= -> ->]|Hin]]];
          [by left|done|by right].
    + rewrite !elem_of_cons, (IH Hnd). split.
      * intros [[= -> ->]|[[-> ->]|[Hne' Hin]]].
        -- right. split; [congruence|by left].
        -- by left.
        -- right. split; [done|by right].
      * intros [[-> ->]|[Hne' [[= -> ->]|Hin]]].
        -- right. by left.
        -- by left.
        -- right. right. by split.
Qed.

Lemma dict_set_fresh {B} (k : string) (v : B) (d : list (string * B)) :
  k ∉ d.*1 → TaxonomyExtractor.dict_set k v d = d ++ [(k, v)].
Proof.
  induction d as [|[k0 v0] d IH]; intros Hfresh; [done|].
  cbn [TaxonomyExtractor.dict_set]. cbn in Hfresh.
  apply not_elem_of_cons in Hfresh as [Hne Hfresh].
  rewrite decide_False by done. cbn. by rewrite IH.
Qed.

Lemma dedup_entries (rels : list ATLASRelationship.t) (k : string)
    (rel : ATLASRelationship.t) :
  (k, rel) ∈ foldl (λ d rel,
                      TaxonomyExtractor.dict_set (ATLASRelationship.id rel)
                        rel d) [] rels
  ↔ k = ATLASRelationship.id rel
    ∧ last (filter (λ x, ATLASRelationship.id x = ATLASRelationship.id rel)
              rels) = Some rel.
Proof.
  induction rels as [|x rels IH] using rev_ind.
  - cbn. split; [by intros Hin%elem_of_nil|by intros [_ ?]].
  - rewrite foldl_app. cbn [foldl].
    rewrite dict_set_elem_of by (by apply dedup_keys, NoDup_nil).
    rewrite IH, filter_app, filter_cons, filter_nil.
    destruct (decide (ATLASRelationship.id x = ATLASRelationship.id rel))
      as [Heq|Hne].
    + rewrite last_snoc. split.
      * intros [[-> ->]|[Hne [-> _]]]; [done|]. by rewrite Heq in Hne.
      * intros [-> [= ->]]. by left.
    + rewrite (right_id_L [] (++)). split.
      * intros [[-> ->]|[_ ?]]; done.
      * intros [-> Hlast]. right. split; [congruence|done].
Qed.

(** X30: deduplication by id keeps, for every id, the last relationship
    with that id and nothing else; no two kept relationships share an id;
    and a list without repeated ids is returned as it is. *)
Theorem unique_relationships_keeps_last (rels : list ATLASRelationship.t)
    (rel : ATLASRelationship.t) :
  (rel ∈ TaxonomyExtractor.unique_relationships rels
   ↔ last (filter (λ x, ATLASRelationship.id x = ATLASRelationship.id rel)
             rels) = Some rel)
  ∧ NoDup (ATLASRelationship.id
             <$> TaxonomyExtractor.unique_relationships rels)
  ∧ (NoDup (ATLASRelationship.id <$> rels) →
     TaxonomyExtractor.unique_relationships rels = rels).
Proof.
  unfold TaxonomyExtractor.unique_relationships.
  split; [|split].
  - rewrite list_elem_of_fmap. split.
    + intros ([k r] & -> & Hin). by apply dedup_entries in Hin as [_ ?].
    + intros Hlast. exists (ATLASRelationship.id rel, rel).
      split; [done|]. by apply dedup_entries.
  - destruct (dedup_keys rels [] NoDup_nil_2) as [Hnd _].
    assert (∀ d : list (string * ATLASRelationship.t),
              (∀ k r, (k, r) ∈ d → k = ATLASRelationship.id r) →
              d.*1 = ATLASRelationship.id <$> d.*2) as Hkeys.
    { induction d as [|[k r] d IHd]; intros Hd; [done|]. cbn.
      rewrite (Hd k r) by (by left). f_equal. apply IHd.
      intros k' r' Hin. apply Hd. by right. }
    rewrite <- Hkeys; [done|].
    intros k r Hin. by apply dedup_entries in Hin as [? _].
  - intros Hnd.
    assert (foldl (λ d rel,
                     TaxonomyExtractor.dict_set (ATLASRelationship.id rel)
                       rel d) [] rels
            = (λ r, (ATLASRelationship.id r, r)) <$> rels) as ->.
    { induction rels as [|x rels IH] using rev_ind; [done|].
      rewrite fmap_app in Hnd. apply NoDup_app in Hnd as (Hnd & Hx & _).
      rewrite foldl_app, fmap_app. cbn [foldl]. rewrite (IH Hnd).
      apply dict_set_fresh. rewrite <- list_fmap_compose.
      intros Hin. apply (Hx _ Hin). by left. }
    rewrite <- list_fmap_compose. apply list_fmap_id.
Qed.

Lemma unique_relationships_keeps_last_witness :
  TaxonomyExtractor.unique_relationships
    [link RelationshipType.IS_A "r1" "A" "B";
     link RelationshipType.PART_OF "r2" "B" "C"]
  = [link RelationshipType.IS_A "r1" "A" "B";
     link RelationshipType.PART_OF "r2" "B" "C"].
Proof.
  destruct (unique_relationships_keeps_last
              [link RelationshipType.IS_A "r1" "A" "B";
               link RelationshipType.PART_OF "r2" "B" "C"]
              (link RelationshipType.IS_A "r1" "A" "B"))
    as (_ & _ & Hsame).
  apply Hsame. apply (bool_decide_unpack _). by vm_compute.
Defined.
